(** * HackathonFunding: the ledger contract and its settlement orchestrator

    A shallow embedding of [contracts/HackathonFunding.sol] (the ledger
    contract) and of the four settlement handlers of [server/server.js]
    (the orchestrator), with the properties of the funding lifecycle
    stated and proved over them.

    Conventions of the ledger model.
    - [uint256] values are [N]; Solidity 0.8 arithmetic is checked, so an
      operation whose result leaves the range reverts the transaction.
    - [mapping(uint256 => Hackathon)] is a [gmap N Hackathon] read with the
      total lookup [!!!]: a key that was never written reads as the
      all-zero record, as in the EVM.
    - A function body is a computation in the monad [M]: it threads the
      contract state and either returns or reverts with a reason.  A
      transaction that reverts leaves the state it started from
      ([transact]).
    - The code of a payment's recipient is outside the contract.  It is
      represented by [accepts], which says for every external call whether
      the recipient's code reverts or takes the payment, and which calls
      it makes back into the contract before it returns.  These calls run
      on the contract as it stands in the middle of the paying function;
      one that reverts is undone alone.  Every external call is recorded
      in [calls] together with the storage it was made on. *)

From Stdlib Require Import NArith ZArith Lia.
From stdpp Require Import gmap list strings.

Local Open Scope string_scope.
Local Open Scope list_scope.
Local Open Scope N_scope.

(** ** The ledger contract *)

Module Ledger.

Definition address := N.

Definition uint256_max : N := 2 ^ 256 - 1.

(** Checked arithmetic of Solidity 0.8: [None] is the overflow panic. *)
Definition checked_mul (a b : N) : option N :=
  if a * b <=? uint256_max then Some (a * b) else None.

Definition checked_add (a b : N) : option N :=
  if a + b <=? uint256_max then Some (a + b) else None.

Definition checked_sub (a b : N) : option N :=
  if b <=? a then Some (a - b) else None.

(** [struct Hackathon].  The field [exists] is spelled [exists_]. *)
Record Hackathon := mkHackathon {
  totalFunding : N;
  isFunded : bool;
  prizesDistributed : bool;
  isEnded : bool;
  winners : list address;
  exists_ : bool
}.

Definition zero_hackathon : Hackathon :=
  mkHackathon 0 false false false [] false.

#[global] Instance Hackathon_inhabited : Inhabited Hackathon :=
  populate zero_hackathon.

Definition set_totalFunding (v : N) (h : Hackathon) : Hackathon :=
  mkHackathon v (isFunded h) (prizesDistributed h) (isEnded h) (winners h) (exists_ h).
Definition set_isFunded (b : bool) (h : Hackathon) : Hackathon :=
  mkHackathon (totalFunding h) b (prizesDistributed h) (isEnded h) (winners h) (exists_ h).
Definition set_prizesDistributed (b : bool) (h : Hackathon) : Hackathon :=
  mkHackathon (totalFunding h) (isFunded h) b (isEnded h) (winners h) (exists_ h).
Definition set_isEnded (b : bool) (h : Hackathon) : Hackathon :=
  mkHackathon (totalFunding h) (isFunded h) (prizesDistributed h) b (winners h) (exists_ h).
Definition set_winners (ws : list address) (h : Hackathon) : Hackathon :=
  mkHackathon (totalFunding h) (isFunded h) (prizesDistributed h) (isEnded h) ws (exists_ h).
Definition set_exists (b : bool) (h : Hackathon) : Hackathon :=
  mkHackathon (totalFunding h) (isFunded h) (prizesDistributed h) (isEnded h) (winners h) b.

(** The status word of OpenZeppelin's [ReentrancyGuard]. *)
Inductive GuardStatus := NOT_ENTERED | ENTERED.

Definition is_entered (g : GuardStatus) : bool :=
  match g with ENTERED => true | NOT_ENTERED => false end.

(** The contract's storage: its own variables and those of the two
    OpenZeppelin bases ([_paused] of Pausable, [_status] of
    ReentrancyGuard). *)
Record Storage := mkStorage {
  organizer : address;
  hackathons : gmap N Hackathon;
  activeHackathons : list N;
  _paused : bool;
  _status : GuardStatus
}.

Inductive Event :=
| HackathonCreated (hackathonId : N)
| Funded (hackathonId amount : N)
| WinnersSet (hackathonId : N) (ws : list address)
| PrizeDistributed (hackathonId : N) (winner : address) (amount : N)
| HackathonEnded (hackathonId : N)
| Withdrawn (org : address) (amount : N)
| Paused (account : address)
| Unpaused (account : address).

(** One external call [recipient.call{value: amount}("")], with the storage
    as it stands when the call is made. *)
Record ExtCall := mkExtCall {
  call_recipient : address;
  call_amount : N;
  call_storage : Storage
}.

(** The state a transaction runs on: storage, [address(this).balance], the
    events emitted so far and the external calls made so far (oldest
    first). *)
Record State := mkState {
  storage : Storage;
  balance : N;
  events : list Event;
  calls : list ExtCall
}.

Definition set_storage (f : Storage -> Storage) (s : State) : State :=
  mkState (f (storage s)) (balance s) (events s) (calls s).

Definition set_hackathons (f : gmap N Hackathon -> gmap N Hackathon) (st : Storage) : Storage :=
  mkStorage (organizer st) (f (hackathons st)) (activeHackathons st) (_paused st) (_status st).
Definition set_activeHackathons (f : list N -> list N) (st : Storage) : Storage :=
  mkStorage (organizer st) (hackathons st) (f (activeHackathons st)) (_paused st) (_status st).
Definition set_paused (b : bool) (st : Storage) : Storage :=
  mkStorage (organizer st) (hackathons st) (activeHackathons st) b (_status st).
Definition set_status (g : GuardStatus) (st : Storage) : Storage :=
  mkStorage (organizer st) (hackathons st) (activeHackathons st) (_paused st) g.

(** *** The execution monad *)

Inductive Result (A : Type) : Type :=
| Ok (a : A)
| Revert (reason : string).
Arguments Ok {A} a.
Arguments Revert {A} reason.

Definition M (A : Type) : Type := State -> Result (A * State).

Definition ret {A} (a : A) : M A := fun s => Ok (a, s).

Definition bind {A B} (m : M A) (k : A -> M B) : M B :=
  fun s => match m s with
           | Ok (a, s') => k a s'
           | Revert r => Revert r
           end.

#[local] Notation "x <- c ;; k" := (bind c (fun x => k))
  (at level 20, c at level 99, k at level 200, only parsing).
#[local] Notation "c ;; k" := (bind c (fun _ => k))
  (at level 100, k at level 200, right associativity, only parsing).

Definition revert {A} (reason : string) : M A := fun _ => Revert reason.

Definition require (b : bool) (reason : string) : M unit :=
  if b then ret tt else revert reason.

Definition get : M State := fun s => Ok (s, s).

Definition modify (f : State -> State) : M unit := fun s => Ok (tt, f s).

Definition emit (e : Event) : M unit :=
  modify (fun s => mkState (storage s) (balance s) (events s ++ [e]) (calls s)).

(** Lift a checked arithmetic result: overflow is a panic, which reverts. *)
Definition checked (o : option N) : M N :=
  match o with
  | Some v => ret v
  | None => revert "Panic(0x11)"
  end.

(** Read [hackathons[hackathonId]] through the storage pointer. *)
Definition read (hackathonId : N) : M Hackathon :=
  s <- get ;; ret (hackathons (storage s) !!! hackathonId).

(** Write one field of [hackathons[hackathonId]] through the storage
    pointer. *)
Definition write (hackathonId : N) (f : Hackathon -> Hackathon) : M unit :=
  modify (set_storage (set_hackathons
    (fun hs => <[hackathonId := f (hs !!! hackathonId)]> hs))).

(** The message a call carries. *)
Record Msg := mkMsg {
  msg_sender : address;
  msg_value : N
}.

(** *** Modifiers *)

Definition onlyOrganizer (m : Msg) (body : M unit) : M unit :=
  s <- get ;;
  require (msg_sender m =? organizer (storage s)) "Only organizer can call this" ;;
  body.

Definition hackathonExists (hackathonId : N) (body : M unit) : M unit :=
  h <- read hackathonId ;;
  require (exists_ h) "Hackathon does not exist" ;;
  body.

(** Pausable.whenNotPaused *)
Definition whenNotPaused (body : M unit) : M unit :=
  s <- get ;;
  require (negb (_paused (storage s))) "Pausable: paused" ;;
  body.

(** ReentrancyGuard.nonReentrant *)
Definition nonReentrant (body : M unit) : M unit :=
  s <- get ;;
  require (negb (is_entered (_status (storage s)))) "ReentrancyGuard: reentrant call" ;;
  modify (set_storage (set_status ENTERED)) ;;
  body ;;
  modify (set_storage (set_status NOT_ENTERED)).

(** *** Internal functions *)

(** The loop of [_removeActiveHackathon], started at index [i] with [n]
    iterations left ([n] is [length a - i]): at the first index holding
    [hackathonId] the last element is moved there (unless it is the last
    index), the array is popped and the loop is left. *)
Fixpoint removeActive_loop (n i : nat) (hackathonId : N) (a : list N) : list N :=
  match n with
  | O => a
  | S n' =>
    match a !! i with
    | Some x =>
      if x =? hackathonId then
        let a1 :=
          if negb (Nat.eqb i (length a - 1)) then
            match a !! (length a - 1)%nat with
            | Some y => <[i := y]> a
            | None => a
            end
          else a in
        removelast a1
      else removeActive_loop n' (S i) hackathonId a
    | None => a
    end
  end.

Definition _removeActiveHackathon (hackathonId : N) : M unit :=
  modify (set_storage (set_activeHackathons
    (fun a => removeActive_loop (length a) 0 hackathonId a))).

(** [hackathon.winners[i]]: an index out of range is a panic. *)
Definition winner_at (h : Hackathon) (i : nat) : M address :=
  match winners h !! i with
  | Some w => ret w
  | None => revert "Panic(0x32)"
  end.

(** *** External functions that call no other contract *)

Definition fundHackathon (m : Msg) (hackathonId : N) : M unit :=
  onlyOrganizer m (whenNotPaused (nonReentrant (
    hackathon <- read hackathonId ;;
    (if negb (exists_ hackathon)
     then write hackathonId (set_exists true) ;; emit (HackathonCreated hackathonId)
     else ret tt) ;;
    hackathon <- read hackathonId ;;
    require (negb (isFunded hackathon)) "Hackathon already funded" ;;
    require (0 <? msg_value m) "Must send some ETH" ;;
    write hackathonId (set_totalFunding (msg_value m)) ;;
    write hackathonId (set_isFunded true) ;;
    modify (set_storage (set_activeHackathons (fun a => a ++ [hackathonId]))) ;;
    emit (Funded hackathonId (msg_value m))))).

(** The nested loops of [setWinners]: [check_inner w rest] is the [j] loop
    for one [i], [check_winners] the [i] loop. *)
Fixpoint check_inner (w : address) (rest : list address) : M unit :=
  match rest with
  | [] => ret tt
  | w' :: rest' =>
    require (negb (w =? w')) "Duplicate winner address" ;;
    check_inner w rest'
  end.

Fixpoint check_winners (ws : list address) : M unit :=
  match ws with
  | [] => ret tt
  | w :: rest =>
    require (negb (w =? 0)) "Invalid winner address" ;;
    check_inner w rest ;;
    check_winners rest
  end.

Definition setWinners (m : Msg) (hackathonId : N) (_winners : list address) : M unit :=
  onlyOrganizer m (whenNotPaused (hackathonExists hackathonId (
    hackathon <- read hackathonId ;;
    require (isFunded hackathon) "Hackathon must be funded" ;;
    require (negb (prizesDistributed hackathon)) "Prizes already distributed" ;;
    require ((1 <=? length _winners)%nat && (length _winners <=? 3)%nat)
            "Must select 1-3 winners" ;;
    check_winners _winners ;;
    write hackathonId (set_winners _winners) ;;
    emit (WinnersSet hackathonId _winners)))).

Definition endHackathon (m : Msg) (hackathonId : N) : M unit :=
  onlyOrganizer m (whenNotPaused (hackathonExists hackathonId (
    hackathon <- read hackathonId ;;
    require (negb (isEnded hackathon)) "Hackathon already ended" ;;
    write hackathonId (set_isEnded true) ;;
    emit (HackathonEnded hackathonId)))).

(** Pausable._pause and _unpause, behind [onlyOrganizer]. *)
Definition pause (m : Msg) : M unit :=
  onlyOrganizer m (whenNotPaused (
    modify (set_storage (set_paused true)) ;;
    emit (Paused (msg_sender m)))).

Definition unpause (m : Msg) : M unit :=
  onlyOrganizer m (
    s <- get ;;
    require (_paused (storage s)) "Pausable: not paused" ;;
    modify (set_storage (set_paused false)) ;;
    emit (Unpaused (msg_sender m))).

(** *** Calls into the contract *)

Inductive Call :=
| FundHackathon (hackathonId : N)
| SetWinners (hackathonId : N) (_winners : list address)
| DistributePrizes (hackathonId : N)
| EndHackathon (hackathonId : N)
| Withdraw
| Pause
| Unpause
| Receive.

(** Only [fundHackathon] and [receive] are payable: the others revert when
    value is attached. *)
Definition payable (c : Call) : bool :=
  match c with
  | FundHackathon _ | Receive => true
  | _ => false
  end.

(** The value of the message is credited to the contract before the body
    runs. *)
Definition credit (v : N) (s : State) : State :=
  mkState (storage s) (balance s + v) (events s) (calls s).

(** *** External functions that pay *)

Section Frame.

(** The low-level call [recipient.call{value: amount}("")] of the frame the
    contract runs in: it gives [success] and the state the recipient's
    code left behind. *)
Variable call : address -> N -> M bool.

Definition _safeTransfer (recipient : address) (amount hackathonId : N) : M unit :=
  success <- call recipient amount ;;
  require success "ETH transfer failed" ;;
  if 0 <? hackathonId
  then emit (PrizeDistributed hackathonId recipient amount)
  else ret tt.

(** The three branches of [distributePrizes] after its [require]s; the
    result is [totalDistributed].  Each [hackathon.winners[i]] is read
    from storage when its transfer is made. *)
Definition pay_three (hackathonId : N) : M N :=
  hackathon <- read hackathonId ;;
  t50 <- checked (checked_mul (totalFunding hackathon) 50) ;;
  let prizeAmount1 := t50 / 100 in
  t30 <- checked (checked_mul (totalFunding hackathon) 30) ;;
  let prizeAmount2 := t30 / 100 in
  r1 <- checked (checked_sub (totalFunding hackathon) prizeAmount1) ;;
  prizeAmount3 <- checked (checked_sub r1 prizeAmount2) ;;
  h <- read hackathonId ;; w0 <- winner_at h 0 ;;
  _safeTransfer w0 prizeAmount1 hackathonId ;;
  totalDistributed <- checked (checked_add 0 prizeAmount1) ;;
  h <- read hackathonId ;; w1 <- winner_at h 1 ;;
  _safeTransfer w1 prizeAmount2 hackathonId ;;
  totalDistributed <- checked (checked_add totalDistributed prizeAmount2) ;;
  h <- read hackathonId ;; w2 <- winner_at h 2 ;;
  _safeTransfer w2 prizeAmount3 hackathonId ;;
  checked (checked_add totalDistributed prizeAmount3).

Definition pay_two (hackathonId : N) : M N :=
  hackathon <- read hackathonId ;;
  t70 <- checked (checked_mul (totalFunding hackathon) 70) ;;
  let prizeAmount1 := t70 / 100 in
  prizeAmount2 <- checked (checked_sub (totalFunding hackathon) prizeAmount1) ;;
  h <- read hackathonId ;; w0 <- winner_at h 0 ;;
  _safeTransfer w0 prizeAmount1 hackathonId ;;
  totalDistributed <- checked (checked_add 0 prizeAmount1) ;;
  h <- read hackathonId ;; w1 <- winner_at h 1 ;;
  _safeTransfer w1 prizeAmount2 hackathonId ;;
  checked (checked_add totalDistributed prizeAmount2).

Definition pay_one (hackathonId : N) : M N :=
  hackathon <- read hackathonId ;;
  let prizeAmount := totalFunding hackathon in
  h <- read hackathonId ;; w0 <- winner_at h 0 ;;
  _safeTransfer w0 prizeAmount hackathonId ;;
  checked (checked_add 0 prizeAmount).

(** The [if]/[else if]/[else] on [hackathon.winners.length]. *)
Definition pay_winners (n : nat) (hackathonId : N) : M N :=
  if Nat.eqb n 3 then pay_three hackathonId
  else if Nat.eqb n 2 then pay_two hackathonId
  else pay_one hackathonId.

Definition distributePrizes (m : Msg) (hackathonId : N) : M unit :=
  onlyOrganizer m (whenNotPaused (nonReentrant (hackathonExists hackathonId (
    hackathon <- read hackathonId ;;
    require (isFunded hackathon) "Hackathon must be funded" ;;
    require (0 <? length (winners hackathon))%nat "Winners not set" ;;
    require (negb (prizesDistributed hackathon)) "Prizes already distributed" ;;
    require (isEnded hackathon) "Hackathon must be ended" ;;
    s <- get ;;
    require (totalFunding hackathon <=? balance s) "Insufficient contract balance" ;;
    totalDistributed <- pay_winners (length (winners hackathon)) hackathonId ;;
    hackathon <- read hackathonId ;;
    require (totalDistributed =? totalFunding hackathon) "Distribution mismatch" ;;
    write hackathonId (set_prizesDistributed true) ;;
    _removeActiveHackathon hackathonId)))).

Definition withdraw (m : Msg) : M unit :=
  onlyOrganizer m (whenNotPaused (nonReentrant (
    s <- get ;;
    require (Nat.eqb (length (activeHackathons (storage s))) 0)
            "Cannot withdraw while prizes are pending" ;;
    let bal := balance s in
    require (0 <? bal) "No funds to withdraw" ;;
    _safeTransfer (organizer (storage s)) bal 0 ;;
    emit (Withdrawn (organizer (storage s)) bal)))).

Definition dispatch (m : Msg) (c : Call) : M unit :=
  match c with
  | FundHackathon hackathonId => fundHackathon m hackathonId
  | SetWinners hackathonId ws => setWinners m hackathonId ws
  | DistributePrizes hackathonId => distributePrizes m hackathonId
  | EndHackathon hackathonId => endHackathon m hackathonId
  | Withdraw => withdraw m
  | Pause => pause m
  | Unpause => unpause m
  | Receive => ret tt
  end.

(** One message call into the contract. *)
Definition execute (m : Msg) (c : Call) (s : State) : Result State :=
  match (require (payable c || (msg_value m =? 0)) "non-payable" ;; dispatch m c)
          (credit (msg_value m) s) with
  | Ok (_, s') => Ok s'
  | Revert r => Revert r
  end.

End Frame.

(** *** The code of the recipients *)

(** What the code at an address does when it is called with a payment: it
    reverts, or it takes the payment after calling back into the contract,
    any number of times, each time with a message of its choice (the sender
    is the account the call back comes from, the recipient itself or one it
    goes through; the value is what the call back attaches).  A payment to
    the contract's own address is the reply that calls [receive] back with
    the amount. *)
Inductive Reply :=
| Refuse
| Take (reentry : list (Msg * Call)).

(** The reply may depend on the recipient, on the amount and on the state
    of the contract when the call is made. *)
Definition Recipients : Type := address -> N -> State -> Reply.

(** The state a recipient's code starts from: the amount has left the
    balance and the call is on record with the storage as it stands. *)
Definition sent (recipient : address) (amount : N) (s : State) : State :=
  mkState (storage s) (balance s - amount) (events s)
          (calls s ++ [mkExtCall recipient amount (storage s)]).

(** A message call that reverts leaves the state it started from. *)
Definition commit (r : Result State) (s : State) : State :=
  match r with
  | Ok s' => s'
  | Revert _ => s
  end.

(** The calls back of a recipient, run in order; one that reverts is
    undone and the recipient goes on. *)
Definition reenter (enter : Msg -> Call -> State -> Result State)
    (reentry : list (Msg * Call)) (s : State) : State :=
  foldl (fun s1 mc => commit (enter (fst mc) (snd mc) s1) s1) s reentry.

(** The number of nested message calls the EVM allows. *)
Definition call_depth : nat := 1024.

Section WithRecipients.

Variable accepts : Recipients.

(** The low-level call with [depth] frames left: it fails when no frame is
    left, when the balance does not cover the amount or when the recipient
    reverts (whatever the recipient did is then undone); otherwise the
    recipient's calls back run on the contract, one frame deeper. *)
Fixpoint external_call (depth : nat) (recipient : address) (amount : N) : M bool :=
  match depth with
  | O => ret false
  | S frames =>
    fun s =>
      if amount <=? balance s then
        match accepts recipient amount s with
        | Refuse => Ok (false, s)
        | Take reentry =>
            Ok (true, reenter (execute (external_call frames)) reentry
                        (sent recipient amount s))
        end
      else Ok (false, s)
  end.

(** A transaction: a message call from outside, with all frames left. *)
Definition run (m : Msg) (c : Call) (s : State) : Result State :=
  execute (external_call call_depth) m c s.

(** A reverted transaction leaves the state it started from. *)
Definition transact (m : Msg) (c : Call) (s : State) : State :=
  match run m c s with
  | Ok s' => s'
  | Revert _ => s
  end.

Definition succeeds (m : Msg) (c : Call) (s : State) : Prop :=
  exists s', run m c s = Ok s'.

End WithRecipients.

(** The state the constructor leaves: the deployer is the organizer. *)
Definition deployed (deployer : address) : State :=
  mkState (mkStorage deployer ∅ [] false NOT_ENTERED) 0 [] [].

(** States reachable from deployment by any sequence of transactions,
    whatever the recipients do. *)
Inductive reachable : State -> Prop :=
| reach_deployed deployer : reachable (deployed deployer)
| reach_step s accepts m c : reachable s -> reachable (transact accepts m c s).

(** *** Observations on a run *)

(** Who was paid how much, from a list of external calls. *)
Definition paid (cs : list ExtCall) : list (address * N) :=
  map (fun c => (call_recipient c, call_amount c)) cs.

Definition total (amounts : list N) : N := foldr N.add 0 amounts.

(** The [PrizeDistributed] events [_safeTransfer] emits for a list of
    payments made on behalf of [hackathonId]. *)
Definition prize_events (hackathonId : N) (cs : list ExtCall) : list Event :=
  if 0 <? hackathonId
  then map (fun c => PrizeDistributed hackathonId (call_recipient c) (call_amount c)) cs
  else [].

Definition is_prize (e : Event) : bool :=
  match e with
  | PrizeDistributed _ _ _ => true
  | _ => false
  end.

(** The prize amounts [distributePrizes] computes for [n] winners, in the
    order it pays them. *)
Definition prize_amounts (n : nat) (tf : N) : list N :=
  if Nat.eqb n 3 then [tf * 50 / 100; tf * 30 / 100; tf - tf * 50 / 100 - tf * 30 / 100]
  else if Nat.eqb n 2 then [tf * 70 / 100; tf - tf * 70 / 100]
  else [tf].

(** The split as the specification words it: one winner takes all; two
    winners take 70% and the remainder; three winners take 50%, 30% and the
    remainder. *)
Definition spec_split (n : nat) (tf : N) : list N :=
  match n with
  | 1%nat => [tf]
  | 2%nat => let first := tf * 70 / 100 in [first; tf - first]
  | 3%nat => let first := tf * 50 / 100 in
             let second := tf * 30 / 100 in
             [first; second; tf - first - second]
  | _ => []
  end.

(** Swap-with-last-and-pop as the specification words it, on an index
    split at the first occurrence of the id. *)
Definition spec_swap_pop (before after : list N) : list N :=
  match after with
  | [] => before
  | x :: rest => before ++ List.last after x :: removelast after
  end.

(** Running a list of transactions in order. *)
Record Tx := mkTx {
  tx_accepts : Recipients;
  tx_msg : Msg;
  tx_call : Call
}.

Definition transact_all (txs : list Tx) (s : State) : State :=
  foldl (fun s t => transact (tx_accepts t) (tx_msg t) (tx_call t) s) s txs.

(** The calls behind the reentrancy guard. *)
Definition guarded (c : Call) : bool :=
  match c with
  | FundHackathon _ | DistributePrizes _ | Withdraw => true
  | _ => false
  end.

(** The state of a guarded function's body: the guard is entered. *)
Definition entered (s : State) : State := set_storage (set_status ENTERED) s.

(** A recipient that takes every payment and calls nothing back. *)
Definition quiet (accepts : Recipients) (recipient : address) : Prop :=
  forall amount s, accepts recipient amount s = Take [].

(** Recipients that call nothing back, whether they take a payment or
    refuse it. *)
Definition silent (accepts : Recipients) : Prop :=
  forall recipient amount s reentry,
    accepts recipient amount s = Take reentry -> reentry = [].

(** *** What calls back can do *)

(** A list [setWinners] takes. *)
Definition valid_winners (ws : list address) : Prop :=
  (1 <= length ws <= 3)%nat /\ Forall (fun w => w <> 0) ws /\ NoDup ws.

(** What the functions outside the guard can make of a record: the
    winners may be replaced on a funded record that is not distributed,
    an existing record may be ended, and nothing else changes. *)
Record evolves (h h' : Hackathon) : Prop := mkEvolves {
  ev_funding : totalFunding h' = totalFunding h;
  ev_funded : isFunded h' = isFunded h;
  ev_distributed : prizesDistributed h' = prizesDistributed h;
  ev_exists : exists_ h' = exists_ h;
  ev_ended : isEnded h = true -> isEnded h' = true;
  ev_ending : isEnded h' = true -> isEnded h = true \/ exists_ h = true;
  ev_winners :
    winners h' = winners h \/
    (exists_ h = true /\ isFunded h = true /\ prizesDistributed h = false /\
     valid_winners (winners h'))
}.

(** What the calls back of a recipient can make of the state while the
    guard is entered: the organizer, the index, the guard and the record
    of external calls stay; the balance does not drop; the records evolve;
    no [PrizeDistributed] is logged. *)
Record reentered (s s' : State) : Prop := mkReentered {
  re_organizer : organizer (storage s') = organizer (storage s);
  re_active : activeHackathons (storage s') = activeHackathons (storage s);
  re_status : _status (storage s') = _status (storage s);
  re_calls : calls s' = calls s;
  re_balance : balance s <= balance s';
  re_records : forall id,
    evolves (hackathons (storage s) !!! id) (hackathons (storage s') !!! id);
  re_events : exists evs,
    events s' = events s ++ evs /\ Forall (fun e => is_prize e = false) evs
}.

(** The state after the event of a payment made for [id]. *)
Definition logged (id : N) (recipient : address) (amount : N) (s : State) : State :=
  mkState (storage s) (balance s)
          (events s ++ prize_events id [mkExtCall recipient amount (storage s)])
          (calls s).

(** The payments of a distribution for [id], from the winner at index [i]
    on: each goes to the address the list holds at its index when its turn
    comes, out of a balance that covers it, and is followed by what the
    recipient's calls back made of the state. *)
Inductive paying (id : N) : nat -> State -> list ExtCall -> State -> Prop :=
| paying_done i s : paying id i s [] s
| paying_next i s r amt s1 cs s2 :
    winners (hackathons (storage s) !!! id) !! i = Some r ->
    amt <= balance s ->
    reentered (sent r amt s) s1 ->
    paying id (S i) (logged id r amt s1) cs s2 ->
    paying id i s (mkExtCall r amt (storage s) :: cs) s2.

(** The invariant of the states between transactions. *)
Record invariant (s : State) : Prop := mkInvariant {
  inv_status : _status (storage s) = NOT_ENTERED;
  inv_nodup : NoDup (activeHackathons (storage s));
  inv_active : forall id,
    id ∈ activeHackathons (storage s) <->
    isFunded (hackathons (storage s) !!! id) = true /\
    prizesDistributed (hackathons (storage s) !!! id) = false;
  inv_winners : forall id,
    (length (winners (hackathons (storage s) !!! id)) <= 3)%nat;
  inv_distributed : forall id,
    prizesDistributed (hackathons (storage s) !!! id) = true ->
    isFunded (hackathons (storage s) !!! id) = true /\
    isEnded (hackathons (storage s) !!! id) = true /\
    winners (hackathons (storage s) !!! id) <> []
}.

End Ledger.

(** ** The settlement orchestrator *)

(** The four settlement handlers of [server.js].  A handler is a
    computation over the projection table and a trace of the effects it
    performed; an awaited promise that rejects is an exception, caught by
    the handler's [try]/[catch].  What the database, the ledger client and
    the clock answer is given by an environment [Env]. *)

Module Orchestrator.

(** A row of table [hackathons], restricted to the columns the settlement
    handlers read or write.  [Number] is the type of JavaScript numbers. *)
Record Row (Number : Type) := mkRow {
  organizer_id : Z;
  status : string;
  manually_ended : bool;
  manually_ended_at : option string;
  funded_amount : option Number;
  funded_at : option string;
  winners : option (list string);
  prizes_distributed : bool;
  prizes_distributed_at : option string
}.
Arguments mkRow {Number}.
Arguments organizer_id {Number}.
Arguments status {Number}.
Arguments manually_ended {Number}.
Arguments manually_ended_at {Number}.
Arguments funded_amount {Number}.
Arguments funded_at {Number}.
Arguments winners {Number}.
Arguments prizes_distributed {Number}.
Arguments prizes_distributed_at {Number}.

(** The ledger operation a handler submits. *)
Inductive LedgerOp :=
| OpEnd (id : Z)
| OpFund (id : Z) (amountWei : N)
| OpSetWinners (id : Z) (winnerAddresses : list string)
| OpDistribute (id : Z).

(** The effects a handler performs, in order, each with its outcome. *)
Inductive Effect :=
| DbSelect (id : Z) (ok : bool)
| LedgerSubmit (op : LedgerOp) (ok : bool)
| LedgerWait (hash : string) (ok : bool)
| DbUpdate (id : Z) (ok : bool).

Inductive Response :=
| Error (code : nat) (error : string)
| Success (message transactionHash : string).

Record User := mkUser { user_id : Z; role : string }.

(** A request: [req.params.id] ([None] when it is not a number),
    [req.user], [req.body.amount] as its [toString()] ([None] when absent)
    and [req.body.winners] ([None] when absent or not an array). *)
Record Request := mkRequest {
  params_id : option Z;
  user : User;
  body_amount : option string;
  body_winners : option (list string)
}.

(** What the collaborators answer: whether the SELECT and the UPDATE
    reject, what submitting an operation gives (a transaction hash, or an
    error message), what waiting for a hash gives ([None]: confirmed;
    [Some e]: rejected with [e], a timeout included) and the clock. *)
Record Env := mkEnv {
  select_error : option string;
  submit : LedgerOp -> string + string;
  wait : string -> option string;
  update_error : option string;
  now : string
}.

Section Handlers.

Context {Number : Type}.
(** [x > 0], [x <= 0] and [!x] on JavaScript numbers. *)
Variable gt0 le0 falsy : Number -> bool.
Variable parseFloat : string -> Number.
(** [ethers.parseEther]: [None] when it throws. *)
Variable parseEther : string -> option N.
Variable isAddress : string -> bool.

Variable env : Env.

Record World := mkWorld {
  db : gmap Z (Row Number);
  trace : list Effect
}.

(** The result of a step of a handler: a value, an early
    [return res.status(..).json(..)], or a thrown error. *)
Inductive Out (A : Type) : Type :=
| Val (a : A)
| Return (r : Response)
| Throw (error : string).
Arguments Val {A} a.
Arguments Return {A} r.
Arguments Throw {A} error.

Definition H (A : Type) : Type := World -> Out A * World.

Definition ret {A} (a : A) : H A := fun w => (Val a, w).

Definition bind {A B} (m : H A) (k : A -> H B) : H B :=
  fun w => match m w with
           | (Val a, w') => k a w'
           | (Return r, w') => (Return r, w')
           | (Throw e, w') => (Throw e, w')
           end.

#[local] Notation "x <- c ;; k" := (bind c (fun x => k))
  (at level 20, c at level 99, k at level 200, only parsing).
#[local] Notation "c ;; k" := (bind c (fun _ => k))
  (at level 100, k at level 200, right associativity, only parsing).

Definition respond {A} (r : Response) : H A := fun w => (Return r, w).

Definition throw {A} (e : string) : H A := fun w => (Throw e, w).

Definition log (e : Effect) : H unit :=
  fun w => (Val tt, mkWorld (db w) (trace w ++ [e])).

(** [if (c) return res.status(code).json({ error })] *)
Definition reject_if (c : bool) (code : nat) (error : string) : H unit :=
  if c then respond (Error code error) else ret tt.

(** [try { body } catch (error) { handler }]: the response of the handler. *)
Definition try_catch (body : H Response) (handler : string -> Response)
  : World -> Response * World :=
  fun w => match body w with
           | (Val r, w') => (r, w')
           | (Return r, w') => (r, w')
           | (Throw e, w') => (handler e, w')
           end.

(** [await pool.query('SELECT * FROM hackathons WHERE id = $1', [id])] and
    [rows[0]]; a parameter that is not a number is refused by the
    database. *)
Definition select_hackathon (id : option Z) : H (option (Row Number)) :=
  match id with
  | None => throw "invalid input syntax for type integer"
  | Some i =>
    match select_error env with
    | Some e => log (DbSelect i false) ;; throw e
    | None => log (DbSelect i true) ;; fun w => (Val (db w !! i), w)
    end
  end.

(** [await pool.query('UPDATE hackathons SET .. WHERE id = ..')] *)
Definition update_hackathon (id : Z) (f : Row Number -> Row Number) : H unit :=
  match update_error env with
  | Some e => log (DbUpdate id false) ;; throw e
  | None =>
    log (DbUpdate id true) ;;
    fun w => (Val tt, mkWorld (alter f id (db w)) (trace w))
  end.

(** [await contract.f(..)]: the hash of the submitted transaction. *)
Definition contract_call (op : LedgerOp) : H string :=
  match submit env op with
  | inl hash => log (LedgerSubmit op true) ;; ret hash
  | inr e => log (LedgerSubmit op false) ;; throw e
  end.

(** [await tx.wait()] *)
Definition tx_wait (hash : string) : H unit :=
  match wait env hash with
  | None => log (LedgerWait hash true)
  | Some e => log (LedgerWait hash false) ;; throw e
  end.

(** The id a ledger call and an UPDATE receive once the SELECT has found
    the row. *)
Definition the_id (id : option Z) : Z := default 0%Z id.

Definition is_organizer (req : Request) : bool := String.eqb (role (user req)) "organizer".

(** POST /api/hackathons/:id/end *)
Definition end_handler (req : Request) : World -> Response * World :=
  match params_id req with
  | None => fun w => (Error 400 "Invalid hackathon ID", w)
  | Some id =>
    if negb (is_organizer req)
    then fun w => (Error 403 "Only organizers can end hackathons", w)
    else try_catch (
      hackathonResult <- select_hackathon (Some id) ;;
      match hackathonResult with
      | None => respond (Error 404 "Hackathon not found")
      | Some hackathon =>
        reject_if (negb (organizer_id hackathon =? user_id (user req))%Z) 403
                  "Only the hackathon organizer can end it" ;;
        reject_if (manually_ended hackathon) 400 "Hackathon has already been ended" ;;
        endTx <- contract_call (OpEnd id) ;;
        tx_wait endTx ;;
        update_hackathon id (fun r =>
          mkRow (organizer_id r) "ended" true (Some (now env)) (funded_amount r)
                (funded_at r) (winners r) (prizes_distributed r)
                (prizes_distributed_at r)) ;;
        ret (Success "Hackathon ended successfully" endTx)
      end)
      (fun error => Error 500 ("Failed to end hackathon: " ++ error)%string)
  end.

(** POST /api/hackathons/:id/fund *)
Definition fund_handler (req : Request) : World -> Response * World :=
  if negb (is_organizer req)
  then fun w => (Error 403 "Only organizers can fund hackathons", w)
  else try_catch (
    hackathonResult <- select_hackathon (params_id req) ;;
    match hackathonResult with
    | None => respond (Error 404 "Hackathon not found")
    | Some hackathon =>
      reject_if (negb (organizer_id hackathon =? user_id (user req))%Z) 403
                "Only the hackathon organizer can fund it" ;;
      reject_if (negb (manually_ended hackathon)) 400
                "Hackathon must be ended before funding" ;;
      reject_if (from_option gt0 false (funded_amount hackathon)) 400
                "Hackathon is already funded" ;;
      amount <- match body_amount req with
                | Some a => ret a
                | None => throw "Cannot read properties of undefined"
                end ;;
      amountWei <- match parseEther amount with
                   | Some v => ret v
                   | None => throw "invalid FixedNumber string value"
                   end ;;
      tx <- contract_call (OpFund (the_id (params_id req)) amountWei) ;;
      tx_wait tx ;;
      update_hackathon (the_id (params_id req)) (fun r =>
        mkRow (organizer_id r) (status r) (manually_ended r) (manually_ended_at r)
              (Some (parseFloat amount)) (Some (now env)) (winners r)
              (prizes_distributed r) (prizes_distributed_at r)) ;;
      ret (Success "Hackathon funded successfully" tx)
    end)
    (fun error => Error 500 ("Failed to fund hackathon: " ++ error)%string).

(** [winners.map(w => { if (!ethers.isAddress(w)) throw ..; return w })] *)
Fixpoint check_addresses (ws : list string) : H (list string) :=
  match ws with
  | [] => ret []
  | w :: rest =>
    (if isAddress w then ret tt
     else throw ("Invalid Ethereum address: " ++ w)%string) ;;
    rest' <- check_addresses rest ;;
    ret (w :: rest')
  end.

(** POST /api/hackathons/:id/set-winners *)
Definition set_winners_handler (req : Request) : World -> Response * World :=
  match params_id req with
  | None => fun w => (Error 400 "Invalid hackathon ID", w)
  | Some id =>
    if negb (is_organizer req)
    then fun w => (Error 403 "Only organizers can set winners", w)
    else
    match body_winners req with
    | None | Some [] => fun w => (Error 400 "Winners array is required", w)
    | Some winners_ =>
      try_catch (
        hackathonResult <- select_hackathon (Some id) ;;
        match hackathonResult with
        | None => respond (Error 404 "Hackathon not found")
        | Some hackathon =>
          reject_if (negb (organizer_id hackathon =? user_id (user req))%Z) 403
                    "Only the hackathon organizer can set winners" ;;
          reject_if (negb (manually_ended hackathon)) 400
                    "Hackathon must be ended before setting winners" ;;
          reject_if (from_option le0 true (funded_amount hackathon)) 400
                    "Hackathon must be funded before setting winners" ;;
          winnerAddresses <- check_addresses winners_ ;;
          setWinnersTx <- contract_call (OpSetWinners id winnerAddresses) ;;
          tx_wait setWinnersTx ;;
          update_hackathon id (fun r =>
            mkRow (organizer_id r) (status r) (manually_ended r) (manually_ended_at r)
                  (funded_amount r) (funded_at r) (Some winnerAddresses)
                  (prizes_distributed r) (prizes_distributed_at r)) ;;
          ret (Success "Winners set successfully" setWinnersTx)
        end)
        (fun error => Error 500 ("Failed to set winners: " ++ error)%string)
    end
  end.

(** POST /api/hackathons/:id/distribute *)
Definition distribute_handler (req : Request) : World -> Response * World :=
  if negb (is_organizer req)
  then fun w => (Error 403 "Only organizers can distribute prizes", w)
  else try_catch (
    hackathonResult <- select_hackathon (params_id req) ;;
    match hackathonResult with
    | None => respond (Error 404 "Hackathon not found")
    | Some hackathon =>
      reject_if (negb (organizer_id hackathon =? user_id (user req))%Z) 403
                "Only the hackathon organizer can distribute prizes" ;;
      reject_if (negb (manually_ended hackathon)) 400
                "Hackathon must be ended before distributing prizes" ;;
      reject_if (from_option (fun x => falsy x || le0 x) true (funded_amount hackathon))
                400 "Hackathon must be funded before distributing prizes" ;;
      reject_if (match winners hackathon with
                 | None | Some [] => true
                 | Some _ => false
                 end) 400
                "Winners must be selected before distributing prizes" ;;
      tx <- contract_call (OpDistribute (the_id (params_id req))) ;;
      tx_wait tx ;;
      update_hackathon (the_id (params_id req)) (fun r =>
        mkRow (organizer_id r) (status r) (manually_ended r) (manually_ended_at r)
              (funded_amount r) (funded_at r) (winners r)
              true (Some (now env))) ;;
      ret (Success "Prizes distributed successfully" tx)
    end)
    (fun error => Error 500 ("Failed to distribute prizes: " ++ error)%string).

(** The settlement commands and their handlers. *)
Inductive Command := End_ | Fund | SetWinners | Distribute.

Definition handler (c : Command) : Request -> World -> Response * World :=
  match c with
  | End_ => end_handler
  | Fund => fund_handler
  | SetWinners => set_winners_handler
  | Distribute => distribute_handler
  end.

End Handlers.

Arguments db {Number}.
Arguments trace {Number}.
Arguments mkWorld {Number}.
Arguments Val {A} a.
Arguments Return {A} r.
Arguments Throw {A} error.

(** A failed submission or a failed confirmation in a trace. *)
Definition ledger_failure (e : Effect) : bool :=
  match e with
  | LedgerSubmit _ false | LedgerWait _ false => true
  | _ => false
  end.

Definition is_error (r : Response) : bool :=
  match r with
  | Error _ _ => true
  | Success _ _ => false
  end.

(** Write-after-confirm on a trace: every UPDATE comes after a submission
    that succeeded and a confirmation of it that succeeded, with no other
    submission in between.  [submitted] and [confirmed] say what the
    effects seen so far established. *)
Fixpoint update_after_confirm (submitted confirmed : bool) (es : list Effect) : bool :=
  match es with
  | [] => true
  | DbSelect _ _ :: es' => update_after_confirm submitted confirmed es'
  | LedgerSubmit _ ok :: es' => update_after_confirm ok false es'
  | LedgerWait _ ok :: es' => update_after_confirm submitted (submitted && ok) es'
  | DbUpdate _ _ :: es' => confirmed && update_after_confirm submitted confirmed es'
  end.

(** The result of running a computation on a world satisfies [Q]. *)
Definition post {Number A} (m : @World Number -> Out A * @World Number)
    (w : @World Number) (Q : Out A -> @World Number -> Prop) : Prop :=
  Q (fst (m w)) (snd (m w)).

(** The response a handler's [try]/[catch] makes of the result of its
    body. *)
Definition response_of (handler : string -> Response) (o : Out Response) : Response :=
  match o with
  | Val r | Return r => r
  | Throw e => handler e
  end.

(** What write-after-confirm asks of one run of a handler that took the
    world from [w] to [w'] and answered [resp]: the effects performed
    respect the order submit, confirm, update; a failed submission or
    confirmation leaves the table unchanged and is answered with status
    500; the table changes only at the end of a run that selected the row,
    submitted, got the confirmation and answered with the transaction
    hash; and an environment in which the ledger never confirms anything
    never changes the table. *)
Definition settled {Number} (env : Env) (w : @World Number) (resp : Response)
    (w' : @World Number) : Prop :=
  exists es,
    trace w' = trace w ++ es /\
    update_after_confirm false false es = true /\
    (existsb ledger_failure es = true ->
     db w' = db w /\ exists e, resp = Error 500 e) /\
    (db w' <> db w ->
     exists id op hash message,
       es = [DbSelect id true; LedgerSubmit op true;
             LedgerWait hash true; DbUpdate id true] /\
       submit env op = inl hash /\ wait env hash = None /\
       resp = Success message hash) /\
    ((forall op, exists e, submit env op = inr e) \/
     (forall hash, exists e, wait env hash = Some e) ->
     db w' = db w /\ is_error resp = true).

End Orchestrator.


(** ** Sample runs *)

Module Examples.

Import Ledger.

(** Recipients that take every payment and call nothing back. *)
Definition accept_all : Recipients := fun _ _ _ => Take [].

(** The organizer, and a caller who is not. *)
Definition alice : address := 7.
Definition mallory : address := 9.

Definition by_alice : Msg := mkMsg alice 0.

(** Hackathon 1 funded with 101 wei, three winners, ended, distributed. *)
Definition funded : State :=
  transact accept_all (mkMsg alice 101) (FundHackathon 1) (deployed alice).
Definition with_winners : State :=
  transact accept_all by_alice (SetWinners 1 [11; 12; 13]) funded.
Definition ended : State :=
  transact accept_all by_alice (EndHackathon 1) with_winners.
Definition distributed : State :=
  transact accept_all by_alice (DistributePrizes 1) ended.

(** The same life cycle for hackathon 0 with 100 wei and two winners. *)
Definition funded0 : State :=
  transact accept_all (mkMsg alice 100) (FundHackathon 0) (deployed alice).
Definition ended0 : State :=
  transact accept_all by_alice (EndHackathon 0)
    (transact accept_all by_alice (SetWinners 0 [11; 12]) funded0).
Definition distributed0 : State :=
  transact accept_all by_alice (DistributePrizes 0) ended0.

(** Hackathon 1 again, with the organizer's own account as first winner. *)
Definition ended_alice : State :=
  transact accept_all by_alice (EndHackathon 1)
    (transact accept_all by_alice (SetWinners 1 [alice; 12; 13]) funded).

(** The organizer's account as a contract that, when it is paid, calls
    [setWinners] for hackathon 1 back with a list of its choice. *)
Definition redirecting (ws : list address) : Recipients :=
  fun recipient _ _ =>
    if recipient =? alice then Take [(by_alice, SetWinners 1 ws)] else Take [].

(** The organizer's account as a contract that, when it is paid, ends
    hackathon 2 and pauses the contract. *)
Definition meddling : Recipients :=
  fun recipient _ _ =>
    if recipient =? alice
    then Take [(by_alice, EndHackathon 2); (by_alice, Pause)]
    else Take [].

(** An account that sends what it is paid straight back through
    [receive], as the contract's own address does. *)
Definition paying_back (who : address) : Recipients :=
  fun recipient amount _ =>
    if recipient =? who then Take [(mkMsg who amount, Receive)] else Take [].

(** The organizer's account as a contract that, when it is paid, tries the
    three functions behind the guard. *)
Definition greedy : Recipients :=
  fun _ _ _ =>
    Take [(by_alice, DistributePrizes 1); (by_alice, Withdraw);
          (mkMsg alice 5, FundHackathon 2)].

(** Hackathon 2 funded with 40 wei beside the ended hackathon 1. *)
Definition ended_and_funded : State :=
  transact accept_all (mkMsg alice 40) (FundHackathon 2) ended_alice.

(** The organizer's account as a contract that, when it is paid, names
    the winners of hackathon 2 and ends it. *)
Definition busy : Recipients :=
  fun recipient _ _ =>
    if recipient =? alice
    then Take [(by_alice, SetWinners 2 [31]); (by_alice, EndHackathon 2)]
    else Take [].

(** The distribution of hackathon 1 beside hackathon 2, with recipients
    that call nothing back and with the organizer's busy account. *)
Definition paid_beside : State :=
  transact accept_all by_alice (DistributePrizes 1) ended_and_funded.
Definition paid_busy : State :=
  transact busy by_alice (DistributePrizes 1) ended_and_funded.

End Examples.

(** ** Views and further invariants of the ledger contract *)

Module LedgerViews.

Import Ledger.

#[local] Notation "x <- c ;; k" := (bind c (fun x => k))
  (at level 20, c at level 99, k at level 200, only parsing).
#[local] Notation "c ;; k" := (bind c (fun _ => k))
  (at level 100, k at level 200, right associativity, only parsing).

(** [getBalance]: a view, it returns [address(this).balance]. *)
Definition getBalance : M N :=
  s <- get ;; ret (balance s).

(** [getWinners], behind [hackathonExists]. *)
Definition getWinners (hackathonId : N) : M (list address) :=
  h <- read hackathonId ;;
  require (exists_ h) "Hackathon does not exist" ;;
  h <- read hackathonId ;;
  ret (winners h).

(** The value a view returns on a state. *)
Definition view {A} (v : M A) (s : State) : Result A :=
  match v s with
  | Ok (a, _) => Ok a
  | Revert r => Revert r
  end.

(** The funds the contract owes to the hackathons of the index. *)
Definition escrow (st : Storage) : N :=
  total (map (fun id => totalFunding (hackathons st !!! id)) (activeHackathons st)).

(** What every record of a state between transactions satisfies. *)
Record lifecycle (s : State) : Prop := mkLifecycle {
  life_exists : forall id,
    exists_ (hackathons (storage s) !!! id) = isFunded (hackathons (storage s) !!! id);
  life_ended : forall id,
    isEnded (hackathons (storage s) !!! id) = true ->
    isFunded (hackathons (storage s) !!! id) = true;
  life_winners : forall id,
    winners (hackathons (storage s) !!! id) <> [] ->
    isFunded (hackathons (storage s) !!! id) = true;
  life_valid : forall id,
    Forall (fun w => w <> 0) (winners (hackathons (storage s) !!! id)) /\
    NoDup (winners (hackathons (storage s) !!! id));
  life_positive : forall id,
    isFunded (hackathons (storage s) !!! id) = true ->
    0 < totalFunding (hackathons (storage s) !!! id);
  life_solvent : escrow (storage s) <= balance s
}.

(** What [lifecycle] says of one record. *)
Definition sound_record (h : Hackathon) : Prop :=
  exists_ h = isFunded h /\
  (isEnded h = true -> isFunded h = true) /\
  (winners h <> [] -> isFunded h = true) /\
  (Forall (fun w => w <> 0) (winners h) /\ NoDup (winners h)) /\
  (isFunded h = true -> 0 < totalFunding h).

(** The calls that pay: the two functions with an external call. *)
Definition pays (c : Call) : bool :=
  match c with
  | DistributePrizes _ | Withdraw => true
  | _ => false
  end.

(** The calls of the organizer's interface: every call but the plain
    payment to [receive]. *)
Definition restricted (c : Call) : bool :=
  match c with
  | Receive => false
  | _ => true
  end.

(** The calls behind [whenNotPaused]. *)
Definition pausable (c : Call) : bool :=
  match c with
  | FundHackathon _ | SetWinners _ _ | DistributePrizes _ | EndHackathon _
  | Withdraw | Pause => true
  | Unpause | Receive => false
  end.

(** The id a call is about, if any. *)
Definition target (c : Call) : option N :=
  match c with
  | FundHackathon id | SetWinners id _ | DistributePrizes id | EndHackathon id => Some id
  | _ => None
  end.

End LedgerViews.

(** ** Observations on a run of a handler *)

Module OrchestratorViews.

Import Orchestrator.

Definition is_submit (e : Effect) : bool :=
  match e with
  | LedgerSubmit _ _ => true
  | _ => false
  end.

Definition is_update (e : Effect) : bool :=
  match e with
  | DbUpdate _ _ => true
  | _ => false
  end.

(** The mirrored columns of a row that a command is there to write; every
    other column is outside its UPDATE. *)
Definition kept_by {Number} (c : Command) (r r' : Row Number) : Prop :=
  organizer_id r' = organizer_id r /\
  (c <> End_ ->
   status r' = status r /\ manually_ended r' = manually_ended r /\
   manually_ended_at r' = manually_ended_at r) /\
  (c <> Fund -> funded_amount r' = funded_amount r /\ funded_at r' = funded_at r) /\
  (c <> SetWinners -> winners r' = winners r) /\
  (c <> Distribute ->
   prizes_distributed r' = prizes_distributed r /\
   prizes_distributed_at r' = prizes_distributed_at r) /\
  (manually_ended r = true -> manually_ended r' = true) /\
  (prizes_distributed r = true -> prizes_distributed r' = true).

(** The row each UPDATE leaves, from the row it finds. *)
Definition ended_row {Number} (now : string) (r : Row Number) : Row Number :=
  mkRow (organizer_id r) "ended" true (Some now) (funded_amount r)
        (funded_at r) (winners r) (prizes_distributed r) (prizes_distributed_at r).

Definition funded_row {Number} (now : string) (amount : Number) (r : Row Number)
  : Row Number :=
  mkRow (organizer_id r) (status r) (manually_ended r) (manually_ended_at r)
        (Some amount) (Some now) (winners r)
        (prizes_distributed r) (prizes_distributed_at r).

Definition winners_row {Number} (ws : list string) (r : Row Number) : Row Number :=
  mkRow (organizer_id r) (status r) (manually_ended r) (manually_ended_at r)
        (funded_amount r) (funded_at r) (Some ws)
        (prizes_distributed r) (prizes_distributed_at r).

Definition distributed_row {Number} (now : string) (r : Row Number) : Row Number :=
  mkRow (organizer_id r) (status r) (manually_ended r) (manually_ended_at r)
        (funded_amount r) (funded_at r) (winners r) true (Some now).

(** The effects of a run that goes through. *)
Definition run_trace (id : Z) (op : LedgerOp) (hash : string) : list Effect :=
  [DbSelect id true; LedgerSubmit op true; LedgerWait hash true; DbUpdate id true].

End OrchestratorViews.
(** ** Sample runs of the handlers *)

Module OrchestratorExamples.

Import Orchestrator.

(** JavaScript numbers are stood for by integers in the samples. *)
Definition gt0 (x : Z) : bool := (0 <? x)%Z.
Definition le0 (x : Z) : bool := (x <=? 0)%Z.
Definition falsy (x : Z) : bool := (x =? 0)%Z.
Definition parseFloat (s : string) : Z := if String.eqb s "2" then 2%Z else 0%Z.
Definition parseEther (s : string) : option N :=
  if String.eqb s "2" then Some (2 * 10 ^ 18) else None.

(** [ethers.isAddress] takes the characters 0x followed by forty
    hexadecimal digits in lower case, and refuses every string of fewer
    than thirty-four characters.  The samples use strings of these two
    kinds only, and on them the stand-in answers as the library does. *)
Definition is_lower_hex (c : Ascii.ascii) : bool :=
  let n := Ascii.nat_of_ascii c in
  ((48 <=? n)%nat && (n <=? 57)%nat) || ((97 <=? n)%nat && (n <=? 102)%nat).
Definition isAddress (s : string) : bool :=
  String.prefix "0x" s && (String.length s =? 42)%nat &&
  forallb is_lower_hex (String.list_ascii_of_string (String.substring 2 40 s)).

Definition address_a : string := "0x00000000000000000000000000000000000000a1".
Definition address_b : string := "0x00000000000000000000000000000000000000b2".

Definition clock : string := "2025-01-01T00:00:00.000Z".

(** A ledger that confirms everything, one whose confirmations time out,
    one that refuses every submission, one that refuses [fundHackathon]
    alone, and a database whose UPDATE fails. *)
Definition env_ok : Env :=
  mkEnv None (fun _ => inl "0xabc") (fun _ => None) None clock.
Definition env_timeout : Env :=
  mkEnv None (fun _ => inl "0xabc") (fun _ => Some "timeout") None clock.
Definition env_refusing : Env :=
  mkEnv None (fun _ => inr "execution reverted") (fun _ => None) None clock.
Definition env_fund_refused : Env :=
  mkEnv None
    (fun op => match op with
               | OpFund _ _ => inr "execution reverted"
               | _ => inl "0xabc"
               end)
    (fun _ => None) None clock.
Definition env_update_down : Env :=
  mkEnv None (fun _ => inl "0xabc") (fun _ => None) (Some "connection lost") clock.

Definition owner : User := mkUser 1 "organizer".
Definition stranger : User := mkUser 3 "organizer".
Definition participant : User := mkUser 2 "user".

Definition request (u : User) (ws : list string) : Request :=
  mkRequest (Some 5%Z) u (Some "2") (Some ws).

(** Hackathon 5, as created, and after its settlement. *)
Definition fresh_row : Row Z :=
  mkRow 1 "active" false None None None None false None.
Definition settled_row : Row Z :=
  mkRow 1 "ended" true (Some clock) (Some 2%Z) (Some clock)
        (Some [address_a; address_b]) true (Some clock).

Definition world (r : Row Z) : World := mkWorld {[ 5%Z := r ]} [].

Abbreviation run_sample env :=
  (handler gt0 le0 falsy parseFloat parseEther isAddress env).

End OrchestratorExamples.

(** ** Listing and participation *)

(** The status shown by [GET /api/hackathons] and [GET /api/hackathons/:id],
    and the handlers of [POST /api/hackathons/:id/join] and
    [POST /api/hackathons/:id/withdraw] of [server.js].  A time is the
    number a JavaScript [Date] holds; a NULL timestamp column reads as
    [None], and [new Date(null)] is the epoch. *)

Module Api.

Definition new_Date (column : option Z) : Z := default 0%Z column.

(** The columns of [hackathons] these handlers read. *)
Record Hackathon := mkHackathon {
  status : string;
  start_date : option Z;
  end_date : option Z;
  manually_ended : bool
}.

(** The status computed for a row at time [now]. *)
Definition shown_status (hackathon : Hackathon) (now : Z) : string :=
  let status := status hackathon in
  if manually_ended hackathon then "ended"
  else
    let startDate := new_Date (start_date hackathon) in
    let endDate := new_Date (end_date hackathon) in
    if (now <? startDate)%Z then "upcoming"
    else if (startDate <=? now)%Z && (now <=? endDate)%Z then "active"
    else "ended".

(** The order of the three phases. *)
Definition phase (status : string) : nat :=
  if String.eqb status "upcoming" then 0
  else if String.eqb status "active" then 1
  else 2.

(** A row of [hackathon_participants]. *)
Record Participant := mkParticipant {
  hackathon_id : Z;
  user_id : Z;
  withdrawn : bool
}.

Record Db := mkDb {
  hackathons : gmap Z Hackathon;
  participants : list Participant
}.

Inductive Response :=
| Error (code : nat) (error : string)
| Message (message : string).

(** A request: [req.params.id] ([None] when it is not a number),
    [req.user.id], [req.user.role], and the time [new Date()] gives. *)
Record Request := mkRequest {
  params_id : option Z;
  requester : Z;
  role : string;
  now : Z
}.

(** An awaited query that rejects: the error carries a code. *)
Record DbError := mkDbError { code : string }.

Section Handlers.

(** [failure k] is the error of the [k]-th query of a run, if it
    rejects. *)
Variable failure : nat -> option DbError.

Inductive Out (A : Type) : Type :=
| Val (a : A)
| Return (r : Response)
| Throw (error : DbError).
Arguments Val {A} a.
Arguments Return {A} r.
Arguments Throw {A} error.

Definition H (A : Type) : Type := Db -> Out A * Db.

Definition ret {A} (a : A) : H A := fun d => (Val a, d).

Definition bind {A B} (m : H A) (k : A -> H B) : H B :=
  fun d => match m d with
           | (Val a, d') => k a d'
           | (Return r, d') => (Return r, d')
           | (Throw e, d') => (Throw e, d')
           end.

#[local] Notation "x <- c ;; k" := (bind c (fun x => k))
  (at level 20, c at level 99, k at level 200, only parsing).
#[local] Notation "c ;; k" := (bind c (fun _ => k))
  (at level 100, k at level 200, right associativity, only parsing).

Definition respond {A} (r : Response) : H A := fun d => (Return r, d).

(** The [k]-th query: it reads or writes the database unless it
    rejects. *)
Definition query {A} (k : nat) (q : Db -> A * Db) : H A :=
  fun d => match failure k with
           | Some e => (Throw e, d)
           | None => let (a, d') := q d in (Val a, d')
           end.

Definition reject_if (c : bool) (code : nat) (error : string) : H unit :=
  if c then respond (Error code error) else ret tt.

Definition try_catch (body : H Response) (handler : DbError -> Response)
  : Db -> Response * Db :=
  fun d => match body d with
           | (Val r, d') => (r, d')
           | (Return r, d') => (r, d')
           | (Throw e, d') => (handler e, d')
           end.

(** [SELECT * FROM hackathons WHERE id = $1] and [rows[0]]; an id that is
    not a number is refused by the database. *)
Definition select_hackathon (k : nat) (id : option Z) : H (option Hackathon) :=
  match id with
  | None => fun d => (Throw (mkDbError "22P02"), d)
  | Some i => query k (fun d => (hackathons d !! i, d))
  end.

Definition matches (user hackathon : Z) (p : Participant) : bool :=
  (user_id p =? user)%Z && (hackathon_id p =? hackathon)%Z.

(** [SELECT * FROM hackathon_participants WHERE user_id = $1 AND
    hackathon_id = $2] *)
Definition select_participant (k : nat) (user hackathon : Z) : H (list Participant) :=
  query k (fun d => (List.filter (matches user hackathon) (participants d), d)).

(** [UPDATE hackathon_participants SET withdrawn = .. WHERE user_id = $1
    AND hackathon_id = $2] *)
Definition update_withdrawn (k : nat) (flag : bool) (user hackathon : Z) : H unit :=
  query k (fun d =>
    (tt, mkDb (hackathons d)
           (map (fun p => if matches user hackathon p
                          then mkParticipant (hackathon_id p) (user_id p) flag
                          else p)
                (participants d)))).

(** [INSERT INTO hackathon_participants (hackathon_id, user_id)]; the
    column [withdrawn] defaults to FALSE. *)
Definition insert_participant (k : nat) (hackathon user : Z) : H unit :=
  query k (fun d =>
    (tt, mkDb (hackathons d) (participants d ++ [mkParticipant hackathon user false]))).

Definition the_id (id : option Z) : Z := default 0%Z id.

(** POST /api/hackathons/:id/join *)
Definition join_handler (req : Request) : Db -> Response * Db :=
  let id := params_id req in
  if negb (String.eqb (role req) "user")
  then fun d => (Error 403 "Only users can join hackathons", d)
  else try_catch (
    hackathonResult <- select_hackathon 0 id ;;
    match hackathonResult with
    | None => respond (Error 404 "Hackathon not found")
    | Some hackathon =>
      let endDate := new_Date (end_date hackathon) in
      reject_if (endDate <? now req)%Z 400 "Hackathon has ended" ;;
      participantResult <- select_participant 1 (requester req) (the_id id) ;;
      match participantResult with
      | participant :: _ =>
        if withdrawn participant then
          update_withdrawn 2 false (requester req) (the_id id) ;;
          respond (Message "Rejoined hackathon successfully")
        else respond (Error 400 "You have already joined this hackathon")
      | [] =>
        insert_participant 2 (the_id id) (requester req) ;;
        ret (Message "Joined hackathon successfully")
      end
    end)
    (fun error =>
       if String.eqb (code error) "23505"
       then Error 400 "You have already joined this hackathon"
       else Error 500 "Failed to join hackathon").

(** POST /api/hackathons/:id/withdraw *)
Definition withdraw_handler (req : Request) : Db -> Response * Db :=
  let id := params_id req in
  if negb (String.eqb (role req) "user")
  then fun d => (Error 403 "Only users can withdraw from hackathons", d)
  else try_catch (
    hackathonResult <- select_hackathon 0 id ;;
    match hackathonResult with
    | None => respond (Error 404 "Hackathon not found")
    | Some hackathon =>
      let endDate := new_Date (end_date hackathon) in
      reject_if (endDate <? now req)%Z 400 "Hackathon has ended" ;;
      participantResult <- select_participant 1 (requester req) (the_id id) ;;
      match participantResult with
      | [] => respond (Error 400 "You are not a participant in this hackathon")
      | participant :: _ =>
        reject_if (withdrawn participant) 400
                  "You have already withdrawn from this hackathon" ;;
        update_withdrawn 2 true (requester req) (the_id id) ;;
        ret (Message "Withdrawn from hackathon successfully")
      end
    end)
    (fun error => Error 500 "Failed to withdraw from hackathon").

End Handlers.

Arguments Val {A} a.
Arguments Return {A} r.
Arguments Throw {A} error.

(** The participants of a hackathon that count: the rows
    [participant_count] counts ([withdrawn = FALSE]). *)
Definition active_in (d : Db) (hackathon : Z) : list Z :=
  map user_id
    (List.filter (fun p => (hackathon_id p =? hackathon)%Z && negb (withdrawn p))
       (participants d)).

(** At most one row for a user in a hackathon. *)
Definition one_row_each (d : Db) : Prop :=
  forall user hackathon,
    (length (List.filter (matches user hackathon) (participants d)) <= 1)%nat.

(** The row an UPDATE of [withdrawn] for a user and a hackathon leaves. *)
Definition set_withdrawn (flag : bool) (user hackathon : Z) (p : Participant)
  : Participant :=
  if matches user hackathon p
  then mkParticipant (hackathon_id p) (user_id p) flag
  else p.

(** What a run of [join_handler] or [withdraw_handler] can have done to
    the database: nothing, the UPDATE of the requester's rows for the
    hackathon, or the INSERT of a row where the requester had none. *)
Inductive written (req : Request) (d : Db) : Db -> Prop :=
| written_nothing : written req d d
| written_flag flag :
    written req d
      (mkDb (hackathons d)
         (map (set_withdrawn flag (requester req) (the_id (params_id req)))
            (participants d)))
| written_row :
    List.filter (matches (requester req) (the_id (params_id req))) (participants d) = [] ->
    written req d
      (mkDb (hackathons d)
         (participants d ++
          [mkParticipant (the_id (params_id req)) (requester req) false])).

(** No query rejects. *)
Definition healthy : nat -> option DbError := fun _ => None.

(** The database with a row for the user in the hackathon added at the
    end of the table, as the INSERT puts it, with the given flag. *)
Definition with_row (d : Db) (hackathon user : Z) (flag : bool) : Db :=
  mkDb (hackathons d) (participants d ++ [mkParticipant hackathon user flag]).

End Api.

(** * Properties of the ledger contract *)

Module LedgerProofs.

Import Ledger.

(** ** Inversion of the execution monad *)

Lemma bind_Ok {A B} (c : M A) (k : A -> M B) s b s' :
  bind c k s = Ok (b, s') -> exists a s1, c s = Ok (a, s1) /\ k a s1 = Ok (b, s').
Proof.
  unfold bind. destruct (c s) as [[a s1]|r]; [eauto | discriminate].
Qed.

Lemma require_Ok b r s u s' : require b r s = Ok (u, s') -> b = true /\ s' = s.
Proof.
  unfold require. destruct b; cbv; intros H; inversion H; auto.
Qed.

Lemma modify_Ok f s u s' : modify f s = Ok (u, s') -> s' = f s.
Proof. unfold modify. intros H; inversion H; auto. Qed.

Lemma checked_mul_Ok a b s v s' :
  checked (checked_mul a b) s = Ok (v, s') -> v = a * b /\ s' = s.
Proof.
  unfold checked, checked_mul.
  destruct (_ <=? _); cbv [ret revert]; intros H; inversion H; auto.
Qed.

Lemma checked_add_Ok a b s v s' :
  checked (checked_add a b) s = Ok (v, s') -> v = a + b /\ s' = s.
Proof.
  unfold checked, checked_add.
  destruct (_ <=? _); cbv [ret revert]; intros H; inversion H; auto.
Qed.

Lemma checked_sub_Ok a b s v s' :
  checked (checked_sub a b) s = Ok (v, s') -> v = a - b /\ b <= a /\ s' = s.
Proof.
  unfold checked, checked_sub.
  destruct (b <=? a) eqn:E; cbv [ret revert]; intros H; inversion H.
  apply N.leb_le in E. auto.
Qed.

Lemma winner_at_Ok h i s w s' :
  winner_at h i s = Ok (w, s') -> winners h !! i = Some w /\ s' = s.
Proof.
  unfold winner_at.
  destruct (winners h !! i); cbv [ret revert]; intros H; inversion H; auto.
Qed.

Ltac inv_M :=
  repeat match goal with
  | H : bind _ _ _ = Ok _ |- _ =>
      let a := fresh "a" in let s1 := fresh "s" in
      let H1 := fresh "H" in let H2 := fresh "H" in
      apply bind_Ok in H; destruct H as (a & s1 & H1 & H2)
  | H : require _ _ _ = Ok _ |- _ => apply require_Ok in H; destruct H as [? ->]
  | H : get _ = Ok _ |- _ => unfold get in H; inversion H; subst; clear H
  | H : read _ _ = Ok _ |- _ => unfold read in H
  | H : ret _ _ = Ok _ |- _ => unfold ret in H; inversion H; subst; clear H
  | H : modify _ _ = Ok _ |- _ => apply modify_Ok in H; subst
  | H : write _ _ _ = Ok _ |- _ => unfold write in H
  | H : emit _ _ = Ok _ |- _ => unfold emit in H
  | H : _removeActiveHackathon _ _ = Ok _ |- _ => unfold _removeActiveHackathon in H
  | H : checked (checked_mul _ _) _ = Ok _ |- _ =>
      apply checked_mul_Ok in H; destruct H as [-> ->]
  | H : checked (checked_add _ _) _ = Ok _ |- _ =>
      apply checked_add_Ok in H; destruct H as [-> ->]
  | H : checked (checked_sub _ _) _ = Ok _ |- _ =>
      apply checked_sub_Ok in H; destruct H as (-> & ? & ->)
  | H : winner_at _ _ _ = Ok _ |- _ =>
      apply winner_at_Ok in H; destruct H as [? ->]
  | H : Ok _ = Ok _ |- _ => inversion H; subst; clear H
  | H : Revert _ = Ok _ |- _ => discriminate H
  | H : revert _ _ = Ok _ |- _ => discriminate H
  end.

Ltac bool_facts :=
  repeat match goal with
  | H : negb _ = true |- _ => apply negb_true_iff in H
  | H : (_ =? _) = true |- _ => apply N.eqb_eq in H
  | H : (_ =? _) = false |- _ => apply N.eqb_neq in H
  | H : (_ <=? _) = true |- _ => apply N.leb_le in H
  | H : (_ <? _) = true |- _ => apply N.ltb_lt in H
  | H : _ && _ = true |- _ => apply andb_prop in H; destruct H
  | H : is_entered ?g = false |- _ =>
      assert (g = NOT_ENTERED) by (destruct g; [reflexivity | discriminate]); clear H
  end.

Lemma state_eta s : mkState (storage s) (balance s) (events s) (calls s) = s.
Proof. destruct s; reflexivity. Qed.

Lemma credit_zero s : credit 0 s = s.
Proof. destruct s. unfold credit. cbn. f_equal. lia. Qed.

(** ** What a successful call does, whatever the frame it runs in *)

Section AnyFrame.

Variable call : address -> N -> M bool.

Lemma execute_Ok m c s s' :
  execute call m c s = Ok s' ->
  (payable c = true \/ msg_value m = 0) /\
  exists u, dispatch call m c (credit (msg_value m) s) = Ok (u, s').
Proof.
  unfold execute. destruct (bind _ _ _) as [[u s1]|] eqn:E; [|discriminate].
  intros H. inversion H; subst; clear H. inv_M.
  split; [|eauto].
  apply orb_prop in H. destruct H as [H|H]; [auto|]. apply N.eqb_eq in H. auto.
Qed.

Lemma execute_cases m c s :
  (exists s', execute call m c s = Ok s') \/ (exists r, execute call m c s = Revert r).
Proof. destruct (execute call m c s); eauto. Qed.

Lemma fund_Ok m id s s' :
  execute call m (FundHackathon id) s = Ok s' ->
  let st := storage s in
  let h := hackathons st !!! id in
  (msg_sender m = organizer st /\ _paused st = false /\ _status st = NOT_ENTERED) /\
  isFunded h = false /\ 0 < msg_value m /\
  s' = mkState
         (mkStorage (organizer st)
            (<[id := mkHackathon (msg_value m) true (prizesDistributed h) (isEnded h)
                       (winners h) true]> (hackathons st))
            (activeHackathons st ++ [id]) (_paused st) NOT_ENTERED)
         (balance s + msg_value m)
         (events s ++ (if exists_ h then [] else [HackathonCreated id])
                   ++ [Funded id (msg_value m)])
         (calls s).
Proof.
  intros H. apply execute_Ok in H. destruct H as (_ & u & H).
  cbn [dispatch] in H.
  unfold fundHackathon, onlyOrganizer, whenNotPaused, nonReentrant in H.
  inv_M.
  match goal with
  | H : (if ?b then _ else _) _ = Ok _ |- _ => destruct b eqn:Ex
  end; inv_M; bool_facts;
  cbn [storage set_storage set_status set_hackathons hackathons credit balance] in *;
  rewrite ?lookup_total_insert_eq in *; cbn [isFunded set_exists] in *;
  (split; [repeat split; auto|]); (split; [assumption|]); (split; [assumption|]);
  unfold set_storage, set_hackathons, set_activeHackathons, set_status, credit; cbn;
  rewrite ?lookup_total_insert_eq, ?insert_insert_eq; cbn.
  - rewrite Ex. cbn. rewrite <- app_assoc. reflexivity.
  - apply negb_false_iff in Ex. unfold set_isFunded, set_totalFunding. cbn.
    rewrite Ex. reflexivity.
Qed.

Lemma check_inner_Ok w rest s u s' :
  check_inner w rest s = Ok (u, s') -> s' = s /\ w ∉ rest.
Proof.
  revert s. induction rest as [|w' rest IH]; intros s H; cbn in H.
  - inv_M. split; [reflexivity | apply not_elem_of_nil].
  - inv_M. bool_facts. apply IH in H1. destruct H1 as [-> Hn].
    split; [reflexivity|]. rewrite not_elem_of_cons. auto.
Qed.

Lemma check_winners_Ok ws s u s' :
  check_winners ws s = Ok (u, s') ->
  s' = s /\ Forall (fun w => w <> 0) ws /\ NoDup ws.
Proof.
  revert s. induction ws as [|w rest IH]; intros s H; cbn in H.
  - inv_M. repeat split; constructor.
  - inv_M. bool_facts.
    match goal with H : check_inner _ _ _ = Ok _ |- _ => apply check_inner_Ok in H; destruct H as [-> Hn] end.
    match goal with H : check_winners _ _ = Ok _ |- _ => apply IH in H; destruct H as (-> & HF & HN) end.
    repeat split; constructor; auto.
Qed.

Lemma check_inner_complete w rest s :
  w ∉ rest -> check_inner w rest s = Ok (tt, s).
Proof.
  induction rest as [|w' rest IH]; intros Hn; cbn.
  - reflexivity.
  - rewrite not_elem_of_cons in Hn. destruct Hn as [Hne Hn].
    unfold bind, require. apply N.eqb_neq in Hne. rewrite Hne. cbn. auto.
Qed.

Lemma check_winners_complete ws s :
  Forall (fun w => w <> 0) ws -> NoDup ws -> check_winners ws s = Ok (tt, s).
Proof.
  induction ws as [|w rest IH]; intros HF HN; cbn.
  - reflexivity.
  - inversion HF; subst. inversion HN; subst.
    unfold bind, require.
    match goal with H : w <> 0 |- _ => apply N.eqb_neq in H; rewrite H end. cbn.
    rewrite check_inner_complete by assumption. auto.
Qed.

Lemma setWinners_Ok m id ws s s' :
  execute call m (SetWinners id ws) s = Ok s' ->
  let st := storage s in
  let h := hackathons st !!! id in
  (msg_sender m = organizer st /\ msg_value m = 0 /\ _paused st = false) /\
  (exists_ h = true /\ isFunded h = true /\ prizesDistributed h = false) /\
  ((1 <= length ws <= 3)%nat /\ Forall (fun w => w <> 0) ws /\ NoDup ws) /\
  s' = mkState
         (mkStorage (organizer st) (<[id := set_winners ws h]> (hackathons st))
            (activeHackathons st) (_paused st) (_status st))
         (balance s) (events s ++ [WinnersSet id ws]) (calls s).
Proof.
  intros H. apply execute_Ok in H. destruct H as ([Hp|Hv] & u & H); [discriminate|].
  rewrite Hv, credit_zero in H. cbn [dispatch] in H.
  unfold setWinners, onlyOrganizer, whenNotPaused, hackathonExists in H.
  inv_M.
  match goal with
  | H : check_winners _ _ = Ok _ |- _ =>
    apply check_winners_Ok in H; destruct H as (-> & HF & HN)
  end.
  inv_M. bool_facts.
  repeat match goal with
  | H : (_ <=? _)%nat = true |- _ => apply Nat.leb_le in H
  end.
  repeat split; auto.
Qed.

Lemma endHackathon_Ok m id s s' :
  execute call m (EndHackathon id) s = Ok s' ->
  let st := storage s in
  let h := hackathons st !!! id in
  (msg_sender m = organizer st /\ msg_value m = 0 /\ _paused st = false) /\
  (exists_ h = true /\ isEnded h = false) /\
  s' = mkState
         (mkStorage (organizer st) (<[id := set_isEnded true h]> (hackathons st))
            (activeHackathons st) (_paused st) (_status st))
         (balance s) (events s ++ [HackathonEnded id]) (calls s).
Proof.
  intros H. apply execute_Ok in H. destruct H as ([Hp|Hv] & u & H); [discriminate|].
  rewrite Hv, credit_zero in H. cbn [dispatch] in H.
  unfold endHackathon, onlyOrganizer, whenNotPaused, hackathonExists in H.
  inv_M. bool_facts. repeat split; auto.
Qed.

Lemma pause_Ok m s s' :
  execute call m Pause s = Ok s' ->
  let st := storage s in
  (msg_sender m = organizer st /\ msg_value m = 0 /\ _paused st = false) /\
  s' = mkState
         (mkStorage (organizer st) (hackathons st) (activeHackathons st) true (_status st))
         (balance s) (events s ++ [Paused (msg_sender m)]) (calls s).
Proof.
  intros H. apply execute_Ok in H. destruct H as ([Hp|Hv] & u & H); [discriminate|].
  rewrite Hv, credit_zero in H. cbn [dispatch] in H.
  unfold pause, onlyOrganizer, whenNotPaused in H.
  inv_M. bool_facts. repeat split; auto.
Qed.

Lemma unpause_Ok m s s' :
  execute call m Unpause s = Ok s' ->
  let st := storage s in
  (msg_sender m = organizer st /\ msg_value m = 0 /\ _paused st = true) /\
  s' = mkState
         (mkStorage (organizer st) (hackathons st) (activeHackathons st) false (_status st))
         (balance s) (events s ++ [Unpaused (msg_sender m)]) (calls s).
Proof.
  intros H. apply execute_Ok in H. destruct H as ([Hp|Hv] & u & H); [discriminate|].
  rewrite Hv, credit_zero in H. cbn [dispatch] in H.
  unfold unpause, onlyOrganizer in H.
  inv_M. bool_facts. repeat split; auto.
Qed.

Lemma receive_Ok m s s' :
  execute call m Receive s = Ok s' -> s' = credit (msg_value m) s.
Proof.
  intros H. apply execute_Ok in H. destruct H as (_ & u & H).
  cbn [dispatch] in H. inv_M. reflexivity.
Qed.

(** A call behind [nonReentrant] reverts on a storage whose guard is
    entered, before anything is paid. *)
Lemma guarded_reverts m c s :
  _status (storage s) = ENTERED -> guarded c = true ->
  exists r, execute call m c s = Revert r.
Proof.
  intros Hst Hg.
  destruct (execute_cases m c s) as [[s' H]|H]; [exfalso|exact H].
  apply execute_Ok in H. destruct H as (_ & u & H).
  destruct c; try discriminate Hg; cbn [dispatch] in H.
  - unfold fundHackathon, onlyOrganizer, whenNotPaused, nonReentrant in H.
    repeat (apply bind_Ok in H; destruct H as (? & ? & ? & H)).
    inv_M. cbn in *. rewrite Hst in *. discriminate.
  - unfold distributePrizes, onlyOrganizer, whenNotPaused, nonReentrant in H.
    repeat (apply bind_Ok in H; destruct H as (? & ? & ? & H)).
    inv_M. cbn in *. rewrite Hst in *. discriminate.
  - unfold withdraw, onlyOrganizer, whenNotPaused, nonReentrant in H.
    repeat (apply bind_Ok in H; destruct H as (? & ? & ? & H)).
    inv_M. cbn in *. rewrite Hst in *. discriminate.
Qed.

End AnyFrame.
(** ** Calls back into the contract *)

Lemma evolves_refl h : evolves h h.
Proof. constructor; auto. Qed.

Lemma evolves_trans h1 h2 h3 : evolves h1 h2 -> evolves h2 h3 -> evolves h1 h3.
Proof.
  intros [F1 G1 D1 X1 E1 N1 W1] [F2 G2 D2 X2 E2 N2 W2].
  constructor; try congruence; auto.
  - intros H. destruct (N2 H) as [H'|H']; [auto | right; congruence].
  - destruct W2 as [W2|(Hx & Hf & Hd & V)].
    + destruct W1 as [W1|(? & ? & ? & V)]; [left; congruence|].
      right. rewrite W2. auto.
    + right. repeat split; try apply V; congruence.
Qed.

Lemma reentered_refl s : reentered s s.
Proof.
  constructor; auto; try lia; try (intros; apply evolves_refl).
  exists []. rewrite app_nil_r. auto.
Qed.

Lemma reentered_trans s1 s2 s3 : reentered s1 s2 -> reentered s2 s3 -> reentered s1 s3.
Proof.
  intros [O1 A1 S1 C1 B1 R1 (e1 & E1 & F1)] [O2 A2 S2 C2 B2 R2 (e2 & E2 & F2)].
  constructor; try congruence.
  - lia.
  - intros id. eapply evolves_trans; [apply R1 | apply R2].
  - exists (e1 ++ e2). rewrite E2, E1, app_assoc. split; [reflexivity|].
    apply Forall_app; auto.
Qed.

Ltac lookup_cases id id' :=
  destruct (decide (id = id')) as [->|?];
  [rewrite ?lookup_total_insert_eq | rewrite ?lookup_total_insert_ne by assumption].

(** One call back, made while the guard is entered: a guarded function
    reverts, the others do what [reentered] allows. *)
Lemma reentered_step call m c s :
  _status (storage s) = ENTERED ->
  reentered s (commit (execute call m c s) s).
Proof.
  intros Hst. destruct (execute call m c s) as [s'|r] eqn:H; cbn [commit];
    [|apply reentered_refl].
  destruct c as [id|id ws|id|id| | | |].
  - destruct (guarded_reverts call m (FundHackathon id) s Hst eq_refl) as [r E]. congruence.
  - apply setWinners_Ok in H. cbv zeta in H.
    destruct H as (_ & (Hx & Hf & Hd) & Hv & ->).
    constructor; cbn; auto; try lia.
    + intros id'. lookup_cases id id'; [|apply evolves_refl].
      constructor; cbn; auto.
    + exists [WinnersSet id ws]. split; [reflexivity|]. repeat constructor.
  - destruct (guarded_reverts call m (DistributePrizes id) s Hst eq_refl) as [r E]. congruence.
  - apply endHackathon_Ok in H. cbv zeta in H. destruct H as (_ & (Hx & He) & ->).
    constructor; cbn; auto; try lia.
    + intros id'. lookup_cases id id'; [|apply evolves_refl].
      constructor; cbn; auto.
    + exists [HackathonEnded id]. split; [reflexivity|]. repeat constructor.
  - destruct (guarded_reverts call m Withdraw s Hst eq_refl) as [r E]. congruence.
  - apply pause_Ok in H. cbv zeta in H. destruct H as (_ & ->).
    constructor; cbn; auto; try lia; try (intros; apply evolves_refl).
    eexists [_]. split; [reflexivity|]. repeat constructor.
  - apply unpause_Ok in H. cbv zeta in H. destruct H as (_ & ->).
    constructor; cbn; auto; try lia; try (intros; apply evolves_refl).
    eexists [_]. split; [reflexivity|]. repeat constructor.
  - apply receive_Ok in H. subst s'.
    constructor; cbn; auto; try lia; try (intros; apply evolves_refl).
    exists []. rewrite app_nil_r. auto.
Qed.

Lemma reenter_reentered call reentry s :
  _status (storage s) = ENTERED ->
  reentered s (reenter (execute call) reentry s).
Proof.
  revert s. induction reentry as [|[m c] l IH]; intros s Hst; [apply reentered_refl|].
  cbn [reenter foldl fst snd].
  pose proof (reentered_step call m c s Hst) as R.
  eapply reentered_trans; [exact R|].
  apply IH. rewrite (re_status _ _ R). exact Hst.
Qed.

(** A call behind the guard, made back while the guard is entered,
    changes nothing. *)
Lemma guarded_undone call m c s :
  _status (storage s) = ENTERED -> guarded c = true ->
  commit (execute call m c s) s = s.
Proof.
  intros Hst Hg. destruct (guarded_reverts call m c s Hst Hg) as [r ->]. reflexivity.
Qed.

(** ** Payments *)

Lemma external_call_Ok accepts depth r amt s b s' :
  external_call accepts depth r amt s = Ok (b, s') ->
  (b = false /\ s' = s) \/
  (b = true /\ amt <= balance s /\
   exists frames reentry,
     depth = S frames /\
     accepts r amt s = Take reentry /\
     s' = reenter (execute (external_call accepts frames)) reentry (sent r amt s)).
Proof.
  destruct depth as [|frames]; cbn [external_call].
  - unfold ret. intros H. inversion H. auto.
  - destruct (amt <=? balance s) eqn:E; [|intros H; inversion H; auto].
    apply N.leb_le in E.
    destruct (accepts r amt s) as [|reentry] eqn:A; intros H; inversion H; [auto|].
    right. split; [reflexivity|]. split; [exact E|]. eauto.
Qed.

Lemma logged_storage id r amt s : storage (logged id r amt s) = storage s.
Proof. reflexivity. Qed.

Lemma safeTransfer_Ok accepts depth r amt id s u s' :
  _safeTransfer (external_call accepts depth) r amt id s = Ok (u, s') ->
  amt <= balance s /\
  exists frames reentry,
    depth = S frames /\
    accepts r amt s = Take reentry /\
    s' = logged id r amt
           (reenter (execute (external_call accepts frames)) reentry (sent r amt s)).
Proof.
  unfold _safeTransfer. intros H.
  apply bind_Ok in H. destruct H as (b & s1 & H & H1).
  apply external_call_Ok in H.
  destruct H as [(-> & ->)|(-> & Hle & frames & reentry & -> & A & ->)].
  - inv_M. discriminate.
  - split; [exact Hle|]. exists frames, reentry. split; [reflexivity|]. split; [exact A|].
    inv_M. unfold logged, prize_events. cbn [map call_recipient call_amount].
    destruct (0 <? id); inv_M; [reflexivity|].
    rewrite app_nil_r. symmetry. apply state_eta.
Qed.

Lemma call_depth_S : call_depth = S (Nat.pred call_depth).
Proof. reflexivity. Qed.

(** A transfer that goes through. *)
Lemma safeTransfer_run accepts frames r amt id s reentry :
  amt <= balance s ->
  accepts r amt s = Take reentry ->
  _safeTransfer (external_call accepts (S frames)) r amt id s
  = Ok (tt, logged id r amt
              (reenter (execute (external_call accepts frames)) reentry (sent r amt s))).
Proof.
  intros Hle Hacc. unfold _safeTransfer, bind. cbn [external_call].
  apply N.leb_le in Hle. rewrite Hle, Hacc. cbn [require ret].
  unfold logged, prize_events, emit, modify, ret. cbn [map call_recipient call_amount].
  destruct (0 <? id); [reflexivity|]. rewrite app_nil_r, state_eta. reflexivity.
Qed.

#[local] Arguments call_depth : simpl never.
#[local] Arguments external_call : simpl never.
#[local] Arguments _safeTransfer : simpl never.

(** A successful transfer made while the guard is entered. *)
Lemma safeTransfer_entered accepts depth r amt id s u s' :
  _status (storage s) = ENTERED ->
  _safeTransfer (external_call accepts depth) r amt id s = Ok (u, s') ->
  amt <= balance s /\
  exists s1, reentered (sent r amt s) s1 /\ s' = logged id r amt s1.
Proof.
  intros Hst H. apply safeTransfer_Ok in H.
  destruct H as (Hle & frames & reentry & _ & _ & ->).
  split; [exact Hle|]. eexists. split; [|reflexivity].
  apply reenter_reentered. exact Hst.
Qed.

Lemma prize_events_app id cs1 cs2 :
  prize_events id (cs1 ++ cs2) = prize_events id cs1 ++ prize_events id cs2.
Proof.
  unfold prize_events. destruct (0 <? id); [apply map_app | reflexivity].
Qed.

Lemma prize_events_cons id x cs :
  prize_events id (x :: cs) = prize_events id [x] ++ prize_events id cs.
Proof. apply (prize_events_app id [x] cs). Qed.

Lemma filter_prize_events id cs :
  List.filter is_prize (prize_events id cs) = prize_events id cs.
Proof.
  unfold prize_events. destruct (0 <? id); [|reflexivity].
  induction cs as [|x cs IH]; [reflexivity|]. cbn. rewrite IH. reflexivity.
Qed.

Lemma filter_no_prize evs :
  Forall (fun e => is_prize e = false) evs -> List.filter is_prize evs = [].
Proof.
  induction 1 as [|e evs He _ IH]; [reflexivity|]. cbn. rewrite He. exact IH.
Qed.

(** What a run of payments adds up to. *)
Lemma paying_sum id i s cs s' :
  paying id i s cs s' ->
  (organizer (storage s') = organizer (storage s) /\
   activeHackathons (storage s') = activeHackathons (storage s) /\
   _status (storage s') = _status (storage s)) /\
  calls s' = calls s ++ cs /\
  balance s <= balance s' + total (map call_amount cs) /\
  (forall id', evolves (hackathons (storage s) !!! id') (hackathons (storage s') !!! id')) /\
  (exists evs, events s' = events s ++ evs /\
               List.filter is_prize evs = prize_events id cs).
Proof.
  induction 1 as [i s|i s r amt s1 cs s2 Hw Hle R P IH].
  - split; [auto|]. split; [symmetry; apply app_nil_r|]. split; [cbn; lia|].
    split; [intros; apply evolves_refl|].
    exists []. rewrite app_nil_r. unfold prize_events. destruct (0 <? id); auto.
  - destruct IH as ((IO & IA & IS) & IC & IB & IR & (evs & IE & IF)).
    destruct R as [O A S C B Rr (e1 & E1 & F1)].
    cbn [logged sent storage balance events calls] in *.
    split; [repeat split; congruence|].
    split; [rewrite IC, C, <- app_assoc; reflexivity|].
    split; [cbn [map call_amount total foldr] in *; unfold total in *; lia|].
    split; [intros id'; eapply evolves_trans; [apply Rr | apply IR]|].
    exists (e1 ++ prize_events id [mkExtCall r amt (storage s1)] ++ evs).
    split.
    + rewrite IE, E1, <- !app_assoc. reflexivity.
    + rewrite !List.filter_app, (filter_no_prize _ F1), IF. cbn [app].
      rewrite filter_prize_events.
      rewrite (prize_events_cons id (mkExtCall r amt (storage s)) cs).
      unfold prize_events. destruct (0 <? id); reflexivity.
Qed.

(** What every payment of a run was made on. *)
Lemma paying_calls id i s cs s' :
  paying id i s cs s' ->
  forall k x, cs !! k = Some x ->
    winners (hackathons (call_storage x) !!! id) !! (i + k)%nat = Some (call_recipient x) /\
    organizer (call_storage x) = organizer (storage s) /\
    activeHackathons (call_storage x) = activeHackathons (storage s) /\
    _status (call_storage x) = _status (storage s) /\
    (forall id', evolves (hackathons (storage s) !!! id') (hackathons (call_storage x) !!! id')).
Proof.
  induction 1 as [i s|i s r amt s1 cs s2 Hw Hle R P IH]; intros k x Hk.
  - rewrite lookup_nil in Hk. discriminate.
  - destruct k as [|k]; cbn in Hk.
    + inversion Hk; subst x. cbn. rewrite Nat.add_0_r.
      do 4 (split; [auto|]). intros; apply evolves_refl.
    + destruct (IH k x Hk) as (W & O & A & S & Rr).
      destruct R as [RO RA RS RC RB RR _].
      cbn [logged sent storage] in *.
      split; [rewrite <- W; f_equal; lia|].
      do 3 (split; [congruence|]).
      intros id'. eapply evolves_trans; [apply RR | apply Rr].
Qed.

Lemma paying_first id i s x cs s' :
  paying id i s (x :: cs) s' -> call_storage x = storage s.
Proof. intros P. inversion P; subst. reflexivity. Qed.

Ltac some_eq :=
  repeat match goal with
  | H : Some _ = Some _ |- _ => inversion H; subst; clear H
  end.

Lemma pay_step accepts depth id i r amt s u s1 cs s2 :
  _status (storage s) = ENTERED ->
  winners (hackathons (storage s) !!! id) !! i = Some r ->
  _safeTransfer (external_call accepts depth) r amt id s = Ok (u, s1) ->
  paying id (S i) s1 cs s2 ->
  paying id i s (mkExtCall r amt (storage s) :: cs) s2 /\
  _status (storage s1) = ENTERED.
Proof.
  intros Hst Hw H P.
  destruct (safeTransfer_entered _ _ _ _ _ _ _ _ Hst H) as (Hle & s0 & R & ->).
  split.
  - eapply paying_next; eauto.
  - cbn. rewrite (re_status _ _ R). exact Hst.
Qed.

Lemma split_three tf :
  tf * 50 / 100 + tf * 30 / 100 + (tf - tf * 50 / 100 - tf * 30 / 100) = tf.
Proof.
  pose proof (N.Div0.mul_div_le (tf * 50) 100).
  pose proof (N.Div0.mul_div_le (tf * 30) 100).
  lia.
Qed.

Lemma split_two tf : tf * 70 / 100 + (tf - tf * 70 / 100) = tf.
Proof. pose proof (N.Div0.mul_div_le (tf * 70) 100). lia. Qed.

Lemma pay_winners_Ok accepts depth id s t s' :
  let h := hackathons (storage s) !!! id in
  _status (storage s) = ENTERED ->
  winners h <> [] ->
  pay_winners (external_call accepts depth) (length (winners h)) id s = Ok (t, s') ->
  exists cs,
    paying id 0 s cs s' /\
    map call_amount cs = prize_amounts (length (winners h)) (totalFunding h) /\
    t = total (map call_amount cs) /\
    t = totalFunding h.
Proof.
  intros h Hst Hne. unfold pay_winners, prize_amounts. subst h.
  destruct (Nat.eqb (length (winners _)) 3) eqn:E3;
    [|destruct (Nat.eqb (length (winners _)) 2) eqn:E2].
  - unfold pay_three. intros H. inv_M.
    match goal with
    | T1 : _safeTransfer _ _ _ _ ?s0 = Ok (_, ?s1),
      T2 : _safeTransfer _ _ _ _ ?s1 = Ok (_, ?s2),
      T3 : _safeTransfer _ _ _ _ ?s2 = Ok (_, ?s3) |- _ =>
      assert (St1 : _status (storage s1) = ENTERED)
        by (destruct (safeTransfer_entered _ _ _ _ _ _ _ _ Hst T1)
              as (_ & ? & R & ->); cbn; rewrite (re_status _ _ R); exact Hst);
      assert (St2 : _status (storage s2) = ENTERED)
        by (destruct (safeTransfer_entered _ _ _ _ _ _ _ _ St1 T2)
              as (_ & ? & R & ->); cbn; rewrite (re_status _ _ R); exact St1);
      pose proof (proj1 (pay_step _ _ _ _ _ _ _ _ _ _ _ St2 ltac:(eassumption) T3
                           (paying_done id 3 s3))) as P3;
      pose proof (proj1 (pay_step _ _ _ _ _ _ _ _ _ _ _ St1 ltac:(eassumption) T2 P3)) as P2;
      pose proof (proj1 (pay_step _ _ _ _ _ _ _ _ _ _ _ Hst ltac:(eassumption) T1 P2)) as P1
    end.
    eexists. split; [exact P1|]. cbn [map call_amount].
    split; [reflexivity|]. split; [cbn; lia|].
    cbn. match goal with
         | |- _ = totalFunding ?h => pose proof (split_three (totalFunding h))
         end. lia.
  - unfold pay_two. intros H. inv_M.
    match goal with
    | T1 : _safeTransfer _ _ _ _ ?s0 = Ok (_, ?s1),
      T2 : _safeTransfer _ _ _ _ ?s1 = Ok (_, ?s2) |- _ =>
      assert (St1 : _status (storage s1) = ENTERED)
        by (destruct (safeTransfer_entered _ _ _ _ _ _ _ _ Hst T1)
              as (_ & ? & R & ->); cbn; rewrite (re_status _ _ R); exact Hst);
      pose proof (proj1 (pay_step _ _ _ _ _ _ _ _ _ _ _ St1 ltac:(eassumption) T2
                           (paying_done id 2 s2))) as P2;
      pose proof (proj1 (pay_step _ _ _ _ _ _ _ _ _ _ _ Hst ltac:(eassumption) T1 P2)) as P1
    end.
    eexists. split; [exact P1|]. cbn [map call_amount].
    split; [reflexivity|]. split; [cbn; lia|].
    cbn. match goal with
         | |- _ = totalFunding ?h => pose proof (split_two (totalFunding h))
         end. lia.
  - unfold pay_one. intros H. inv_M.
    match goal with
    | T1 : _safeTransfer _ _ _ _ ?s0 = Ok (_, ?s1) |- _ =>
      pose proof (proj1 (pay_step _ _ _ _ _ _ _ _ _ _ _ Hst ltac:(eassumption) T1
                           (paying_done id 1 s1))) as P1
    end.
    eexists. split; [exact P1|]. cbn [map call_amount].
    split; [reflexivity|]. split; [cbn; lia|]. cbn. lia.
Qed.
(** ** The two functions that pay *)

Lemma distribute_Ok accepts depth m id s s' :
  execute (external_call accepts depth) m (DistributePrizes id) s = Ok s' ->
  let st := storage s in
  let h := hackathons st !!! id in
  (msg_sender m = organizer st /\ msg_value m = 0 /\
   _paused st = false /\ _status st = NOT_ENTERED) /\
  (exists_ h = true /\ isFunded h = true /\ winners h <> [] /\
   prizesDistributed h = false /\ isEnded h = true /\ totalFunding h <= balance s) /\
  exists cs s1,
    paying id 0 (entered s) cs s1 /\
    map call_amount cs = prize_amounts (length (winners h)) (totalFunding h) /\
    total (map call_amount cs) = totalFunding h /\
    s' = mkState
           (mkStorage (organizer (storage s1))
              (<[id := set_prizesDistributed true (hackathons (storage s1) !!! id)]>
                 (hackathons (storage s1)))
              (removeActive_loop (length (activeHackathons (storage s1))) 0 id
                 (activeHackathons (storage s1)))
              (_paused (storage s1)) NOT_ENTERED)
           (balance s1) (events s1) (calls s1).
Proof.
  intros H. apply execute_Ok in H. destruct H as ([Hp|Hv] & u & H); [discriminate|].
  rewrite Hv, credit_zero in H. cbn [dispatch] in H.
  unfold distributePrizes, onlyOrganizer, whenNotPaused, nonReentrant, hackathonExists in H.
  inv_M.
  match goal with
  | H : pay_winners _ _ _ ?s1 = Ok _ |- _ =>
    assert (Hne : winners (hackathons (storage s1) !!! id) <> [])
      by (intros E; rewrite E in *; discriminate);
    assert (Hst : _status (storage s1) = ENTERED) by reflexivity;
    destruct (pay_winners_Ok _ _ _ _ _ _ Hst Hne H) as (cs & P & Hamt & -> & Ht)
  end.
  cbn [storage set_storage set_status hackathons balance] in *.
  bool_facts.
  split; [|split].
  - repeat split; auto.
  - repeat split; auto.
  - exists cs. eexists. split; [exact P|]. split; [exact Hamt|]. split; [exact Ht|].
    reflexivity.
Qed.

Lemma withdraw_Ok accepts depth m s s' :
  execute (external_call accepts depth) m Withdraw s = Ok s' ->
  let st := storage s in
  (msg_sender m = organizer st /\ msg_value m = 0 /\
   _paused st = false /\ _status st = NOT_ENTERED) /\
  (activeHackathons st = [] /\ 0 < balance s) /\
  exists frames reentry s1,
    depth = S frames /\
    accepts (organizer st) (balance s) (entered s) = Take reentry /\
    s1 = reenter (execute (external_call accepts frames)) reentry
           (sent (organizer st) (balance s) (entered s)) /\
    reentered (sent (organizer st) (balance s) (entered s)) s1 /\
    s' = mkState (set_status NOT_ENTERED (storage s1)) (balance s1)
           (events s1 ++ [Withdrawn (organizer st) (balance s)]) (calls s1).
Proof.
  intros H. apply execute_Ok in H. destruct H as ([Hp|Hv] & u & H); [discriminate|].
  rewrite Hv, credit_zero in H. cbn [dispatch] in H.
  unfold withdraw, onlyOrganizer, whenNotPaused, nonReentrant in H.
  inv_M.
  match goal with
  | H : _safeTransfer _ _ _ _ _ = Ok _ |- _ =>
    apply safeTransfer_Ok in H;
    destruct H as (Hle & frames & reentry & -> & Hacc & ->)
  end.
  inv_M. bool_facts.
  cbn [storage set_storage set_status activeHackathons organizer balance events calls] in *.
  match goal with
  | H : Nat.eqb (length ?l) 0 = true |- _ =>
    apply Nat.eqb_eq in H; apply length_zero_iff_nil in H
  end.
  split; [repeat split; auto|]. split; [split; auto|].
  exists frames, reentry. eexists. split; [reflexivity|].
  split; [exact Hacc|]. split; [reflexivity|].
  split; [apply reenter_reentered; reflexivity|].
  unfold logged, prize_events. cbn. rewrite app_nil_r. reflexivity.
Qed.

(** What a successful distribution leaves, in terms of the state it
    started from. *)
Lemma distribute_effect accepts depth m id s s' :
  execute (external_call accepts depth) m (DistributePrizes id) s = Ok s' ->
  let st := storage s in
  let h := hackathons st !!! id in
  exists cs,
    calls s' = calls s ++ cs /\
    map call_amount cs = prize_amounts (length (winners h)) (totalFunding h) /\
    total (map call_amount cs) = totalFunding h /\
    (organizer (storage s') = organizer st /\ _status (storage s') = NOT_ENTERED /\
     activeHackathons (storage s') =
       removeActive_loop (length (activeHackathons st)) 0 id (activeHackathons st)) /\
    balance s <= balance s' + totalFunding h /\
    (exists h1, evolves h h1 /\
                hackathons (storage s') !!! id = set_prizesDistributed true h1) /\
    (forall id', id' <> id ->
       evolves (hackathons st !!! id') (hackathons (storage s') !!! id')) /\
    (exists evs, events s' = events s ++ evs /\
                 List.filter is_prize evs = prize_events id cs) /\
    (forall k x, cs !! k = Some x ->
       winners (hackathons (call_storage x) !!! id) !! k = Some (call_recipient x) /\
       organizer (call_storage x) = organizer st /\
       activeHackathons (call_storage x) = activeHackathons st /\
       _status (call_storage x) = ENTERED /\
       (forall id', evolves (hackathons st !!! id') (hackathons (call_storage x) !!! id'))) /\
    (forall x, head cs = Some x -> call_storage x = set_status ENTERED st).
Proof.
  intros H. apply distribute_Ok in H. cbv zeta in H.
  destruct H as (_ & _ & cs & s1 & P & Hamt & Ht & ->).
  destruct (paying_sum _ _ _ _ _ P) as ((PO & PA & PS) & PC & PB & PR & PE).
  pose proof (paying_calls _ _ _ _ _ P) as PK.
  cbn [entered set_storage set_status storage balance events calls organizer
       activeHackathons hackathons _status] in *.
  exists cs. cbn [storage balance events calls organizer activeHackathons hackathons _status].
  split; [exact PC|]. split; [exact Hamt|]. split; [exact Ht|].
  split; [rewrite PO, PA; auto|].
  split; [rewrite <- Ht; exact PB|].
  split; [eexists; split; [apply PR | apply lookup_total_insert_eq]|].
  split; [intros id' Hne; rewrite lookup_total_insert_ne by congruence; apply PR|].
  split; [exact PE|]. split.
  - intros k x Hk. destruct (PK k x Hk) as (W & O & A & S & R). auto.
  - intros x Hx. destruct cs as [|y cs]; [discriminate|]. inversion Hx; subst y.
    apply (paying_first _ _ _ _ _ _ P).
Qed.

(** ** The index of active hackathons *)

Lemma lookup_last_default (l : list N) d :
  l <> [] -> l !! (length l - 1)%nat = Some (List.last l d).
Proof.
  induction l as [|x l IH]; [congruence|]. intros _.
  destruct l as [|y l]; [reflexivity|].
  change (List.last (x :: y :: l) d) with (List.last (y :: l) d).
  rewrite <- IH by discriminate. cbn. rewrite Nat.sub_0_r. reflexivity.
Qed.

Lemma last_default_app (pre l : list N) d :
  l <> [] -> List.last (pre ++ l) d = List.last l d.
Proof.
  intros Hl. induction pre as [|x pre IH]; [reflexivity|].
  cbn [app]. destruct (pre ++ l) eqn:E.
  - destruct pre; [cbn in E; congruence | discriminate].
  - exact IH.
Qed.

Lemma removeActive_loop_absent id (pre rest : list N) :
  id ∉ rest ->
  removeActive_loop (length rest) (length pre) id (pre ++ rest) = pre ++ rest.
Proof.
  revert pre. induction rest as [|x rest IH]; intros pre Hn; [reflexivity|].
  rewrite not_elem_of_cons in Hn. destruct Hn as [Hne Hn].
  cbn [removeActive_loop length].
  rewrite lookup_app_r, Nat.sub_diag by lia. cbn [lookup list_lookup].
  assert (E : (x =? id) = false) by (apply N.eqb_neq; congruence). rewrite E.
  specialize (IH (pre ++ [x]) Hn).
  rewrite (length_app pre [x]) in IH. cbn [length] in IH. rewrite Nat.add_1_r in IH.
  rewrite <- app_assoc in IH. exact IH.
Qed.

Lemma removeActive_loop_found id (pre before after : list N) :
  id ∉ before ->
  removeActive_loop (length (before ++ id :: after)) (length pre) id
    (pre ++ before ++ id :: after) = spec_swap_pop (pre ++ before) after.
Proof.
  revert pre. induction before as [|x before IH]; intros pre Hn.
  - rewrite app_nil_r. cbn [app length removeActive_loop].
    rewrite lookup_app_r, Nat.sub_diag by lia. cbn [lookup list_lookup].
    rewrite N.eqb_refl. unfold spec_swap_pop.
    destruct after as [|y after].
    + rewrite length_app. cbn [length]. rewrite Nat.add_sub, Nat.eqb_refl. cbn [negb].
      apply removelast_last.
    + assert (E : Nat.eqb (length pre) (length (pre ++ id :: y :: after) - 1) = false).
      { apply Nat.eqb_neq. rewrite length_app. cbn. lia. }
      rewrite E. cbn [negb].
      assert (L : (pre ++ id :: y :: after) !! (length (pre ++ id :: y :: after) - 1)%nat
                  = Some (List.last (y :: after) y)).
      { rewrite (lookup_last_default _ y) by (destruct pre; discriminate).
        rewrite last_default_app by discriminate.
        reflexivity. }
      rewrite L.
      replace (<[length pre := List.last (y :: after) y]> (pre ++ id :: y :: after))
        with (pre ++ List.last (y :: after) y :: y :: after).
      2:{ rewrite insert_app_r_alt, Nat.sub_diag by lia. reflexivity. }
      rewrite removelast_app by discriminate. reflexivity.
  - rewrite not_elem_of_cons in Hn. destruct Hn as [Hne Hn].
    cbn [app length removeActive_loop].
    rewrite lookup_app_r, Nat.sub_diag by lia. cbn [lookup list_lookup].
    assert (E : (x =? id) = false) by (apply N.eqb_neq; congruence). rewrite E.
    specialize (IH (pre ++ [x]) Hn).
    rewrite (length_app pre [x]) in IH. cbn [length] in IH. rewrite Nat.add_1_r in IH.
    rewrite <- !app_assoc in IH. exact IH.
Qed.

Lemma spec_swap_pop_perm (before after : list N) :
  spec_swap_pop before after ≡ₚ before ++ after.
Proof.
  unfold spec_swap_pop. destruct after as [|y after]; [by rewrite app_nil_r|].
  apply Permutation_app_head.
  rewrite (app_removelast_last (l := y :: after) y) at 3 by discriminate.
  rewrite Permutation_app_comm. reflexivity.
Qed.

Lemma first_occurrence (id : N) (a : list N) :
  id ∈ a -> exists before after, a = before ++ id :: after /\ id ∉ before.
Proof.
  induction a as [|x a IH]; intros Hin.
  - by apply elem_of_nil in Hin.
  - destruct (decide (x = id)) as [->|Hne].
    + exists [], a. split; [reflexivity | apply not_elem_of_nil].
    + apply elem_of_cons in Hin. destruct Hin as [->|Hin]; [congruence|].
      destruct (IH Hin) as (before & after & -> & Hn).
      exists (x :: before), after. split; [reflexivity|].
      rewrite not_elem_of_cons. auto.
Qed.

(** Removal from an index without duplicates removes exactly the id. *)
Lemma removeActive_elem (id : N) (a : list N) :
  NoDup a ->
  let a' := removeActive_loop (length a) 0 id a in
  NoDup a' /\ forall x, x ∈ a' <-> x ∈ a /\ x <> id.
Proof.
  intros HN a'. subst a'. destruct (decide (id ∈ a)) as [Hin|Hn].
  - destruct (first_occurrence id a Hin) as (before & after & -> & Hb).
    pose proof (removeActive_loop_found id [] before after Hb) as R.
    cbn [app length] in R. rewrite R. clear R.
    pose proof (spec_swap_pop_perm before after) as P.
    assert (HN' : NoDup (id :: before ++ after)).
    { eapply NoDup_Permutation_proper; [|exact HN]. 
      apply Permutation_middle. }
    apply NoDup_cons in HN'. destruct HN' as [Hid HN'].
    split.
    + rewrite P. exact HN'.
    + intros x. rewrite P. rewrite !elem_of_app, elem_of_cons.
      split.
      * intros Hx. split; [tauto|]. intros ->. apply Hid. apply elem_of_app. exact Hx.
      * intros [Hx Hne]. tauto.
  - pose proof (removeActive_loop_absent id [] a Hn) as R.
    cbn [app length] in R. rewrite R. clear R.
    split; [exact HN|]. intros x. split; [|tauto].
    intros Hx. split; [exact Hx|]. intros ->. contradiction.
Qed.


(** ** The invariant *)

Lemma transact_cases accepts m c s :
  transact accepts m c s = s \/ run accepts m c s = Ok (transact accepts m c s).
Proof. unfold transact. destruct (run accepts m c s); auto. Qed.

Lemma run_cases accepts m c s :
  (exists s', run accepts m c s = Ok s') \/ (exists r, run accepts m c s = Revert r).
Proof. destruct (run accepts m c s); eauto. Qed.

Lemma transact_revert accepts m c s r :
  run accepts m c s = Revert r -> transact accepts m c s = s.
Proof. unfold transact. intros ->. reflexivity. Qed.

Lemma invariant_deployed deployer : invariant (deployed deployer).
Proof.
  constructor; cbn.
  - reflexivity.
  - constructor.
  - intros id. rewrite lookup_total_empty. cbn. split.
    + intros H. by apply elem_of_nil in H.
    + intros [H _]. discriminate.
  - intros id. rewrite lookup_total_empty. cbn. lia.
  - intros id. rewrite lookup_total_empty. cbn. discriminate.
Qed.

Lemma evolves_length h h' :
  evolves h h' -> (length (winners h) <= 3)%nat -> (length (winners h') <= 3)%nat.
Proof.
  intros E H. destruct (ev_winners _ _ E) as [W|(_ & _ & _ & V)].
  - rewrite W. exact H.
  - destruct V as ((_ & V) & _). exact V.
Qed.

Lemma evolves_nonempty h h' : evolves h h' -> winners h <> [] -> winners h' <> [].
Proof.
  intros E H. destruct (ev_winners _ _ E) as [W|(_ & _ & _ & V)].
  - rewrite W. exact H.
  - destruct V as ((V & _) & _).
    destruct (winners h'); [cbn in V; lia | discriminate].
Qed.

(** The records after calls back still fit the index they were in. *)
Lemma invariant_evolved s s' :
  invariant s ->
  _status (storage s') = NOT_ENTERED ->
  activeHackathons (storage s') = activeHackathons (storage s) ->
  (forall id, evolves (hackathons (storage s) !!! id) (hackathons (storage s') !!! id)) ->
  invariant s'.
Proof.
  intros [Hs Hd Ha Hw Hp] St A R. constructor.
  - exact St.
  - rewrite A. exact Hd.
  - intros id. rewrite A, Ha, (ev_funded _ _ (R id)), (ev_distributed _ _ (R id)).
    reflexivity.
  - intros id. eapply evolves_length; [apply R | apply Hw].
  - intros id. rewrite (ev_distributed _ _ (R id)), (ev_funded _ _ (R id)).
    intros E. destruct (Hp id E) as (E1 & E2 & E3).
    split; [exact E1|]. split; [apply (ev_ended _ _ (R id)); exact E2|].
    eapply evolves_nonempty; [apply R | exact E3].
Qed.

Lemma invariant_step accepts m c s :
  invariant s -> invariant (transact accepts m c s).
Proof.
  intros Hinv. pose proof Hinv as [Hs Hd Ha Hw Hp].
  destruct (transact_cases accepts m c s) as [->|H]; [exact Hinv|].
  revert H. generalize (transact accepts m c s). intros s' H. unfold run in H.
  destruct c as [id|id ws|id|id| | | |].
  - apply fund_Ok in H. cbv zeta in H. destruct H as (_ & Hf & _ & ->).
    constructor; cbn.
    + reflexivity.
    + apply NoDup_app. split; [exact Hd|]. split; [|apply NoDup_singleton].
      intros x Hx Hx'. apply list_elem_of_singleton in Hx'. subst x.
      apply Ha in Hx. destruct Hx as [Hx _]. congruence.
    + intros id'. rewrite elem_of_app, list_elem_of_singleton.
      lookup_cases id id'; cbn.
      * split; [intros _|auto]. split; [reflexivity|].
        destruct (prizesDistributed _) eqn:E; [|reflexivity].
        apply Hp in E. destruct E as [E _]. congruence.
      * rewrite <- Ha. split; [|auto]. intros [?|?]; [assumption | congruence].
    + intros id'. lookup_cases id id'; cbn; apply Hw.
    + intros id'. lookup_cases id id'; cbn; [|apply Hp].
      intros E. destruct (Hp _ E) as (E1 & E2 & E3). auto.
  - apply setWinners_Ok in H. cbv zeta in H.
    destruct H as (_ & (_ & Hf & Hnd) & ((_ & Hlen) & _) & ->).
    constructor; cbn; auto.
    + intros id'. lookup_cases id id'; cbn; apply Ha.
    + intros id'. lookup_cases id id'; cbn; [exact Hlen | apply Hw].
    + intros id'. lookup_cases id id'; cbn; [congruence | apply Hp].
  - pose proof (distribute_Ok _ _ _ _ _ _ H) as Pre. cbv zeta in Pre.
    destruct Pre as (_ & (_ & Hf & Hne & Hnd & He & _) & _).
    apply distribute_effect in H. cbv zeta in H.
    destruct H as (cs & _ & _ & _ & (_ & St & A) & _ & (h1 & E1 & R1) & R & _).
    destruct (removeActive_elem id _ Hd) as [Hd' Hin'].
    constructor.
    + exact St.
    + rewrite A. exact Hd'.
    + intros id'. rewrite A, Hin'. destruct (decide (id' = id)) as [->|Hne'].
      * rewrite R1. cbn. split; [tauto | intros [_ ?]; discriminate].
      * rewrite Ha, (ev_funded _ _ (R id' Hne')), (ev_distributed _ _ (R id' Hne')).
        tauto.
    + intros id'. destruct (decide (id' = id)) as [->|Hne'].
      * rewrite R1. cbn. eapply evolves_length; [exact E1 | apply Hw].
      * eapply evolves_length; [apply (R id' Hne') | apply Hw].
    + intros id'. destruct (decide (id' = id)) as [->|Hne'].
      * rewrite R1. cbn. intros _.
        split; [rewrite (ev_funded _ _ E1); exact Hf|].
        split; [apply (ev_ended _ _ E1); exact He|].
        eapply evolves_nonempty; [exact E1 | exact Hne].
      * rewrite (ev_distributed _ _ (R id' Hne')), (ev_funded _ _ (R id' Hne')).
        intros E. destruct (Hp id' E) as (F1 & F2 & F3).
        split; [exact F1|]. split; [apply (ev_ended _ _ (R id' Hne')); exact F2|].
        eapply evolves_nonempty; [apply (R id' Hne') | exact F3].
  - apply endHackathon_Ok in H. cbv zeta in H. destruct H as (_ & _ & ->).
    constructor; cbn; auto.
    + intros id'. lookup_cases id id'; cbn; apply Ha.
    + intros id'. lookup_cases id id'; cbn; apply Hw.
    + intros id'. lookup_cases id id'; cbn; [|apply Hp].
      intros E. destruct (Hp _ E) as (E1 & E2 & E3). auto.
  - apply withdraw_Ok in H. cbv zeta in H.
    destruct H as (_ & _ & frames & reentry & s1 & _ & _ & _ & R & ->).
    destruct R as [RO RA RS RC RB RR _].
    apply (invariant_evolved s); [exact Hinv | reflexivity | exact RA | exact RR].
  - apply pause_Ok in H. cbv zeta in H. destruct H as (_ & ->).
    constructor; cbn; auto.
  - apply unpause_Ok in H. cbv zeta in H. destruct H as (_ & ->).
    constructor; cbn; auto.
  - apply receive_Ok in H. subst s'. constructor; cbn; auto.
Qed.

Lemma reachable_invariant s : reachable s -> invariant s.
Proof.
  induction 1; [apply invariant_deployed | by apply invariant_step].
Qed.
Import Examples.

(** ** Distribution *)


Lemma prize_amounts_length n tf :
  (1 <= n <= 3)%nat -> length (prize_amounts n tf) = n.
Proof.
  intros [H1 H3]. destruct n as [|[|[|[|n]]]]; try lia; reflexivity.
Qed.




(** The two amounts the specification quotes for three winners. *)
Example spec_split_100 : spec_split 3 100 = [50; 30; 20].
Proof. reflexivity. Qed.

Example spec_split_101 : spec_split 3 101 = [50; 30; 21].
Proof. reflexivity. Qed.

(** The list can be replaced while the distribution runs: when the first
    winner is the organizer's own account and its code calls [setWinners]
    back, the second and third payments go to the new list. *)
Example distribute_redirected :
  winners (hackathons (storage ended_alice) !!! 1) = [alice; 12; 13] /\
  exists s',
    run (redirecting [21; 22; 23]) by_alice (DistributePrizes 1) ended_alice = Ok s' /\
    paid (calls s') = [(alice, 50); (22, 30); (23, 21)] /\
    run (redirecting [21]) by_alice (DistributePrizes 1) ended_alice
      = Revert "Panic(0x32)".
Proof.
  split; [vm_compute; reflexivity|].
  eexists. split; [vm_compute; reflexivity|]. split; vm_compute; reflexivity.
Qed.

Lemma reachable_ended : reachable ended.
Proof.
  unfold ended, with_winners, funded. repeat apply reach_step. apply reach_deployed.
Qed.

(** C8, where the code departs from it: the distribution of hackathon 0
    pays both winners and logs no [PrizeDistributed], because
    [_safeTransfer] takes id 0 for no hackathon, the value [withdraw]
    passes, while [fundHackathon] accepts 0 as an id like any other. *)
Theorem distribute_id0_silent :
  run accept_all by_alice (DistributePrizes 0) ended0 = Ok distributed0 /\
  winners (hackathons (storage ended0) !!! 0) = [11; 12] /\
  paid (drop (length (calls ended0)) (calls distributed0)) = [(11, 70); (12, 30)] /\
  events distributed0 = events ended0.
Proof. vm_compute. repeat split; reflexivity. Qed.

(** ** Preconditions of distribution *)

(** C3: a distribution succeeds only on a record that is funded, has
    winners, is not distributed and is ended, with a balance covering
    [totalFunding]; when one of these fails the call reverts and the
    state is unchanged; an organizer's distribution before the end is
    refused with "Hackathon must be ended". *)
Theorem distribute_preconditions accepts m id s :
  let h := hackathons (storage s) !!! id in
  let pre :=
    isFunded h = true /\ winners h <> [] /\ prizesDistributed h = false /\
    isEnded h = true /\ totalFunding h <= balance s in
  (succeeds accepts m (DistributePrizes id) s -> pre) /\
  (~ pre ->
   (exists r, run accepts m (DistributePrizes id) s = Revert r) /\
   transact accepts m (DistributePrizes id) s = s) /\
  (msg_sender m = organizer (storage s) -> msg_value m = 0 ->
   _paused (storage s) = false -> _status (storage s) = NOT_ENTERED ->
   exists_ h = true -> isFunded h = true -> winners h <> [] ->
   prizesDistributed h = false -> isEnded h = false ->
   run accepts m (DistributePrizes id) s = Revert "Hackathon must be ended").
Proof.
  cbv zeta.
  assert (Hnec : succeeds accepts m (DistributePrizes id) s ->
                 isFunded (hackathons (storage s) !!! id) = true /\
                 winners (hackathons (storage s) !!! id) <> [] /\
                 prizesDistributed (hackathons (storage s) !!! id) = false /\
                 isEnded (hackathons (storage s) !!! id) = true /\
                 totalFunding (hackathons (storage s) !!! id) <= balance s).
  { intros [s' H]. unfold run in H. apply distribute_Ok in H. cbv zeta in H.
    destruct H as (_ & (_ & ? & ? & ? & ? & ?) & _). auto. }
  split; [exact Hnec|]. split.
  - intros Hn. destruct (run_cases accepts m (DistributePrizes id) s) as [[s' H]|[r H]].
    + exfalso. apply Hn, Hnec. exists s'. exact H.
    + split; [eauto | eapply transact_revert; exact H].
  - intros Ho Hv Hp Hst He Hf Hw Hd Hen.
    unfold run, execute. rewrite Hv, credit_zero. cbn [payable orb dispatch].
    unfold distributePrizes, onlyOrganizer, whenNotPaused, nonReentrant, hackathonExists,
      bind, require, get, read, modify, ret.
    cbn. rewrite Ho, N.eqb_refl. cbn. rewrite Hp. cbn. rewrite Hst. cbn.
    rewrite He. cbn. rewrite Hf. cbn.
    destruct (winners _); [congruence|]. cbn. rewrite Hd. cbn. rewrite Hen. reflexivity.
Qed.

Lemma distribute_preconditions_witness :
  run accept_all by_alice (DistributePrizes 1) with_winners
    = Revert "Hackathon must be ended" /\
  transact accept_all by_alice (DistributePrizes 1) with_winners = with_winners.
Proof.
  pose proof (distribute_preconditions accept_all by_alice 1 with_winners) as (_ & H2 & H3).
  split.
  - apply H3; vm_compute; congruence.
  - apply H2. vm_compute. intros (_ & _ & _ & E & _). discriminate E.
Defined.

(** ** Reentrancy *)

(** The payments a successful call makes. *)
Lemma calls_of_run accepts m c s s' :
  run accepts m c s = Ok s' ->
  exists cs,
    calls s' = calls s ++ cs /\
    Forall (fun x =>
              _status (call_storage x) = ENTERED /\
              organizer (call_storage x) = organizer (storage s) /\
              activeHackathons (call_storage x) = activeHackathons (storage s) /\
              forall id, evolves (hackathons (storage s) !!! id)
                                 (hackathons (call_storage x) !!! id)) cs.
Proof.
  intros H. unfold run in H. destruct c.
  - apply fund_Ok in H. cbv zeta in H. destruct H as (_ & _ & _ & ->).
    exists []. cbn. rewrite app_nil_r. auto.
  - apply setWinners_Ok in H. cbv zeta in H. destruct H as (_ & _ & _ & ->).
    exists []. cbn. rewrite app_nil_r. auto.
  - apply distribute_effect in H. cbv zeta in H.
    destruct H as (cs & Hcs & _ & _ & _ & _ & _ & _ & _ & Hk & _).
    exists cs. split; [exact Hcs|]. apply Forall_lookup. intros k x Hx.
    destruct (Hk k x Hx) as (_ & O & A & S & R). auto.
  - apply endHackathon_Ok in H. cbv zeta in H. destruct H as (_ & _ & ->).
    exists []. cbn. rewrite app_nil_r. auto.
  - apply withdraw_Ok in H. cbv zeta in H.
    destruct H as (_ & _ & frames & reentry & s1 & _ & _ & _ & R & ->).
    destruct R as [_ _ _ RC _ _ _]. cbn in *.
    eexists. split; [exact RC|]. apply Forall_singleton. cbn.
    do 3 (split; [reflexivity|]). intros; apply evolves_refl.
  - apply pause_Ok in H. cbv zeta in H. destruct H as (_ & ->).
    exists []. cbn. rewrite app_nil_r. auto.
  - apply unpause_Ok in H. cbv zeta in H. destruct H as (_ & ->).
    exists []. cbn. rewrite app_nil_r. auto.
  - apply receive_Ok in H. subst s'. exists []. cbn. rewrite app_nil_r. auto.
Qed.

(** C2, as the code has it: every external transfer of a successful call
    is made with the reentrancy guard entered, so a call back into a
    guarded function (fund, distribute, withdraw) reverts, at any depth,
    and changes nothing; a distribution fixes its amounts from the state
    it starts on, and sets [prizesDistributed] and touches the index only
    after its transfers. *)
Theorem transfers_under_guard accepts m c s s'
  (Hrun : run accepts m c s = Ok s') :
  exists cs,
    calls s' = calls s ++ cs /\
    Forall (fun x => _status (call_storage x) = ENTERED) cs /\
    (forall x accepts' depth m' c' bal ev cl,
       x ∈ cs -> guarded c' = true ->
       let mid := mkState (call_storage x) bal ev cl in
       (exists r, execute (external_call accepts' depth) m' c' mid = Revert r) /\
       transact accepts' m' c' mid = mid) /\
    (forall id x,
       c = DistributePrizes id -> x ∈ cs ->
       prizesDistributed (hackathons (call_storage x) !!! id) = false /\
       activeHackathons (call_storage x) = activeHackathons (storage s) /\
       prizesDistributed (hackathons (storage s') !!! id) = true) /\
    (forall id,
       c = DistributePrizes id ->
       map call_amount cs =
         prize_amounts (length (winners (hackathons (storage s) !!! id)))
                       (totalFunding (hackathons (storage s) !!! id))).
Proof.
  destruct (calls_of_run _ _ _ _ _ Hrun) as (cs & Hcs & HF).
  exists cs. split; [exact Hcs|].
  rewrite Forall_forall in HF.
  split; [apply Forall_forall; intros x Hx; apply (HF x Hx)|].
  split; [|split].
  - intros x accepts' depth m' c' bal ev cl Hx Hg. cbv zeta.
    destruct (HF x Hx) as (S & _).
    split; [apply guarded_reverts; [exact S | exact Hg]|].
    unfold transact, run.
    destruct (guarded_reverts (external_call accepts' call_depth) m' c'
                (mkState (call_storage x) bal ev cl) S Hg) as [r ->].
    reflexivity.
  - intros id x -> Hx. destruct (HF x Hx) as (_ & _ & A & R).
    unfold run in Hrun.
    pose proof (distribute_Ok _ _ _ _ _ _ Hrun) as Pre. cbv zeta in Pre.
    destruct Pre as (_ & (_ & _ & _ & Hd & _) & _).
    apply distribute_effect in Hrun. cbv zeta in Hrun.
    destruct Hrun as (_ & _ & _ & _ & _ & _ & (h1 & _ & R1) & _).
    rewrite (ev_distributed _ _ (R id)), R1. auto.
  - intros id ->. unfold run in Hrun.
    apply distribute_effect in Hrun. cbv zeta in Hrun.
    destruct Hrun as (cs' & Hcs' & Hamt & _).
    rewrite Hcs in Hcs'. apply app_inv_head in Hcs'. subst cs'. exact Hamt.
Qed.

Lemma transfers_under_guard_witness :
  run accept_all by_alice (DistributePrizes 1) ended = Ok distributed /\
  exists cs,
    calls distributed = calls ended ++ cs /\
    Forall (fun x => _status (call_storage x) = ENTERED) cs.
Proof.
  assert (H : run accept_all by_alice (DistributePrizes 1) ended = Ok distributed)
    by (vm_compute; reflexivity).
  split; [exact H|].
  destruct (transfers_under_guard _ _ _ _ _ H) as (cs & H1 & H2 & _).
  exists cs. split; [exact H1 | exact H2].
Defined.

(** C2 fails as stated: in the distribution of hackathon 1 the first
    winner is called while [prizesDistributed] is still false and the id
    is still in the index, a storage that differs from the committed
    one; and a first winner that is the organizer's own account can use
    the call to replace the winners, which redirects the payments that
    follow. *)
Lemma transfer_before_commit :
  (run accept_all by_alice (DistributePrizes 1) ended = Ok distributed /\
   exists x,
     x ∈ calls distributed /\ call_recipient x = 11 /\
     prizesDistributed (hackathons (call_storage x) !!! 1) = false /\
     activeHackathons (call_storage x) = [1] /\
     prizesDistributed (hackathons (storage distributed) !!! 1) = true /\
     activeHackathons (storage distributed) = []) /\
  (winners (hackathons (storage ended_alice) !!! 1) = [alice; 12; 13] /\
   exists s',
     run (redirecting [21; 22; 23]) by_alice (DistributePrizes 1) ended_alice = Ok s' /\
     paid (calls s') = [(alice, 50); (22, 30); (23, 21)]).
Proof.
  split.
  - split; [vm_compute; reflexivity|].
    exists (mkExtCall 11 50 (set_status ENTERED (storage ended))).
    split; [vm_compute; apply list_elem_of_here|].
    vm_compute. repeat split; reflexivity.
  - split; [vm_compute; reflexivity|].
    eexists. split; vm_compute; reflexivity.
Qed.
(** ** Funding *)

(** One transaction keeps a funded record funded with the same
    [totalFunding], and a distributed record distributed. *)
Lemma step_keeps_funding accepts m c s id :
  let h := hackathons (storage s) !!! id in
  let h' := hackathons (storage (transact accepts m c s)) !!! id in
  (isFunded h = true -> isFunded h' = true /\ totalFunding h' = totalFunding h) /\
  (prizesDistributed h = true -> prizesDistributed h' = true).
Proof.
  cbv zeta.
  destruct (transact_cases accepts m c s) as [->|H]; [auto|].
  revert H. generalize (transact accepts m c s). intros s' H. unfold run in H.
  destruct c as [id'|id' ws|id'|id'| | | |].
  - apply fund_Ok in H. cbv zeta in H. destruct H as (_ & Hf & _ & ->). cbn.
    lookup_cases id' id; cbn; [|auto]. split; [intros E; rewrite Hf in E; discriminate E | auto].
  - apply setWinners_Ok in H. cbv zeta in H. destruct H as (_ & _ & _ & ->). cbn.
    lookup_cases id' id; cbn; auto.
  - apply distribute_effect in H. cbv zeta in H.
    destruct H as (cs & _ & _ & _ & _ & _ & (h1 & E1 & R1) & R & _).
    destruct (decide (id = id')) as [->|Hne].
    + rewrite R1. cbn. rewrite (ev_funded _ _ E1), (ev_funding _ _ E1). auto.
    + pose proof (R id Hne) as E.
      rewrite (ev_funded _ _ E), (ev_funding _ _ E), (ev_distributed _ _ E). auto.
  - apply endHackathon_Ok in H. cbv zeta in H. destruct H as (_ & _ & ->). cbn.
    lookup_cases id' id; cbn; auto.
  - apply withdraw_Ok in H. cbv zeta in H.
    destruct H as (_ & _ & frames & reentry & s1 & _ & _ & _ & R & ->).
    pose proof (re_records _ _ R id) as E. cbn in E |- *.
    rewrite (ev_funded _ _ E), (ev_funding _ _ E), (ev_distributed _ _ E). auto.
  - apply pause_Ok in H. cbv zeta in H. destruct H as (_ & ->). cbn. auto.
  - apply unpause_Ok in H. cbv zeta in H. destruct H as (_ & ->). cbn. auto.
  - apply receive_Ok in H. subst s'. cbn. auto.
Qed.

Lemma transact_all_keeps_funding txs s id :
  let h := hackathons (storage s) !!! id in
  let h' := hackathons (storage (transact_all txs s)) !!! id in
  (isFunded h = true -> isFunded h' = true /\ totalFunding h' = totalFunding h) /\
  (prizesDistributed h = true -> prizesDistributed h' = true).
Proof.
  cbv zeta. revert s. induction txs as [|t txs IH]; intros s; [cbn; auto|].
  change (transact_all (t :: txs) s)
    with (transact_all txs (transact (tx_accepts t) (tx_msg t) (tx_call t) s)).
  destruct (step_keeps_funding (tx_accepts t) (tx_msg t) (tx_call t) s id) as [S1 S2].
  destruct (IH (transact (tx_accepts t) (tx_msg t) (tx_call t) s)) as [I1 I2].
  split.
  - intros Hf. destruct (S1 Hf) as [Hf' Ht]. destruct (I1 Hf') as [Hf'' Ht'].
    split; [exact Hf''|]. rewrite Ht'. exact Ht.
  - auto.
Qed.

(** C4: [totalFunding] is set once.  A successful [fundHackathon] finds the
    record unfunded, carries a positive amount, stores that amount and
    marks the record funded; on a funded record [fundHackathon] reverts and
    changes nothing; and no sequence of transactions changes the
    [totalFunding] of a funded record. *)
Theorem totalFunding_set_once accepts m id s :
  let h := hackathons (storage s) !!! id in
  (forall s', run accepts m (FundHackathon id) s = Ok s' ->
     isFunded h = false /\ 0 < msg_value m /\
     totalFunding (hackathons (storage s') !!! id) = msg_value m /\
     isFunded (hackathons (storage s') !!! id) = true) /\
  (isFunded h = true ->
     (exists r, run accepts m (FundHackathon id) s = Revert r) /\
     transact accepts m (FundHackathon id) s = s) /\
  (isFunded h = true ->
     forall txs,
       isFunded (hackathons (storage (transact_all txs s)) !!! id) = true /\
       totalFunding (hackathons (storage (transact_all txs s)) !!! id) = totalFunding h).
Proof.
  cbv zeta. split; [|split].
  - intros s' H. unfold run in H.
    apply fund_Ok in H. cbv zeta in H. destruct H as (_ & Hf & Hv & ->).
    cbn. rewrite lookup_total_insert_eq. cbn. auto.
  - intros Hf. destruct (run_cases accepts m (FundHackathon id) s) as [[s' H]|[r H]].
    + unfold run in H.
      apply fund_Ok in H. cbv zeta in H. destruct H as (_ & Hf' & _). congruence.
    + split; [eauto | eapply transact_revert; exact H].
  - intros Hf txs. apply (transact_all_keeps_funding txs s id). exact Hf.
Qed.

Lemma totalFunding_set_once_witness :
  (run accept_all (mkMsg alice 101) (FundHackathon 1) (deployed alice) = Ok funded /\
   totalFunding (hackathons (storage funded) !!! 1) = 101) /\
  (isFunded (hackathons (storage funded) !!! 1) = true /\
   transact accept_all (mkMsg alice 5) (FundHackathon 1) funded = funded /\
   totalFunding (hackathons (storage distributed) !!! 1) = 101).
Proof.
  assert (H : run accept_all (mkMsg alice 101) (FundHackathon 1) (deployed alice) = Ok funded)
    by (vm_compute; reflexivity).
  assert (Hf : isFunded (hackathons (storage funded) !!! 1) = true)
    by (vm_compute; reflexivity).
  split.
  - split; [exact H|].
    destruct (totalFunding_set_once accept_all (mkMsg alice 101) 1 (deployed alice))
      as (T & _ & _).
    destruct (T _ H) as (_ & _ & E & _). exact E.
  - split; [exact Hf|].
    destruct (totalFunding_set_once accept_all (mkMsg alice 5) 1 funded) as (_ & T2 & T3).
    split; [exact (proj2 (T2 Hf))|].
    pose proof (proj2 (T3 Hf [mkTx accept_all by_alice (SetWinners 1 [11; 12; 13]);
                              mkTx accept_all by_alice (EndHackathon 1);
                              mkTx accept_all by_alice (DistributePrizes 1)])) as E.
    assert (Ed : transact_all
                   [mkTx accept_all by_alice (SetWinners 1 [11; 12; 13]);
                    mkTx accept_all by_alice (EndHackathon 1);
                    mkTx accept_all by_alice (DistributePrizes 1)] funded = distributed)
      by (vm_compute; reflexivity).
    rewrite Ed in E. rewrite E. vm_compute. reflexivity.
Defined.

(** ** The index of active hackathons, on reachable states *)

(** C5: in every reachable state an id is in [activeHackathons] exactly
    when its record is funded and not distributed; a successful
    [fundHackathon] appends the id, a successful [distributePrizes] removes
    it by swap-with-last-and-pop, and no other call changes the index. *)
Theorem active_index s (Hreach : reachable s) :
  (forall id,
     id ∈ activeHackathons (storage s) <->
     isFunded (hackathons (storage s) !!! id) = true /\
     prizesDistributed (hackathons (storage s) !!! id) = false) /\
  (forall accepts m c s',
     run accepts m c s = Ok s' ->
     match c with
     | FundHackathon id =>
         activeHackathons (storage s') = activeHackathons (storage s) ++ [id]
     | DistributePrizes id =>
         exists before after,
           activeHackathons (storage s) = before ++ id :: after /\
           (id ∉ before) /\
           activeHackathons (storage s') = spec_swap_pop before after
     | _ => activeHackathons (storage s') = activeHackathons (storage s)
     end) /\
  (forall accepts m c r,
     run accepts m c s = Revert r ->
     activeHackathons (storage (transact accepts m c s)) = activeHackathons (storage s)).
Proof.
  pose proof (reachable_invariant s Hreach) as [Hs Hd Ha Hw Hp].
  split; [exact Ha|]. split.
  - intros accepts m c s' H. unfold run in H. destruct c as [id|id ws|id|id| | | |].
    + apply fund_Ok in H. cbv zeta in H. destruct H as (_ & _ & _ & ->). reflexivity.
    + apply setWinners_Ok in H. cbv zeta in H. destruct H as (_ & _ & _ & ->). reflexivity.
    + pose proof (distribute_Ok _ _ _ _ _ _ H) as Pre. cbv zeta in Pre.
      destruct Pre as (_ & (_ & Hf & _ & Hnd & _) & _).
      apply distribute_effect in H. cbv zeta in H.
      destruct H as (cs & _ & _ & _ & (_ & _ & A) & _).
      assert (Hin : id ∈ activeHackathons (storage s)) by (apply Ha; auto).
      destruct (first_occurrence id _ Hin) as (before & after & E & Hb).
      exists before, after. split; [exact E|]. split; [exact Hb|].
      rewrite A, E.
      pose proof (removeActive_loop_found id [] before after Hb) as R.
      cbn [app length] in R. exact R.
    + apply endHackathon_Ok in H. cbv zeta in H. destruct H as (_ & _ & ->). reflexivity.
    + apply withdraw_Ok in H. cbv zeta in H.
      destruct H as (_ & _ & frames & reentry & s1 & _ & _ & _ & R & ->).
      cbn. apply (re_active _ _ R).
    + apply pause_Ok in H. cbv zeta in H. destruct H as (_ & ->). reflexivity.
    + apply unpause_Ok in H. cbv zeta in H. destruct H as (_ & ->). reflexivity.
    + apply receive_Ok in H. subst s'. reflexivity.
  - intros accepts m c r H. rewrite (transact_revert _ _ _ _ _ H). reflexivity.
Qed.

Lemma active_index_witness :
  reachable ended /\
  (1 ∈ activeHackathons (storage ended) <->
   isFunded (hackathons (storage ended) !!! 1) = true /\
   prizesDistributed (hackathons (storage ended) !!! 1) = false) /\
  activeHackathons (storage ended) = [1] /\
  activeHackathons (storage distributed) = [].
Proof.
  split; [exact reachable_ended|].
  split; [exact (proj1 (active_index ended reachable_ended) 1)|].
  split; vm_compute; reflexivity.
Defined.

(** ** Winners *)

(** C6: [setWinners] succeeds only on an existing, funded, undistributed
    record and only for one to three distinct non-zero addresses; it then
    replaces the winners list; under these conditions the organizer's
    call succeeds whatever the list held before; and once prizes are
    distributed every [setWinners] reverts, in that state and in every
    later one. *)
Theorem setWinners_spec accepts m id ws s :
  let h := hackathons (storage s) !!! id in
  let valid :=
    (1 <= length ws <= 3)%nat /\ Forall (fun w => w <> 0) ws /\ NoDup ws in
  (forall s', run accepts m (SetWinners id ws) s = Ok s' ->
     (exists_ h = true /\ isFunded h = true /\ prizesDistributed h = false) /\
     valid /\
     winners (hackathons (storage s') !!! id) = ws) /\
  (msg_sender m = organizer (storage s) -> msg_value m = 0 ->
   _paused (storage s) = false ->
   exists_ h = true -> isFunded h = true -> prizesDistributed h = false ->
   valid ->
   succeeds accepts m (SetWinners id ws) s) /\
  (prizesDistributed h = true ->
   forall txs, exists r,
     run accepts m (SetWinners id ws) (transact_all txs s) = Revert r).
Proof.
  cbv zeta. split; [|split].
  - intros s' H. unfold run in H. apply setWinners_Ok in H. cbv zeta in H.
    destruct H as (_ & He & Hv & ->). split; [exact He|]. split; [exact Hv|].
    cbn. rewrite lookup_total_insert_eq. reflexivity.
  - intros Ho Hv Hp He Hf Hd ((H1 & H3) & HF & HN).
    unfold succeeds, run, execute. rewrite Hv, credit_zero. cbn [payable orb dispatch].
    apply Nat.leb_le in H1, H3. unfold setWinners, address. rewrite H1, H3.
    unfold onlyOrganizer, whenNotPaused, hackathonExists,
      bind, require, get, read, write, emit, modify, ret.
    cbn. rewrite Ho, N.eqb_refl. cbn. rewrite Hp. cbn. rewrite He. cbn.
    rewrite Hf. cbn. rewrite Hd. cbn.
    rewrite (check_winners_complete ws s HF HN). eauto.
  - intros Hd txs.
    destruct (run_cases accepts m (SetWinners id ws) (transact_all txs s)) as [[s' H]|H];
      [exfalso | exact H].
    unfold run in H. apply setWinners_Ok in H. cbv zeta in H.
    destruct H as (_ & (_ & _ & Hnd) & _).
    rewrite (proj2 (transact_all_keeps_funding txs s id) Hd) in Hnd. discriminate.
Qed.

Lemma setWinners_spec_witness :
  succeeds accept_all by_alice (SetWinners 1 [21; 22]) with_winners /\
  (exists r, run accept_all by_alice (SetWinners 1 [21; 22]) distributed = Revert r) /\
  (exists r, run accept_all by_alice (SetWinners 1 [21; 21]) funded = Revert r).
Proof.
  split; [|split].
  - apply (proj1 (proj2 (setWinners_spec accept_all by_alice 1 [21; 22] with_winners)));
      try (vm_compute; reflexivity).
    split; [cbn; lia|]. split.
    + repeat constructor; intros E; discriminate E.
    + apply NoDup_ListNoDup. repeat constructor; cbn; intros E.
      * destruct E as [E|[]]. discriminate E.
      * destruct E.
  - apply (proj2 (proj2 (setWinners_spec accept_all by_alice 1 [21; 22] distributed)) 
             eq_refl []).
  - exists "Duplicate winner address". vm_compute. reflexivity.
Defined.

(** ** Withdrawal *)

(** A call back that carries no value leaves the balance. *)
Lemma reentered_step_balance call m c s :
  _status (storage s) = ENTERED -> msg_value m = 0 ->
  balance (commit (execute call m c s) s) = balance s.
Proof.
  intros Hst Hv. destruct (execute call m c s) as [s'|r] eqn:H; cbn [commit];
    [|reflexivity].
  destruct c as [id|id ws|id|id| | | |].
  - destruct (guarded_reverts call m (FundHackathon id) s Hst eq_refl) as [r E]. congruence.
  - apply setWinners_Ok in H. cbv zeta in H. destruct H as (_ & _ & _ & ->). reflexivity.
  - destruct (guarded_reverts call m (DistributePrizes id) s Hst eq_refl) as [r E]. congruence.
  - apply endHackathon_Ok in H. cbv zeta in H. destruct H as (_ & _ & ->). reflexivity.
  - destruct (guarded_reverts call m Withdraw s Hst eq_refl) as [r E]. congruence.
  - apply pause_Ok in H. cbv zeta in H. destruct H as (_ & ->). reflexivity.
  - apply unpause_Ok in H. cbv zeta in H. destruct H as (_ & ->). reflexivity.
  - apply receive_Ok in H. subst s'. rewrite Hv. cbn. lia.
Qed.

Lemma reenter_balance call reentry s :
  _status (storage s) = ENTERED ->
  Forall (fun mc => msg_value (fst mc) = 0) reentry ->
  balance (reenter (execute call) reentry s) = balance s.
Proof.
  revert s. induction reentry as [|[m c] l IH]; intros s Hst HF; [reflexivity|].
  inversion HF as [|? ? Hv HF']; subst. cbn [fst] in Hv.
  cbn [reenter foldl fst snd].
  pose proof (reentered_step call m c s Hst) as R.
  pose proof (reentered_step_balance call m c s Hst Hv) as B.
  rewrite <- B. apply IH; [|exact HF'].
  rewrite (re_status _ _ R). exact Hst.
Qed.

(** C7, as the code has it: [withdraw] reverts whenever the index is not
    empty; with an empty index and a positive balance, the organizer's
    call on an unpaused contract, taken by the organizer's address,
    succeeds and pays the whole balance to the organizer.  The balance is
    then zero unless the organizer's code sent value back while it was
    paid; when that code calls nothing back, the storage is as before and
    [Withdrawn] is the one event. *)
Theorem withdraw_spec accepts m s :
  (activeHackathons (storage s) <> [] ->
   (exists r, run accepts m Withdraw s = Revert r) /\
   transact accepts m Withdraw s = s) /\
  (activeHackathons (storage s) = [] -> 0 < balance s ->
   msg_sender m = organizer (storage s) -> msg_value m = 0 ->
   _paused (storage s) = false -> _status (storage s) = NOT_ENTERED ->
   forall reentry,
   accepts (organizer (storage s)) (balance s) (entered s) = Take reentry ->
   exists s',
     run accepts m Withdraw s = Ok s' /\
     paid (drop (length (calls s)) (calls s')) = [(organizer (storage s), balance s)] /\
     activeHackathons (storage s') = [] /\
     (Forall (fun mc => msg_value (fst mc) = 0) reentry -> balance s' = 0) /\
     (reentry = [] ->
      events s' = events s ++ [Withdrawn (organizer (storage s)) (balance s)] /\
      storage s' = storage s)).
Proof.
  split.
  - intros Hne. destruct (run_cases accepts m Withdraw s) as [[s' H]|[r H]].
    + unfold run in H. apply withdraw_Ok in H. cbv zeta in H.
      destruct H as (_ & (E & _) & _). congruence.
    + split; [eauto | eapply transact_revert; exact H].
  - intros Ha Hb Ho Hv Hp Hst reentry Hacc.
    assert (R : exists s', run accepts m Withdraw s = Ok s').
    { unfold run, execute. rewrite call_depth_S, Hv, credit_zero.
      cbn [payable orb dispatch].
      unfold withdraw, onlyOrganizer, whenNotPaused, nonReentrant,
        bind, require, get, emit, modify, ret.
      cbn. rewrite Ho, N.eqb_refl. cbn. rewrite Hp. cbn. rewrite Hst. cbn.
      rewrite Ha. cbn. apply N.ltb_lt in Hb. rewrite Hb. cbn.
      erewrite safeTransfer_run; [eauto | cbn; lia | exact Hacc]. }
    destruct R as [s' R]. exists s'. split; [exact R|].
    unfold run in R. apply withdraw_Ok in R. cbv zeta in R.
    destruct R as (_ & _ & frames & reentry' & s1 & _ & Hacc' & Hs1 & Rr & ->).
    rewrite Hacc in Hacc'. inversion Hacc'; subst reentry'. clear Hacc'.
    cbn [storage balance events calls].
    split; [|split; [|split]].
    + rewrite (re_calls _ _ Rr). cbn. rewrite drop_app_length. reflexivity.
    + cbn. rewrite (re_active _ _ Rr). exact Ha.
    + intros HF. rewrite Hs1. rewrite reenter_balance; [|reflexivity | exact HF].
      cbn. lia.
    + intros ->. rewrite Hs1. cbn. split; [reflexivity|].
      unfold set_status. destruct (storage s); cbn in *. congruence.
Qed.

Lemma withdraw_spec_witness :
  (exists r, run accept_all by_alice Withdraw ended = Revert r) /\
  exists s',
    run accept_all by_alice Withdraw (credit 5 distributed) = Ok s' /\
    balance s' = 0 /\
    paid (drop (length (calls (credit 5 distributed))) (calls s')) = [(alice, 5)].
Proof.
  split.
  - apply (proj1 (withdraw_spec accept_all by_alice ended)).
    vm_compute. intros E. discriminate E.
  - destruct (proj2 (withdraw_spec accept_all by_alice (credit 5 distributed)))
      with (reentry := @nil (Msg * Call))
      as (s' & H1 & H2 & _ & H4 & _); try (vm_compute; reflexivity).
    exists s'. split; [exact H1|]. split; [apply H4; constructor | exact H2].
Defined.

(** C7 fails as stated: with an empty index and nothing to withdraw the
    organizer's call reverts; and when the organizer's account is a
    contract that sends what it is paid back to the ledger, the call
    succeeds, pays the whole balance and leaves it where it was. *)
Lemma withdraw_not_as_stated :
  (activeHackathons (storage (deployed alice)) = [] /\
   run accept_all by_alice Withdraw (deployed alice) = Revert "No funds to withdraw" /\
   activeHackathons (storage distributed) = [] /\
   run accept_all by_alice Withdraw distributed = Revert "No funds to withdraw") /\
  (activeHackathons (storage (credit 5 distributed)) = [] /\
   exists s',
     run (paying_back alice) by_alice Withdraw (credit 5 distributed) = Ok s' /\
     paid (drop (length (calls (credit 5 distributed))) (calls s')) = [(alice, 5)] /\
     balance s' = 5).
Proof.
  split; [vm_compute; repeat split; reflexivity|].
  split; [vm_compute; reflexivity|].
  eexists. split; [vm_compute; reflexivity|]. split; vm_compute; reflexivity.
Qed.

(** ** Failed first funding *)

(** C10: when the first [fundHackathon] for an id carries no value, comes
    from another caller or finds the contract paused, the call reverts
    and the state is unchanged: the record still does not exist and no
    event was logged.  For the organizer's call without value the failing
    check is the one on the amount, which comes after the creation of the
    record. *)
Theorem failed_first_fund accepts m id s
  (Hnew : exists_ (hackathons (storage s) !!! id) = false)
  (Hbad : msg_value m = 0 \/ msg_sender m <> organizer (storage s) \/
          _paused (storage s) = true) :
  (exists r, run accepts m (FundHackathon id) s = Revert r) /\
  (let s' := transact accepts m (FundHackathon id) s in
   s' = s /\
   exists_ (hackathons (storage s') !!! id) = false /\
   events s' = events s) /\
  (msg_value m = 0 -> msg_sender m = organizer (storage s) ->
   _paused (storage s) = false -> _status (storage s) = NOT_ENTERED ->
   isFunded (hackathons (storage s) !!! id) = false ->
   run accepts m (FundHackathon id) s = Revert "Must send some ETH").
Proof.
  assert (R : exists r, run accepts m (FundHackathon id) s = Revert r).
  { destruct (run_cases accepts m (FundHackathon id) s) as [[s' H]|H]; [exfalso | exact H].
    unfold run in H.
    apply fund_Ok in H. cbv zeta in H. destruct H as ((Ho & Hp & _) & _ & Hv & _).
    destruct Hbad as [E|[E|E]]; [lia | congruence | congruence]. }
  split; [exact R|]. split.
  - destruct R as [r R]. cbv zeta. rewrite (transact_revert _ _ _ _ _ R). auto.
  - intros Hv Ho Hp Hst Hf.
    unfold run, execute. rewrite Hv, credit_zero. cbn [payable orb dispatch].
    unfold fundHackathon, onlyOrganizer, whenNotPaused, nonReentrant,
      bind, require, get, read, write, emit, modify, ret.
    cbn. rewrite Ho, N.eqb_refl. cbn. rewrite Hp. cbn. rewrite Hst. cbn.
    rewrite Hnew. cbn. rewrite lookup_total_insert_eq. cbn. rewrite Hf. cbn.
    rewrite Hv. reflexivity.
Qed.

Lemma failed_first_fund_witness :
  exists_ (hackathons (storage (deployed alice)) !!! 1) = false /\
  run accept_all by_alice (FundHackathon 1) (deployed alice)
    = Revert "Must send some ETH" /\
  transact accept_all by_alice (FundHackathon 1) (deployed alice) = deployed alice /\
  events (transact accept_all by_alice (FundHackathon 1) (deployed alice)) = [].
Proof.
  assert (Hnew : exists_ (hackathons (storage (deployed alice)) !!! 1) = false)
    by (vm_compute; reflexivity).
  assert (Hbad : msg_value by_alice = 0 \/
                 msg_sender by_alice <> organizer (storage (deployed alice)) \/
                 _paused (storage (deployed alice)) = true)
    by (left; reflexivity).
  destruct (failed_first_fund accept_all by_alice 1 (deployed alice) Hnew Hbad)
    as (_ & (H1 & _ & H3) & H4).
  split; [exact Hnew|]. split; [|split; [exact H1 | exact H3]].
  apply H4; vm_compute; reflexivity.
Defined.

End LedgerProofs.

(** * Properties of the settlement orchestrator *)

Module OrchestratorProofs.

Import Orchestrator.

Section Settlement.

Context {Number : Type}.
Variable gt0 le0 falsy : Number -> bool.
Variable parseFloat : string -> Number.
Variable parseEther : string -> option N.
Variable isAddress : string -> bool.
Variable env : Env.

Abbreviation handle := (handler gt0 le0 falsy parseFloat parseEther isAddress env).

(** ** Rules for the steps of a handler *)

Lemma post_bind {A B} (m : H A) (k : A -> H B) (w : @World Number) Q :
  post m w (fun o w1 =>
    match o with
    | Val a => post (k a) w1 Q
    | Return r => Q (Return r) w1
    | Throw e => Q (Throw e) w1
    end) ->
  post (bind m k) w Q.
Proof.
  unfold post, bind. destruct (m w) as [[a|r|e] w1]; cbn; auto.
Qed.

Lemma post_ret {A} (a : A) (w : @World Number) Q : Q (Val a) w -> post (ret a) w Q.
Proof. auto. Qed.

Lemma post_respond {A} r (w : @World Number) (Q : Out A -> World -> Prop) :
  Q (Return r) w -> post (respond r) w Q.
Proof. auto. Qed.

Lemma post_throw {A} e (w : @World Number) (Q : Out A -> World -> Prop) :
  Q (Throw e) w -> post (throw e) w Q.
Proof. auto. Qed.

Lemma post_reject_if c code e (w : @World Number) Q :
  (c = true -> Q (Return (Error code e)) w) ->
  (c = false -> Q (Val tt) w) ->
  post (reject_if c code e) w Q.
Proof. unfold post, reject_if. intros H1 H2. destruct c; cbn; auto. Qed.

Lemma post_select id (w : @World Number) Q :
  (forall e, select_error env = Some e ->
     Q (Throw e) (mkWorld (db w) (trace w ++ [DbSelect id false]))) ->
  (select_error env = None ->
     Q (Val (db w !! id)) (mkWorld (db w) (trace w ++ [DbSelect id true]))) ->
  post (select_hackathon env (Some id)) w Q.
Proof.
  unfold post, select_hackathon. destruct (select_error env); cbn; auto.
Qed.

Lemma post_select_nan (w : @World Number) Q :
  Q (Throw "invalid input syntax for type integer") w ->
  post (select_hackathon env None) w Q.
Proof. auto. Qed.

Lemma post_contract_call op (w : @World Number) Q :
  (forall hash, submit env op = inl hash ->
     Q (Val hash) (mkWorld (db w) (trace w ++ [LedgerSubmit op true]))) ->
  (forall e, submit env op = inr e ->
     Q (Throw e) (mkWorld (db w) (trace w ++ [LedgerSubmit op false]))) ->
  post (contract_call env op) w Q.
Proof.
  unfold post, contract_call. destruct (submit env op); cbn; auto.
Qed.

Lemma post_tx_wait hash (w : @World Number) Q :
  (wait env hash = None ->
     Q (Val tt) (mkWorld (db w) (trace w ++ [LedgerWait hash true]))) ->
  (forall e, wait env hash = Some e ->
     Q (Throw e) (mkWorld (db w) (trace w ++ [LedgerWait hash false]))) ->
  post (tx_wait env hash) w Q.
Proof.
  unfold post, tx_wait. destruct (wait env hash); cbn; auto.
Qed.

Lemma post_update id f (w : @World Number) Q :
  (forall e, update_error env = Some e ->
     Q (Throw e) (mkWorld (db w) (trace w ++ [DbUpdate id false]))) ->
  (update_error env = None ->
     Q (Val tt) (mkWorld (alter f id (db w)) (trace w ++ [DbUpdate id true]))) ->
  post (update_hackathon env id f) w Q.
Proof.
  unfold post, update_hackathon. destruct (update_error env); cbn; auto.
Qed.

Lemma post_check_addresses ws (w : @World Number) Q :
  Q (Val ws) w -> (forall e, Q (Throw e) w) ->
  post (check_addresses isAddress ws) w Q.
Proof.
  intros HV HT. revert Q HV HT.
  induction ws as [|a ws IH]; intros Q HV HT; cbn [check_addresses].
  - exact HV.
  - apply post_bind. destruct (isAddress a).
    + apply post_ret. apply post_bind. apply IH.
      * apply post_ret. exact HV.
      * exact HT.
    + apply post_throw. apply HT.
Qed.

Lemma post_try_catch body handler (w : @World Number) R :
  post body w (fun o w' => R (response_of handler o) w') ->
  R (fst (try_catch body handler w)) (snd (try_catch body handler w)).
Proof.
  unfold post, try_catch, response_of. destruct (body w) as [[r|r|e] w']; cbn; auto.
Qed.

Ltac run_step :=
  cbv beta iota;
  lazymatch goal with
  | |- post (bind _ _) _ _ => apply post_bind
  | |- post (ret _) _ _ => apply post_ret
  | |- post (respond _) _ _ => apply post_respond
  | |- post (throw _) _ _ => apply post_throw
  | |- post (reject_if _ _ _) _ _ => apply post_reject_if; intros ?
  | |- post (select_hackathon _ (Some _)) _ _ =>
      apply post_select; [intros ? ? | intros ?]
  | |- post (select_hackathon _ None) _ _ => apply post_select_nan
  | |- post (select_hackathon _ ?x) _ _ => destruct x eqn:?
  | |- post (contract_call _ _) _ _ => apply post_contract_call; intros ? ?
  | |- post (tx_wait _ _) _ _ => apply post_tx_wait; [intros ? | intros ? ?]
  | |- post (update_hackathon _ _ _) _ _ =>
      apply post_update; [intros ? ? | intros ?]
  | |- post (check_addresses _ _) _ _ =>
      apply post_check_addresses; [| intros ?]
  | |- post (match ?x with _ => _ end) _ _ => destruct x eqn:?
  end.

(** A run that ends without a successful UPDATE. *)
Lemma settled_unchanged (w w' : @World Number) resp es :
  trace w' = trace w ++ es ->
  db w' = db w ->
  update_after_confirm false false es = true ->
  is_error resp = true ->
  (existsb ledger_failure es = true -> exists e, resp = Error 500 e) ->
  settled env w resp w'.
Proof.
  intros Ht Hd Hu He Hf. exists es. split; [exact Ht|]. split; [exact Hu|].
  split; [auto|]. split; [intros Hn; contradiction|]. auto.
Qed.

(** The run that ends with the UPDATE. *)
Lemma settled_updated (w : @World Number) id op hash message f :
  submit env op = inl hash -> wait env hash = None ->
  settled env w (Success message hash)
    (mkWorld (alter f id (db w))
       ((((trace w ++ [DbSelect id true]) ++ [LedgerSubmit op true]) ++
         [LedgerWait hash true]) ++ [DbUpdate id true])).
Proof.
  intros Hs Hw.
  exists [DbSelect id true; LedgerSubmit op true; LedgerWait hash true; DbUpdate id true].
  cbn [trace db]. split; [rewrite <- !app_assoc; reflexivity|].
  split; [reflexivity|]. split; [intros E; discriminate E|]. split.
  - intros _. exists id, op, hash, message. auto.
  - intros [H|H].
    + destruct (H op) as [e E]. congruence.
    + destruct (H hash) as [e E]. congruence.
Qed.

Ltac close_unchanged :=
  eapply settled_unchanged;
  [ cbn [trace]; rewrite <- ?app_assoc; cbn [app];
    first [ reflexivity | symmetry; apply app_nil_r ]
  | reflexivity
  | reflexivity
  | reflexivity
  | cbn; first [ intros E; discriminate E | intros _; eexists; reflexivity ] ].

Ltac close_settled :=
  cbv beta iota; cbn [response_of db trace];
  first [ apply settled_updated; assumption | close_unchanged ].

(** C9: in each of the four settlement handlers the projection is
    written only after the ledger operation was submitted and confirmed;
    when the submission or the confirmation fails the handler answers
    with status 500 and the projection is as it was. *)
Theorem settlement_write_after_confirm c req (w : @World Number) :
  settled env w (fst (handle c req w)) (snd (handle c req w)).
Proof.
  destruct c; cbn [handler].
  - unfold end_handler. destruct (params_id req) eqn:Eid; [|cbn; close_settled].
    destruct (negb (is_organizer req)); [cbn; close_settled|].
    apply post_try_catch. repeat run_step; close_settled.
  - unfold fund_handler.
    destruct (negb (is_organizer req)); [cbn; close_settled|].
    apply post_try_catch. repeat run_step; close_settled.
  - unfold set_winners_handler. destruct (params_id req) eqn:Eid; [|cbn; close_settled].
    destruct (negb (is_organizer req)); [cbn; close_settled|].
    destruct (body_winners req) as [[|a ws]|]; try (cbn; close_settled).
    apply post_try_catch. repeat run_step; close_settled.
  - unfold distribute_handler.
    destruct (negb (is_organizer req)); [cbn; close_settled|].
    apply post_try_catch. repeat run_step; close_settled.
Qed.

End Settlement.

End OrchestratorProofs.

(** * Further properties of the ledger contract *)

Module LedgerExtras.

Import Ledger LedgerViews Examples LedgerProofs.

#[local] Arguments call_depth : simpl never.
#[local] Arguments external_call : simpl never.
#[local] Arguments _safeTransfer : simpl never.

(** ** Sums over the index *)

Lemma total_app l1 l2 : total (l1 ++ l2) = total l1 + total l2.
Proof.
  unfold total. induction l1 as [|x l1 IH]; cbn; [reflexivity|]. rewrite IH. lia.
Qed.

Lemma total_perm l1 l2 : l1 ≡ₚ l2 -> total l1 = total l2.
Proof.
  unfold total. induction 1; cbn; lia.
Qed.

Lemma total_map_ext (f g : N -> N) l :
  (forall x, x ∈ l -> f x = g x) -> total (map f l) = total (map g l).
Proof.
  unfold total. induction l as [|x l IH]; intros H; cbn; [reflexivity|].
  rewrite (H x) by apply list_elem_of_here. rewrite IH; [reflexivity|].
  intros y Hy. apply H. by apply list_elem_of_further.
Qed.

(** Removal takes one occurrence of the id out of the index and keeps
    everything else. *)
Lemma removeActive_perm (id : N) (a : list N) :
  id ∈ a -> a ≡ₚ id :: removeActive_loop (length a) 0 id a.
Proof.
  intros Hin. destruct (first_occurrence id a Hin) as (before & after & -> & Hb).
  pose proof (removeActive_loop_found id [] before after Hb) as R.
  cbn [app length] in R. rewrite R. rewrite spec_swap_pop_perm.
  symmetry. apply Permutation_middle.
Qed.

Lemma removeActive_absent (id : N) (a : list N) :
  id ∉ a -> removeActive_loop (length a) 0 id a = a.
Proof.
  intros Hn. pose proof (removeActive_loop_absent id [] a Hn) as R.
  cbn [app length] in R. exact R.
Qed.

(** X1: [_removeActiveHackathon] on any array, duplicates included.  It is
    the first occurrence of the id that goes: the entries before it stay
    in place, its slot takes the last entry of the array, and the array
    loses its last slot (when the first occurrence is the last entry,
    that entry is dropped).  So one occurrence leaves, the other entries
    stay, and the length drops by one; an array without the id is
    unchanged. *)
Theorem removeActive_one (id : N) (a : list N) :
  let a' := removeActive_loop (length a) 0 id a in
  (forall before after,
     a = before ++ id :: after -> id ∉ before ->
     a' = match after with
          | [] => before
          | x :: _ => before ++ List.last after x :: removelast after
          end) /\
  (id ∈ a -> a ≡ₚ id :: a' /\ length a = S (length a')) /\
  (id ∉ a -> a' = a).
Proof.
  cbv zeta. split; [|split].
  - intros before after -> Hb.
    pose proof (removeActive_loop_found id [] before after Hb) as R.
    cbn [app length] in R. rewrite R. reflexivity.
  - intros Hin. pose proof (removeActive_perm id a Hin) as P.
    split; [exact P|]. apply Permutation_length in P. exact P.
  - apply removeActive_absent.
Qed.

Lemma removeActive_one_witness :
  removeActive_loop 4 0 5 [5; 7; 5; 9] = [9; 7; 5] /\
  removeActive_loop 4 0 5 [7; 5; 9; 5] = [7; 5; 9] /\
  removeActive_loop 3 0 4 [5; 7; 9] = [5; 7; 9].
Proof.
  split; [|split].
  - apply (proj1 (removeActive_one 5 [5; 7; 5; 9]) [] [7; 5; 9] eq_refl).
    apply not_elem_of_nil.
  - apply (proj1 (removeActive_one 5 [7; 5; 9; 5]) [7] [9; 5] eq_refl).
    apply not_elem_of_cons. split; [intros E; discriminate E | apply not_elem_of_nil].
  - apply (proj2 (proj2 (removeActive_one 4 [5; 7; 9]))).
    intros H. apply list_elem_of_In in H. cbn in H.
    repeat destruct H as [H|H]; try discriminate H. exact H.
Defined.

(** ** The life cycle of a record *)

Lemma lifecycle_deployed deployer : lifecycle (deployed deployer).
Proof.
  constructor; cbn; intros; rewrite ?lookup_total_empty in *; cbn in *;
    try congruence; try discriminate; try (split; constructor).
Qed.

Lemma escrow_same (st st' : Storage) :
  activeHackathons st' = activeHackathons st ->
  (forall id, totalFunding (hackathons st' !!! id) = totalFunding (hackathons st !!! id)) ->
  escrow st' = escrow st.
Proof.
  intros Ha Ht. unfold escrow. rewrite Ha. apply total_map_ext. intros x _. apply Ht.
Qed.

Lemma lifecycle_sound s id : lifecycle s -> sound_record (hackathons (storage s) !!! id).
Proof.
  intros [Le Ln Lw Lv Lp Lb]. unfold sound_record. auto 10.
Qed.

Lemma lifecycle_of s :
  (forall id, sound_record (hackathons (storage s) !!! id)) ->
  escrow (storage s) <= balance s ->
  lifecycle s.
Proof.
  intros H Lb. constructor; try exact Lb; intros id; destruct (H id) as (? & ? & ? & ? & ?);
    assumption.
Qed.

Lemma sound_evolves h h' : sound_record h -> evolves h h' -> sound_record h'.
Proof.
  intros (Le & Ln & Lw & Lv & Lp) [F G D X E N W]. unfold sound_record.
  rewrite F, G, X. split; [exact Le|]. split; [|split; [|split; [|exact Lp]]].
  - intros He. destruct (N He) as [H|H]; [auto | congruence].
  - destruct W as [W|(_ & Hf & _)]; [rewrite W; exact Lw | auto].
  - destruct W as [W|(_ & _ & _ & (_ & HF & HN))]; [rewrite W; exact Lv | auto].
Qed.

Lemma sound_distributed h : sound_record h -> sound_record (set_prizesDistributed true h).
Proof. intros H. exact H. Qed.

Lemma lifecycle_step accepts m c s :
  invariant s -> lifecycle s -> lifecycle (transact accepts m c s).
Proof.
  intros Hinv Hlife.
  pose proof Hinv as [Hs Hd Ha Hw Hp]. pose proof Hlife as [Le Ln Lw Lv Lp Lb].
  destruct (transact_cases accepts m c s) as [->|H]; [exact Hlife|].
  revert H. generalize (transact accepts m c s). intros s' H. unfold run in H.
  destruct c as [id|id ws|id|id| | | |].
  - apply fund_Ok in H. cbv zeta in H. destruct H as (_ & Hf & Hv & ->).
    constructor; [cbn|cbn|cbn|cbn|cbn|].
    + intros id'. lookup_cases id id'; cbn; [reflexivity | apply Le].
    + intros id'. lookup_cases id id'; cbn; [reflexivity | apply Ln].
    + intros id'. lookup_cases id id'; cbn; [reflexivity | apply Lw].
    + intros id'. lookup_cases id id'; cbn; apply Lv.
    + intros id'. lookup_cases id id'; cbn; [intros _; exact Hv | apply Lp].
    + unfold escrow. cbn. rewrite map_app, total_app. cbn.
      rewrite lookup_total_insert_eq. cbn.
      assert (Hn : id ∉ activeHackathons (storage s)).
      { intros Hin. apply Ha in Hin. destruct Hin as [Hin _]. congruence. }
      rewrite (total_map_ext _ (fun j => totalFunding (hackathons (storage s) !!! j))).
      * unfold escrow in Lb. lia.
      * intros x Hx. rewrite lookup_total_insert_ne; [reflexivity|].
        intros ->. contradiction.
  - apply setWinners_Ok in H. cbv zeta in H.
    destruct H as (_ & (He & Hf & _) & (_ & HF & HN) & ->).
    constructor; [cbn|cbn|cbn|cbn|cbn|].
    + intros id'. lookup_cases id id'; cbn; apply Le.
    + intros id'. lookup_cases id id'; cbn; apply Ln.
    + intros id'. lookup_cases id id'; cbn; [intros _; exact Hf | apply Lw].
    + intros id'. lookup_cases id id'; cbn; [auto | apply Lv].
    + intros id'. lookup_cases id id'; cbn; apply Lp.
    + erewrite escrow_same; [exact Lb | reflexivity |]. cbn.
      intros id'. lookup_cases id id'; reflexivity.
  - pose proof (distribute_Ok _ _ _ _ _ _ H) as Pre. cbv zeta in Pre.
    destruct Pre as (_ & (_ & Hf & _ & Hnd & _ & Hbal) & _).
    apply distribute_effect in H. cbv zeta in H.
    destruct H as (cs & _ & _ & _ & (_ & _ & A) & B & (h1 & E1 & R1) & R & _).
    apply lifecycle_of.
    + intros id'. destruct (decide (id' = id)) as [->|Hne].
      * rewrite R1. apply sound_distributed.
        eapply sound_evolves; [apply lifecycle_sound; exact Hlife | exact E1].
      * eapply sound_evolves; [apply lifecycle_sound; exact Hlife | apply R; exact Hne].
    + assert (Hin : id ∈ activeHackathons (storage s)) by (apply Ha; auto).
      pose proof (removeActive_perm id _ Hin) as P.
      unfold escrow in *. rewrite A.
      rewrite (total_map_ext _ (fun j => totalFunding (hackathons (storage s) !!! j))).
      2:{ intros x _. destruct (decide (x = id)) as [->|Hne].
          - rewrite R1. cbn. apply (ev_funding _ _ E1).
          - apply (ev_funding _ _ (R x Hne)). }
      rewrite (total_perm _ _ (Permutation_map _ P)) in Lb. cbn in Lb.
      unfold total in *. cbn in Lb. lia.
  - apply endHackathon_Ok in H. cbv zeta in H. destruct H as (_ & (He & _) & ->).
    constructor; [cbn|cbn|cbn|cbn|cbn|].
    + intros id'. lookup_cases id id'; cbn; apply Le.
    + intros id'. lookup_cases id id'; cbn; [|apply Ln].
      intros _. rewrite <- Le. exact He.
    + intros id'. lookup_cases id id'; cbn; apply Lw.
    + intros id'. lookup_cases id id'; cbn; apply Lv.
    + intros id'. lookup_cases id id'; cbn; apply Lp.
    + erewrite escrow_same; [exact Lb | reflexivity |]. cbn.
      intros id'. lookup_cases id id'; reflexivity.
  - apply withdraw_Ok in H. cbv zeta in H.
    destruct H as (_ & (E & _) & frames & reentry & s1 & _ & _ & _ & R & ->).
    apply lifecycle_of.
    + intros id'. cbn.
      eapply sound_evolves; [apply lifecycle_sound; exact Hlife|].
      apply (re_records _ _ R id').
    + unfold escrow. cbn. rewrite (re_active _ _ R). cbn. rewrite E. cbn. lia.
  - apply pause_Ok in H. cbv zeta in H. destruct H as (_ & ->).
    constructor; [cbn; auto ..|]. exact Lb.
  - apply unpause_Ok in H. cbv zeta in H. destruct H as (_ & ->).
    constructor; [cbn; auto ..|]. exact Lb.
  - apply receive_Ok in H. subst s'. constructor; [cbn; auto ..|].
    change (escrow (storage s) <= balance s + msg_value m). lia.
Qed.

Lemma reachable_lifecycle s : reachable s -> lifecycle s.
Proof.
  induction 1 as [d|s accepts m c Hr IH]; [apply lifecycle_deployed|].
  apply lifecycle_step; [apply reachable_invariant; exact Hr | exact IH].
Qed.

Lemma reachable_distributed : reachable distributed.
Proof. unfold distributed. apply reach_step. apply reachable_ended. Qed.

Lemma reachable_solvent_aux s (Hreach : reachable s) :
  escrow (storage s) <= balance s /\
  forall id,
    isFunded (hackathons (storage s) !!! id) = true ->
    prizesDistributed (hackathons (storage s) !!! id) = false ->
    totalFunding (hackathons (storage s) !!! id) <= balance s.
Proof.
  pose proof (life_solvent _ (reachable_lifecycle s Hreach)) as Lb.
  split; [exact Lb|]. intros id Hf Hd.
  assert (Hin : id ∈ activeHackathons (storage s)).
  { apply (inv_active _ (reachable_invariant s Hreach)). auto. }
  apply list_elem_of_split in Hin. destruct Hin as (l1 & l2 & E).
  unfold escrow in Lb. rewrite E, map_app, total_app in Lb. cbn in Lb.
  unfold total in Lb. cbn in Lb. lia.
Qed.

(** X2: solvency.  In every reachable state the balance covers the
    [totalFunding] of all hackathons of the index together, hence of each
    one: [distributePrizes] never fails for lack of balance. *)
Theorem reachable_solvent s (Hreach : reachable s) :
  escrow (storage s) <= balance s /\
  forall id,
    isFunded (hackathons (storage s) !!! id) = true ->
    prizesDistributed (hackathons (storage s) !!! id) = false ->
    totalFunding (hackathons (storage s) !!! id) <= balance s.
Proof. exact (reachable_solvent_aux s Hreach). Qed.

Lemma reachable_solvent_witness :
  reachable ended /\
  escrow (storage ended) = 101 /\ balance ended = 101 /\
  totalFunding (hackathons (storage ended) !!! 1) <= balance ended.
Proof.
  split; [exact reachable_ended|].
  split; [vm_compute; reflexivity|]. split; [vm_compute; reflexivity|].
  apply (proj2 (reachable_solvent ended reachable_ended) 1); vm_compute; reflexivity.
Defined.

(** X3: the life cycle of a record in a reachable state.  A record exists
    exactly when it is funded; it is ended or has winners only if funded;
    it is distributed only if funded, ended and with winners; its winners
    are at most three distinct non-zero addresses; and a funded record
    holds a positive [totalFunding]. *)
Theorem record_lifecycle s (Hreach : reachable s) id :
  let h := hackathons (storage s) !!! id in
  exists_ h = isFunded h /\
  (isEnded h = true -> isFunded h = true) /\
  (winners h <> [] -> isFunded h = true) /\
  (prizesDistributed h = true ->
   isFunded h = true /\ isEnded h = true /\ winners h <> []) /\
  ((length (winners h) <= 3)%nat /\ Forall (fun w => w <> 0) (winners h) /\
   NoDup (winners h)) /\
  (isFunded h = true -> 0 < totalFunding h).
Proof.
  pose proof (reachable_lifecycle s Hreach) as [Le Ln Lw Lv Lp Lb].
  pose proof (reachable_invariant s Hreach) as [Hs Hd Ha Hw Hp].
  cbv zeta. split; [apply Le|]. split; [apply Ln|]. split; [apply Lw|].
  split; [apply Hp|]. split; [|apply Lp].
  split; [apply Hw | apply Lv].
Qed.

Lemma record_lifecycle_witness :
  reachable distributed /\
  exists_ (hackathons (storage distributed) !!! 1) = true /\
  isFunded (hackathons (storage distributed) !!! 1) = true /\
  exists_ (hackathons (storage distributed) !!! 2) =
    isFunded (hackathons (storage distributed) !!! 2).
Proof.
  split; [exact reachable_distributed|].
  split; [vm_compute; reflexivity|]. split; [vm_compute; reflexivity|].
  exact (proj1 (record_lifecycle distributed reachable_distributed 2)).
Defined.

(** X4: a record is created only by funding, so in a reachable state every
    call about an id that was never funded, other than [fundHackathon],
    reverts; the organizer's [endHackathon] is refused with "Hackathon
    does not exist". *)
Theorem unfunded_calls_revert s (Hreach : reachable s) id
  (Hunfunded : isFunded (hackathons (storage s) !!! id) = false) :
  (forall accepts m c,
     target c = Some id -> c <> FundHackathon id ->
     exists r, run accepts m c s = Revert r) /\
  (forall accepts m,
     msg_sender m = organizer (storage s) -> msg_value m = 0 ->
     _paused (storage s) = false ->
     run accepts m (EndHackathon id) s = Revert "Hackathon does not exist").
Proof.
  pose proof (life_exists _ (reachable_lifecycle s Hreach) id) as Le.
  rewrite Hunfunded in Le. split.
  - intros accepts m c Ht Hc.
    destruct (run_cases accepts m c s) as [[s' H]|H]; [exfalso | exact H].
    unfold run in H.
    destruct c; cbn in Ht; inversion Ht; subst.
    + congruence.
    + apply setWinners_Ok in H. cbv zeta in H. destruct H as (_ & (E & _) & _). congruence.
    + apply distribute_Ok in H. cbv zeta in H. destruct H as (_ & (E & _) & _). congruence.
    + apply endHackathon_Ok in H. cbv zeta in H. destruct H as (_ & (E & _) & _). congruence.
  - intros accepts m Ho Hv Hp.
    unfold run, execute. rewrite Hv, credit_zero. cbn [payable orb dispatch].
    unfold endHackathon, onlyOrganizer, whenNotPaused, hackathonExists,
      bind, require, get, read, modify, ret.
    cbn. rewrite Ho, N.eqb_refl. cbn. rewrite Hp. cbn. rewrite Le. reflexivity.
Qed.

Lemma unfunded_calls_revert_witness :
  reachable ended /\
  isFunded (hackathons (storage ended) !!! 2) = false /\
  run accept_all by_alice (EndHackathon 2) ended = Revert "Hackathon does not exist".
Proof.
  assert (Hf : isFunded (hackathons (storage ended) !!! 2) = false)
    by (vm_compute; reflexivity).
  split; [exact reachable_ended|]. split; [exact Hf|].
  apply (proj2 (unfunded_calls_revert ended reachable_ended 2 Hf)); vm_compute; reflexivity.
Defined.

(** ** Flags only go up *)

Lemma step_keeps_ended accepts m c s id :
  isEnded (hackathons (storage s) !!! id) = true ->
  isEnded (hackathons (storage (transact accepts m c s)) !!! id) = true.
Proof.
  intros He.
  destruct (transact_cases accepts m c s) as [->|H]; [exact He|].
  revert H. generalize (transact accepts m c s). intros s' H. unfold run in H.
  destruct c as [id'|id' ws|id'|id'| | | |].
  - apply fund_Ok in H. cbv zeta in H. destruct H as (_ & _ & _ & ->). cbn.
    lookup_cases id' id; cbn; auto.
  - apply setWinners_Ok in H. cbv zeta in H. destruct H as (_ & _ & _ & ->). cbn.
    lookup_cases id' id; cbn; auto.
  - apply distribute_effect in H. cbv zeta in H.
    destruct H as (cs & _ & _ & _ & _ & _ & (h1 & E1 & R1) & R & _).
    destruct (decide (id = id')) as [->|Hne].
    + rewrite R1. cbn. apply (ev_ended _ _ E1). exact He.
    + apply (ev_ended _ _ (R id Hne)). exact He.
  - apply endHackathon_Ok in H. cbv zeta in H. destruct H as (_ & _ & ->). cbn.
    lookup_cases id' id; cbn; auto.
  - apply withdraw_Ok in H. cbv zeta in H.
    destruct H as (_ & _ & frames & reentry & s1 & _ & _ & _ & R & ->).
    cbn. apply (ev_ended _ _ (re_records _ _ R id)). exact He.
  - apply pause_Ok in H. cbv zeta in H. destruct H as (_ & ->). cbn. auto.
  - apply unpause_Ok in H. cbv zeta in H. destruct H as (_ & ->). cbn. auto.
  - apply receive_Ok in H. subst s'. cbn. auto.
Qed.

Lemma transact_all_cons t txs s :
  transact_all (t :: txs) s =
  transact_all txs (transact (tx_accepts t) (tx_msg t) (tx_call t) s).
Proof. reflexivity. Qed.

Lemma transact_all_keeps_ended txs s id :
  isEnded (hackathons (storage s) !!! id) = true ->
  isEnded (hackathons (storage (transact_all txs s)) !!! id) = true.
Proof.
  revert s. induction txs as [|t txs IH]; intros s He; [exact He|].
  rewrite transact_all_cons. apply IH. apply step_keeps_ended. exact He.
Qed.

(** X5: [endHackathon] ends a record once.  A successful call finds an
    existing record that is not ended, marks it ended, emits
    [HackathonEnded] and changes nothing else of the record; from then on
    the record stays ended and every further [endHackathon] for the id
    reverts, whatever happened in between. *)
Theorem end_once accepts m id s s'
  (Hrun : run accepts m (EndHackathon id) s = Ok s') :
  let h := hackathons (storage s) !!! id in
  (exists_ h = true /\ isEnded h = false) /\
  hackathons (storage s') !!! id = set_isEnded true h /\
  events s' = events s ++ [HackathonEnded id] /\
  balance s' = balance s /\
  forall txs accepts' m',
    isEnded (hackathons (storage (transact_all txs s')) !!! id) = true /\
    exists r, run accepts' m' (EndHackathon id) (transact_all txs s') = Revert r.
Proof.
  cbv zeta. unfold run in Hrun. apply endHackathon_Ok in Hrun. cbv zeta in Hrun.
  destruct Hrun as (_ & He & Hs'). split; [exact He|].
  assert (Hended : isEnded (hackathons (storage s') !!! id) = true).
  { rewrite Hs'. cbn. rewrite lookup_total_insert_eq. reflexivity. }
  split; [rewrite Hs'; cbn; apply lookup_total_insert_eq|].
  split; [rewrite Hs'; reflexivity|]. split; [rewrite Hs'; reflexivity|].
  intros txs accepts' m'.
  pose proof (transact_all_keeps_ended txs s' id Hended) as E.
  split; [exact E|].
  destruct (run_cases accepts' m' (EndHackathon id) (transact_all txs s')) as [[s2 H]|H];
    [exfalso | exact H].
  unfold run in H.
  apply endHackathon_Ok in H. cbv zeta in H. destruct H as (_ & (_ & E') & _). congruence.
Qed.

Lemma end_once_witness :
  run accept_all by_alice (EndHackathon 1) with_winners = Ok ended /\
  isEnded (hackathons (storage distributed) !!! 1) = true /\
  exists r, run accept_all by_alice (EndHackathon 1) distributed = Revert r.
Proof.
  assert (H : run accept_all by_alice (EndHackathon 1) with_winners = Ok ended)
    by (vm_compute; reflexivity).
  split; [exact H|].
  destruct (end_once _ _ _ _ _ H) as (_ & _ & _ & _ & T).
  exact (T [mkTx accept_all by_alice (DistributePrizes 1)] accept_all by_alice).
Defined.

(** X6: no second payout.  After a successful [distributePrizes] for an id
    the record stays distributed, and every later [distributePrizes] for
    that id reverts, whatever transactions came in between and whoever
    calls. *)
Theorem distribute_once accepts m id s s'
  (Hrun : run accepts m (DistributePrizes id) s = Ok s') :
  forall txs accepts' m',
    prizesDistributed (hackathons (storage (transact_all txs s')) !!! id) = true /\
    exists r, run accepts' m' (DistributePrizes id) (transact_all txs s') = Revert r.
Proof.
  unfold run in Hrun. apply distribute_effect in Hrun. cbv zeta in Hrun.
  destruct Hrun as (cs & _ & _ & _ & _ & _ & (h1 & _ & R1) & _).
  assert (Hd : prizesDistributed (hackathons (storage s') !!! id) = true).
  { rewrite R1. reflexivity. }
  intros txs accepts' m'.
  pose proof (proj2 (transact_all_keeps_funding txs s' id) Hd) as E.
  split; [exact E|].
  destruct (run_cases accepts' m' (DistributePrizes id) (transact_all txs s'))
    as [[s2 H]|H]; [exfalso | exact H].
  unfold run in H. apply distribute_Ok in H. cbv zeta in H.
  destruct H as (_ & (_ & _ & _ & E' & _) & _). congruence.
Qed.

Lemma distribute_once_witness :
  run accept_all by_alice (DistributePrizes 1) ended = Ok distributed /\
  exists r,
    run accept_all by_alice (DistributePrizes 1)
      (transact accept_all (mkMsg mallory 500) Receive distributed) = Revert r.
Proof.
  assert (H : run accept_all by_alice (DistributePrizes 1) ended = Ok distributed)
    by (vm_compute; reflexivity).
  split; [exact H|].
  exact (proj2 (distribute_once _ _ _ _ _ H
                  [mkTx accept_all (mkMsg mallory 500) Receive] accept_all by_alice)).
Defined.

(** ** Access control *)

(** X7: only the organizer.  Every call other than a plain payment, made
    by an address that is not the organizer, reverts and leaves the state
    unchanged; without attached value the reason is the modifier's. *)
Theorem only_organizer accepts m c s
  (Hother : msg_sender m <> organizer (storage s))
  (Hcall : restricted c = true) :
  (exists r, run accepts m c s = Revert r) /\
  transact accepts m c s = s /\
  (msg_value m = 0 -> run accepts m c s = Revert "Only organizer can call this").
Proof.
  assert (R : exists r, run accepts m c s = Revert r).
  { destruct (run_cases accepts m c s) as [[s' H]|H]; [exfalso | exact H].
    unfold run in H.
    destruct c; try discriminate Hcall.
    - apply fund_Ok in H. cbv zeta in H. destruct H as ((E & _) & _). congruence.
    - apply setWinners_Ok in H. cbv zeta in H. destruct H as ((E & _) & _). congruence.
    - apply distribute_Ok in H. cbv zeta in H. destruct H as ((E & _) & _). congruence.
    - apply endHackathon_Ok in H. cbv zeta in H. destruct H as ((E & _) & _). congruence.
    - apply withdraw_Ok in H. cbv zeta in H. destruct H as ((E & _) & _). congruence.
    - apply pause_Ok in H. cbv zeta in H. destruct H as ((E & _) & _). congruence.
    - apply unpause_Ok in H. cbv zeta in H. destruct H as ((E & _) & _). congruence. }
  split; [exact R|]. split.
  - destruct R as [r R]. eapply transact_revert. exact R.
  - intros Hv. apply N.eqb_neq in Hother.
    unfold run, execute. rewrite Hv, credit_zero.
    destruct c; try discriminate Hcall; cbn [payable orb dispatch];
      unfold fundHackathon, setWinners, distributePrizes, endHackathon, withdraw,
        pause, unpause, onlyOrganizer, bind, require, get, ret;
      cbn; rewrite Hother; reflexivity.
Qed.

Lemma only_organizer_witness :
  run accept_all (mkMsg mallory 0) Withdraw (credit 5 distributed)
    = Revert "Only organizer can call this" /\
  transact accept_all (mkMsg mallory 0) (SetWinners 1 [mallory]) funded = funded.
Proof.
  split.
  - apply (only_organizer accept_all (mkMsg mallory 0) Withdraw (credit 5 distributed));
      [vm_compute; intros E; discriminate E | reflexivity | reflexivity].
  - apply (only_organizer accept_all (mkMsg mallory 0) (SetWinners 1 [mallory]) funded);
      [vm_compute; intros E; discriminate E | reflexivity].
Defined.

(** X8: the organizer is the deployer for ever: no transaction changes
    [organizer]. *)
Theorem organizer_fixed txs s :
  organizer (storage (transact_all txs s)) = organizer (storage s).
Proof.
  revert s. induction txs as [|t txs IH]; intros s; [reflexivity|].
  rewrite transact_all_cons, IH.
  destruct (transact_cases (tx_accepts t) (tx_msg t) (tx_call t) s) as [->|H];
    [reflexivity|].
  revert H. generalize (transact (tx_accepts t) (tx_msg t) (tx_call t) s). intros s' H.
  unfold run in H.
  destruct (tx_call t).
  - apply fund_Ok in H. cbv zeta in H. destruct H as (_ & _ & _ & ->). reflexivity.
  - apply setWinners_Ok in H. cbv zeta in H. destruct H as (_ & _ & _ & ->). reflexivity.
  - apply distribute_effect in H. cbv zeta in H.
    destruct H as (cs & _ & _ & _ & (O & _) & _). exact O.
  - apply endHackathon_Ok in H. cbv zeta in H. destruct H as (_ & _ & ->). reflexivity.
  - apply withdraw_Ok in H. cbv zeta in H.
    destruct H as (_ & _ & frames & reentry & s1 & _ & _ & _ & R & ->).
    cbn. apply (re_organizer _ _ R).
  - apply pause_Ok in H. cbv zeta in H. destruct H as (_ & ->). reflexivity.
  - apply unpause_Ok in H. cbv zeta in H. destruct H as (_ & ->). reflexivity.
  - apply receive_Ok in H. subst s'. reflexivity.
Qed.

(** ** The circuit breaker *)

(** X9: while the contract is paused every call behind [whenNotPaused]
    (fund, set winners, distribute, end, withdraw, and pause itself)
    reverts and leaves the state unchanged; for the organizer's call
    without value the reason is "Pausable: paused". *)
Theorem paused_blocks accepts m c s
  (Hpaused : _paused (storage s) = true)
  (Hcall : pausable c = true) :
  (exists r, run accepts m c s = Revert r) /\
  transact accepts m c s = s /\
  (msg_sender m = organizer (storage s) -> msg_value m = 0 ->
   run accepts m c s = Revert "Pausable: paused").
Proof.
  assert (R : exists r, run accepts m c s = Revert r).
  { destruct (run_cases accepts m c s) as [[s' H]|H]; [exfalso | exact H].
    unfold run in H.
    destruct c; try discriminate Hcall.
    - apply fund_Ok in H. cbv zeta in H. destruct H as ((_ & E & _) & _). congruence.
    - apply setWinners_Ok in H. cbv zeta in H. destruct H as ((_ & _ & E) & _). congruence.
    - apply distribute_Ok in H. cbv zeta in H.
      destruct H as ((_ & _ & E & _) & _). congruence.
    - apply endHackathon_Ok in H. cbv zeta in H. destruct H as ((_ & _ & E) & _). congruence.
    - apply withdraw_Ok in H. cbv zeta in H. destruct H as ((_ & _ & E & _) & _). congruence.
    - apply pause_Ok in H. cbv zeta in H. destruct H as ((_ & _ & E) & _). congruence. }
  split; [exact R|]. split.
  - destruct R as [r R]. eapply transact_revert. exact R.
  - intros Ho Hv. unfold run, execute. rewrite Hv, credit_zero.
    destruct c; try discriminate Hcall; cbn [payable orb dispatch];
      unfold fundHackathon, setWinners, distributePrizes, endHackathon, withdraw,
        pause, onlyOrganizer, whenNotPaused, bind, require, get, ret;
      cbn; rewrite Ho, N.eqb_refl; cbn; rewrite Hpaused; reflexivity.
Qed.

Lemma paused_blocks_witness :
  run accept_all by_alice (DistributePrizes 1) (transact accept_all by_alice Pause ended)
    = Revert "Pausable: paused".
Proof.
  apply (paused_blocks accept_all by_alice (DistributePrizes 1)
           (transact accept_all by_alice Pause ended)); vm_compute; reflexivity.
Defined.

(** X10: pause and unpause.  A successful [pause] only sets the flag and
    logs the event; the organizer's [unpause] then succeeds and gives back
    the storage and the balance there were before the pause; [unpause] on
    a contract that is not paused reverts. *)
Theorem pause_unpause accepts m s s1
  (Hrun : run accepts m Pause s = Ok s1) :
  (_paused (storage s1) = true /\
   hackathons (storage s1) = hackathons (storage s) /\
   activeHackathons (storage s1) = activeHackathons (storage s) /\
   events s1 = events s ++ [Paused (msg_sender m)]) /\
  (exists s2,
     run accepts m Unpause s1 = Ok s2 /\
     storage s2 = storage s /\ balance s2 = balance s /\
     events s2 = events s ++ [Paused (msg_sender m); Unpaused (msg_sender m)]) /\
  (exists r, run accepts m Unpause s = Revert r).
Proof.
  unfold run in Hrun.
  apply pause_Ok in Hrun. cbv zeta in Hrun. destruct Hrun as ((Ho & Hv & Hp) & ->).
  split; [cbn; auto|]. split.
  - eexists. split.
    + unfold run, execute. rewrite Hv, credit_zero. cbn [payable orb dispatch].
      unfold unpause, onlyOrganizer, bind, require, get, emit, modify, ret.
      cbn. rewrite Ho, N.eqb_refl. cbn. reflexivity.
    + cbn. rewrite <- app_assoc. repeat split; try reflexivity.
      * unfold set_paused. cbn. destruct (storage s); cbn in *. subst. reflexivity.
      * rewrite Ho. reflexivity.
  - destruct (run_cases accepts m Unpause s) as [[s2 H]|H]; [exfalso | exact H].
    unfold run in H.
    apply unpause_Ok in H. cbv zeta in H. destruct H as ((_ & _ & E) & _). congruence.
Qed.

Lemma pause_unpause_witness :
  exists s1,
    run accept_all by_alice Pause ended = Ok s1 /\
    exists s2,
      run accept_all by_alice Unpause s1 = Ok s2 /\ storage s2 = storage ended.
Proof.
  assert (H : exists s1, run accept_all by_alice Pause ended = Ok s1)
    by (eexists; vm_compute; reflexivity).
  destruct H as [s1 H]. exists s1. split; [exact H|].
  destruct (pause_unpause _ _ _ _ H) as (_ & (s2 & H2 & H3 & _) & _).
  exists s2. split; [exact H2 | exact H3].
Defined.

(** ** Recipients that call nothing back *)

Lemma safeTransfer_silent accepts depth r amt id s u s' :
  silent accepts ->
  _safeTransfer (external_call accepts depth) r amt id s = Ok (u, s') ->
  amt <= balance s /\ s' = logged id r amt (sent r amt s).
Proof.
  intros Hq H. apply safeTransfer_Ok in H.
  destruct H as (Hle & frames & reentry & _ & A & ->).
  rewrite (Hq _ _ _ _ A). auto.
Qed.

(** The payments of a distribution, when nothing is called back. *)
Lemma pay_winners_silent accepts depth n id s t s' :
  silent accepts ->
  pay_winners (external_call accepts depth) n id s = Ok (t, s') ->
  exists cs,
    s' = mkState (storage s) (balance s - total (map call_amount cs))
           (events s ++ prize_events id cs) (calls s ++ cs) /\
    total (map call_amount cs) <= balance s.
Proof.
  intros Hq. unfold pay_winners.
  destruct (Nat.eqb n 3); [|destruct (Nat.eqb n 2)].
  - unfold pay_three. intros H. inv_M.
    repeat match goal with
    | T : _safeTransfer _ _ _ _ _ = Ok _ |- _ =>
      apply (safeTransfer_silent _ _ _ _ _ _ _ _ Hq) in T; destruct T as [? ->]
    end.
    match goal with
    | |- context [logged id ?r3 ?a3 (sent ?r3 ?a3
                   (logged id ?r2 ?a2 (sent ?r2 ?a2
                     (logged id ?r1 ?a1 (sent ?r1 ?a1 ?s0)))))] =>
      exists [mkExtCall r1 a1 (storage s0); mkExtCall r2 a2 (storage s0);
              mkExtCall r3 a3 (storage s0)]
    end.
    unfold logged, sent in *. cbn [storage balance events calls] in *.
    cbn [map call_amount]. unfold total. cbn [foldr].
    split; [f_equal|].
    + lia.
    + rewrite <- !app_assoc. f_equal.
      unfold prize_events. destruct (0 <? id); reflexivity.
    + rewrite <- !app_assoc. reflexivity.
    + lia.
  - unfold pay_two. intros H. inv_M.
    repeat match goal with
    | T : _safeTransfer _ _ _ _ _ = Ok _ |- _ =>
      apply (safeTransfer_silent _ _ _ _ _ _ _ _ Hq) in T; destruct T as [? ->]
    end.
    match goal with
    | |- context [logged id ?r2 ?a2 (sent ?r2 ?a2
                   (logged id ?r1 ?a1 (sent ?r1 ?a1 ?s0)))] =>
      exists [mkExtCall r1 a1 (storage s0); mkExtCall r2 a2 (storage s0)]
    end.
    unfold logged, sent in *. cbn [storage balance events calls] in *.
    cbn [map call_amount]. unfold total. cbn [foldr].
    split; [f_equal|].
    + lia.
    + rewrite <- !app_assoc. f_equal.
      unfold prize_events. destruct (0 <? id); reflexivity.
    + rewrite <- !app_assoc. reflexivity.
    + lia.
  - unfold pay_one. intros H. inv_M.
    repeat match goal with
    | T : _safeTransfer _ _ _ _ _ = Ok _ |- _ =>
      apply (safeTransfer_silent _ _ _ _ _ _ _ _ Hq) in T; destruct T as [? ->]
    end.
    match goal with
    | |- context [logged id ?r1 ?a1 (sent ?r1 ?a1 ?s0)] =>
      exists [mkExtCall r1 a1 (storage s0)]
    end.
    unfold logged, sent in *. cbn [storage balance events calls] in *.
    cbn [map call_amount]. unfold total. cbn [foldr].
    split; [f_equal; lia | lia].
Qed.

Lemma distribute_silent accepts m id s s' :
  silent accepts ->
  run accepts m (DistributePrizes id) s = Ok s' ->
  exists cs,
    calls s' = calls s ++ cs /\
    events s' = events s ++ prize_events id cs /\
    balance s' + total (map call_amount cs) = balance s /\
    hackathons (storage s') =
      <[id := set_prizesDistributed true (hackathons (storage s) !!! id)]>
        (hackathons (storage s)) /\
    _paused (storage s') = _paused (storage s).
Proof.
  intros Hq H. unfold run in H.
  apply execute_Ok in H. destruct H as ([Hp|Hv] & u & H); [discriminate|].
  rewrite Hv, credit_zero in H. cbn [dispatch] in H.
  unfold distributePrizes, onlyOrganizer, whenNotPaused, nonReentrant, hackathonExists in H.
  inv_M.
  match goal with
  | H : pay_winners _ _ _ _ = Ok _ |- _ =>
    destruct (pay_winners_silent _ _ _ _ _ _ _ Hq H) as (cs & -> & Hle)
  end.
  exists cs. cbn in Hle |- *. repeat split; try reflexivity. lia.
Qed.

Lemma withdraw_silent accepts m s s' :
  silent accepts ->
  run accepts m Withdraw s = Ok s' ->
  storage s' = storage s /\ balance s' = 0 /\
  events s' = events s ++ [Withdrawn (organizer (storage s)) (balance s)] /\
  calls s' = calls s ++ [mkExtCall (organizer (storage s)) (balance s)
                           (set_status ENTERED (storage s))].
Proof.
  intros Hq H. unfold run in H. apply withdraw_Ok in H. cbv zeta in H.
  destruct H as ((_ & _ & _ & Hst) & _ & frames & reentry & s1 & _ & A & -> & _ & ->).
  rewrite (Hq _ _ _ _ A). cbn. repeat split; try reflexivity; try lia.
  unfold set_status. destruct (storage s); cbn in *. congruence.
Qed.

Lemma accept_all_silent : silent accept_all.
Proof. intros r amt s reentry H. inversion H. reflexivity. Qed.

(** ** Frame and conservation *)

(** X11: what a successful call can do to a record it is not about.  The
    money side of the record ([totalFunding] and the funded, distributed
    and exists flags) is as before and an ended record stays ended.  The
    record is untouched altogether unless the call is one that pays
    (distribute, withdraw) and a recipient calls back: the only way
    another record changes is the organizer's code replacing its winners
    or ending it from inside a payment. *)
Theorem other_records_untouched accepts m c s s' id
  (Hrun : run accepts m c s = Ok s')
  (Hother : target c <> Some id) :
  let h := hackathons (storage s) !!! id in
  let h' := hackathons (storage s') !!! id in
  (totalFunding h' = totalFunding h /\ isFunded h' = isFunded h /\
   prizesDistributed h' = prizesDistributed h /\ exists_ h' = exists_ h /\
   (isEnded h = true -> isEnded h' = true)) /\
  (winners h' = winners h \/ valid_winners (winners h')) /\
  (pays c = false \/ silent accepts -> h' = h).
Proof.
  cbv zeta.
  assert (Hev : forall h h', evolves h h' ->
            (totalFunding h' = totalFunding h /\ isFunded h' = isFunded h /\
             prizesDistributed h' = prizesDistributed h /\ exists_ h' = exists_ h /\
             (isEnded h = true -> isEnded h' = true)) /\
            (winners h' = winners h \/ valid_winners (winners h'))).
  { intros h h' [F G D X E N W]. split; [auto|]. destruct W as [W|(_ & _ & _ & V)]; auto. }
  assert (Hsame : forall h h' : Hackathon, h' = h ->
            ((totalFunding h' = totalFunding h /\ isFunded h' = isFunded h /\
              prizesDistributed h' = prizesDistributed h /\ exists_ h' = exists_ h /\
              (isEnded h = true -> isEnded h' = true)) /\
             (winners h' = winners h \/ valid_winners (winners h'))) /\ h' = h).
  { intros h h' ->. auto 10. }
  pose proof Hrun as Hrun'. unfold run in Hrun.
  destruct c as [id'|id' ws|id'|id'| | | |]; cbn in Hother.
  - apply fund_Ok in Hrun. cbv zeta in Hrun. destruct Hrun as (_ & _ & _ & ->). cbn.
    rewrite lookup_total_insert_ne by congruence.
    destruct (Hsame _ _ (eq_refl (hackathons (storage s) !!! id))) as ((? & ?) & ?). auto.
  - apply setWinners_Ok in Hrun. cbv zeta in Hrun. destruct Hrun as (_ & _ & _ & ->). cbn.
    rewrite lookup_total_insert_ne by congruence.
    destruct (Hsame _ _ (eq_refl (hackathons (storage s) !!! id))) as ((? & ?) & ?). auto.
  - apply distribute_effect in Hrun. cbv zeta in Hrun.
    destruct Hrun as (cs & _ & _ & _ & _ & _ & _ & R & _).
    assert (Hne : id <> id') by congruence.
    destruct (Hev _ _ (R id Hne)) as (? & ?). split; [assumption|]. split; [assumption|].
    intros [Hp|Hq]; [discriminate Hp|].
    destruct (distribute_silent _ _ _ _ _ Hq Hrun') as (cs' & _ & _ & _ & -> & _).
    apply lookup_total_insert_ne. congruence.
  - apply endHackathon_Ok in Hrun. cbv zeta in Hrun. destruct Hrun as (_ & _ & ->). cbn.
    rewrite lookup_total_insert_ne by congruence.
    destruct (Hsame _ _ (eq_refl (hackathons (storage s) !!! id))) as ((? & ?) & ?). auto.
  - apply withdraw_Ok in Hrun. cbv zeta in Hrun.
    destruct Hrun as (_ & _ & frames & reentry & s1 & _ & _ & _ & R & ->).
    destruct (Hev _ _ (re_records _ _ R id)) as (? & ?). cbn in *.
    split; [assumption|]. split; [assumption|].
    intros [Hp|Hq]; [discriminate Hp|].
    destruct (withdraw_silent _ _ _ _ Hq Hrun') as (E & _).
    apply (f_equal hackathons) in E. cbn in E. rewrite E. reflexivity.
  - apply pause_Ok in Hrun. cbv zeta in Hrun. destruct Hrun as (_ & ->). cbn.
    destruct (Hsame _ _ (eq_refl (hackathons (storage s) !!! id))) as ((? & ?) & ?). auto.
  - apply unpause_Ok in Hrun. cbv zeta in Hrun. destruct Hrun as (_ & ->). cbn.
    destruct (Hsame _ _ (eq_refl (hackathons (storage s) !!! id))) as ((? & ?) & ?). auto.
  - apply receive_Ok in Hrun. subst s'. cbn.
    destruct (Hsame _ _ (eq_refl (hackathons (storage s) !!! id))) as ((? & ?) & ?). auto.
Qed.

Lemma other_records_untouched_witness :
  totalFunding (hackathons (storage ended_and_funded) !!! 2) = 40 /\
  (run accept_all by_alice (DistributePrizes 1) ended_and_funded = Ok paid_beside /\
   hackathons (storage paid_beside) !!! 2
   = hackathons (storage ended_and_funded) !!! 2) /\
  (run busy by_alice (DistributePrizes 1) ended_and_funded = Ok paid_busy /\
   totalFunding (hackathons (storage paid_busy) !!! 2) = 40 /\
   winners (hackathons (storage paid_busy) !!! 2) = [31] /\
   isEnded (hackathons (storage paid_busy) !!! 2) = true).
Proof.
  assert (Hne : target (DistributePrizes 1) <> Some 2) by (cbn; intros E; discriminate E).
  split; [vm_compute; reflexivity|]. split.
  - assert (H : run accept_all by_alice (DistributePrizes 1) ended_and_funded
                = Ok paid_beside) by (vm_compute; reflexivity).
    split; [exact H|].
    apply (other_records_untouched _ _ _ _ _ 2 H Hne).
    right. exact accept_all_silent.
  - assert (H : run busy by_alice (DistributePrizes 1) ended_and_funded = Ok paid_busy)
      by (vm_compute; reflexivity).
    split; [exact H|].
    destruct (other_records_untouched _ _ _ _ _ 2 H Hne) as ((F & _) & _).
    split; [rewrite F; vm_compute; reflexivity|].
    split; vm_compute; reflexivity.
Defined.

(** X12: the contract never loses more than it pays.  After a successful
    call, the new balance plus the amounts of the payments made is at
    least the old balance plus the value the message carried; the two are
    equal when the call is not one that pays, or when no recipient calls
    back (a recipient that calls back can only add value, through
    [receive]). *)
Theorem value_conserved accepts m c s s'
  (Hrun : run accepts m c s = Ok s') :
  exists cs,
    calls s' = calls s ++ cs /\
    balance s + msg_value m <= balance s' + total (map call_amount cs) /\
    (pays c = false \/ silent accepts ->
     balance s' + total (map call_amount cs) = balance s + msg_value m).
Proof.
  pose proof Hrun as Hrun'. unfold run in Hrun.
  destruct c as [id|id ws|id|id| | | |].
  - apply fund_Ok in Hrun. cbv zeta in Hrun. destruct Hrun as (_ & _ & _ & ->).
    exists []. cbn. rewrite app_nil_r. split; [reflexivity|]. unfold total. cbn.
    split; [lia | intros _; lia].
  - apply setWinners_Ok in Hrun. cbv zeta in Hrun.
    destruct Hrun as ((_ & Hv & _) & _ & _ & ->).
    exists []. cbn. rewrite app_nil_r. split; [reflexivity|]. unfold total. cbn.
    split; [lia | intros _; lia].
  - pose proof (distribute_Ok _ _ _ _ _ _ Hrun) as Pre. cbv zeta in Pre.
    destruct Pre as ((_ & Hv & _) & _).
    apply distribute_effect in Hrun. cbv zeta in Hrun.
    destruct Hrun as (cs & Hcs & _ & Ht & _ & B & _).
    exists cs. split; [exact Hcs|]. rewrite Ht, Hv. split; [lia|].
    intros [Hp|Hq]; [discriminate Hp|].
    destruct (distribute_silent _ _ _ _ _ Hq Hrun') as (cs' & Hcs' & _ & B' & _).
    rewrite Hcs in Hcs'. apply app_inv_head in Hcs'. subst cs'. rewrite Ht in B'. lia.
  - apply endHackathon_Ok in Hrun. cbv zeta in Hrun. destruct Hrun as ((_ & Hv & _) & _ & ->).
    exists []. cbn. rewrite app_nil_r. split; [reflexivity|]. unfold total. cbn.
    split; [lia | intros _; lia].
  - apply withdraw_Ok in Hrun. cbv zeta in Hrun.
    destruct Hrun as ((_ & Hv & _) & _ & frames & reentry & s1 & _ & _ & _ & R & ->).
    pose proof (re_calls _ _ R) as C. pose proof (re_balance _ _ R) as B. cbn in C, B |- *.
    eexists. split; [exact C|]. unfold total. cbn. split; [lia|].
    intros [Hp|Hq]; [discriminate Hp|].
    destruct (withdraw_silent _ _ _ _ Hq Hrun') as (_ & B' & _). cbn in B'. lia.
  - apply pause_Ok in Hrun. cbv zeta in Hrun. destruct Hrun as ((_ & Hv & _) & ->).
    exists []. cbn. rewrite app_nil_r. split; [reflexivity|]. unfold total. cbn.
    split; [lia | intros _; lia].
  - apply unpause_Ok in Hrun. cbv zeta in Hrun. destruct Hrun as ((_ & Hv & _) & ->).
    exists []. cbn. rewrite app_nil_r. split; [reflexivity|]. unfold total. cbn.
    split; [lia | intros _; lia].
  - apply receive_Ok in Hrun. subst s'.
    exists []. cbn. rewrite app_nil_r. split; [reflexivity|]. unfold total. cbn.
    split; [lia | intros _; lia].
Qed.

Lemma value_conserved_witness :
  (run accept_all by_alice (DistributePrizes 1) ended = Ok distributed /\
   exists cs,
     calls distributed = calls ended ++ cs /\
     balance distributed + total (map call_amount cs) = 101) /\
  (exists s' cs,
     run (paying_back 12) by_alice (DistributePrizes 1) ended = Ok s' /\
     calls s' = calls ended ++ cs /\
     total (map call_amount cs) = 101 /\ balance s' = 30).
Proof.
  split.
  - assert (H : run accept_all by_alice (DistributePrizes 1) ended = Ok distributed)
      by (vm_compute; reflexivity).
    split; [exact H|].
    destruct (value_conserved _ _ _ _ _ H) as (cs & H1 & _ & H3).
    exists cs. split; [exact H1|]. rewrite H3 by (right; exact accept_all_silent).
    vm_compute. reflexivity.
  - eexists. eexists. split; [vm_compute; reflexivity|].
    split; [vm_compute; reflexivity|]. split; vm_compute; reflexivity.
Defined.

(** ** Views *)

(** X13: [getWinners] reads back what [setWinners] stored: after a
    successful [setWinners] for an id the view returns that list, and the
    view of every other id is as before; on an id whose record does not
    exist the view reverts. *)
Theorem getWinners_after_set accepts m id ws s s'
  (Hrun : run accepts m (SetWinners id ws) s = Ok s') :
  view (getWinners id) s' = Ok ws /\
  (forall id', id' <> id -> view (getWinners id') s' = view (getWinners id') s) /\
  (forall id', exists_ (hackathons (storage s') !!! id') = false ->
     view (getWinners id') s' = Revert "Hackathon does not exist").
Proof.
  unfold run in Hrun. apply setWinners_Ok in Hrun. cbv zeta in Hrun.
  destruct Hrun as (_ & (He & _) & _ & ->).
  unfold view, getWinners, bind, read, require, get, ret. cbn. split; [|split].
  - rewrite lookup_total_insert_eq. cbn. rewrite He. cbn.
    rewrite lookup_total_insert_eq. reflexivity.
  - intros id' Hne. rewrite lookup_total_insert_ne by congruence.
    destruct (exists_ (hackathons (storage s) !!! id')); cbn; [|reflexivity].
    rewrite lookup_total_insert_ne by congruence. reflexivity.
  - intros id' E. rewrite E. reflexivity.
Qed.

Lemma getWinners_after_set_witness :
  run accept_all by_alice (SetWinners 1 [11; 12; 13]) funded = Ok with_winners /\
  view (getWinners 1) with_winners = Ok [11; 12; 13] /\
  view (getWinners 2) with_winners = Revert "Hackathon does not exist".
Proof.
  assert (H : run accept_all by_alice (SetWinners 1 [11; 12; 13]) funded = Ok with_winners)
    by (vm_compute; reflexivity).
  split; [exact H|].
  destruct (getWinners_after_set _ _ _ _ _ _ H) as (H1 & _ & H3).
  split; [exact H1|]. apply H3. vm_compute. reflexivity.
Defined.

(** ** Running the code forwards *)

Lemma bind_run {A B} (c : M A) (k : A -> M B) s a s1 :
  c s = Ok (a, s1) -> bind c k s = k a s1.
Proof. unfold bind. intros ->. reflexivity. Qed.

Lemma checked_mul_run a b s :
  a * b <= uint256_max -> checked (checked_mul a b) s = Ok (a * b, s).
Proof.
  intros H. unfold checked, checked_mul. apply N.leb_le in H. rewrite H. reflexivity.
Qed.

Lemma checked_add_run a b s :
  a + b <= uint256_max -> checked (checked_add a b) s = Ok (a + b, s).
Proof.
  intros H. unfold checked, checked_add. apply N.leb_le in H. rewrite H. reflexivity.
Qed.

Lemma checked_sub_run a b s :
  b <= a -> checked (checked_sub a b) s = Ok (a - b, s).
Proof.
  intros H. unfold checked, checked_sub. apply N.leb_le in H. rewrite H. reflexivity.
Qed.

Lemma winner_at_run h i w s :
  winners h !! i = Some w -> winner_at h i s = Ok (w, s).
Proof. unfold winner_at. intros ->. reflexivity. Qed.

(** A transfer to a recipient that takes it and calls nothing back. *)
Lemma safeTransfer_quiet accepts frames r amt id s :
  amt <= balance s -> quiet accepts r ->
  _safeTransfer (external_call accepts (S frames)) r amt id s =
  Ok (tt, mkState (storage s) (balance s - amt)
            (events s ++ prize_events id [mkExtCall r amt (storage s)])
            (calls s ++ [mkExtCall r amt (storage s)])).
Proof.
  intros Hb Hq. rewrite (safeTransfer_run accepts frames r amt id s []);
    [reflexivity | exact Hb | apply Hq].
Qed.

Lemma split_sum tf : tf * 50 / 100 + tf * 30 / 100 <= tf.
Proof.
  pose proof (N.Div0.mul_div_le (tf * 50) 100).
  pose proof (N.Div0.mul_div_le (tf * 30) 100).
  lia.
Qed.

Lemma split_half tf : tf * 50 / 100 <= tf.
Proof. pose proof (N.Div0.mul_div_le (tf * 50) 100). lia. Qed.

Lemma split_seventy tf : tf * 70 / 100 <= tf.
Proof. pose proof (N.Div0.mul_div_le (tf * 70) 100). lia. Qed.

Ltac run_bind lem :=
  erewrite bind_run; [|apply lem; first [eassumption | lia | reflexivity]];
  cbv beta zeta.

Ltac run_read :=
  erewrite bind_run by (unfold read, bind, get, ret; reflexivity); cbv beta zeta.

(** The payout phase succeeds when the amounts fit in a word, the balance
    covers [totalFunding] and the winners take their payments without
    calling back. *)
Lemma pay_winners_run accepts frames id s :
  let h := hackathons (storage s) !!! id in
  winners h <> [] ->
  totalFunding h * 70 <= uint256_max ->
  totalFunding h <= balance s ->
  (forall w, w ∈ winners h -> quiet accepts w) ->
  exists s1,
    pay_winners (external_call accepts (S frames)) (length (winners h)) id s
      = Ok (totalFunding h, s1) /\
    storage s1 = storage s /\
    balance s1 = balance s - totalFunding h.
Proof.
  cbv zeta. intros Hne Hmax Hbal Hacc.
  pose proof (split_sum (totalFunding (hackathons (storage s) !!! id))) as S3.
  pose proof (split_seventy (totalFunding (hackathons (storage s) !!! id))) as S2.
  pose proof (split_half (totalFunding (hackathons (storage s) !!! id))) as S1.
  unfold pay_winners.
  destruct (winners (hackathons (storage s) !!! id)) as [|w0 [|w1 [|w2 ws]]] eqn:Ew;
    [congruence| | |].
  - cbn [length Nat.eqb]. unfold pay_one.
    run_read. run_read.
    erewrite bind_run by (apply winner_at_run; rewrite Ew; reflexivity). cbv beta zeta.
    erewrite bind_run
      by (apply safeTransfer_quiet; [exact Hbal | apply Hacc, list_elem_of_here]).
    cbv beta zeta. rewrite checked_add_run by lia. rewrite N.add_0_l. eauto.
  - cbn [length Nat.eqb]. unfold pay_two.
    run_read. run_bind checked_mul_run. run_bind checked_sub_run. run_read.
    erewrite bind_run by (apply winner_at_run; rewrite Ew; reflexivity). cbv beta zeta.
    erewrite bind_run
      by (apply safeTransfer_quiet; [lia | apply Hacc, list_elem_of_here]).
    cbv beta zeta. run_bind checked_add_run. run_read.
    erewrite bind_run by (apply winner_at_run; cbn [storage]; rewrite Ew; reflexivity).
    cbv beta zeta.
    erewrite bind_run
      by (apply safeTransfer_quiet;
          [cbn [balance]; lia | apply Hacc; apply list_elem_of_further, list_elem_of_here]).
    cbv beta zeta. rewrite checked_add_run by lia.
    eexists. split; [f_equal; f_equal; lia|]. split; [reflexivity|]. cbn. lia.
  - destruct ws as [|w3 ws].
    + cbn [length Nat.eqb]. unfold pay_three.
      run_read. run_bind checked_mul_run. run_bind checked_mul_run.
      run_bind checked_sub_run. run_bind checked_sub_run. run_read.
      erewrite bind_run by (apply winner_at_run; rewrite Ew; reflexivity). cbv beta zeta.
      erewrite bind_run
        by (apply safeTransfer_quiet; [lia | apply Hacc, list_elem_of_here]).
      cbv beta zeta. run_bind checked_add_run. run_read.
      erewrite bind_run by (apply winner_at_run; cbn [storage]; rewrite Ew; reflexivity).
      cbv beta zeta.
      erewrite bind_run
        by (apply safeTransfer_quiet;
            [cbn [balance]; lia
            | apply Hacc; apply list_elem_of_further, list_elem_of_here]).
      cbv beta zeta. run_bind checked_add_run. run_read.
      erewrite bind_run by (apply winner_at_run; cbn [storage]; rewrite Ew; reflexivity).
      cbv beta zeta.
      erewrite bind_run
        by (apply safeTransfer_quiet;
            [cbn [balance]; lia
            | apply Hacc; do 2 apply list_elem_of_further; apply list_elem_of_here]).
      cbv beta zeta. rewrite checked_add_run by lia.
      eexists. split; [f_equal; f_equal; lia|]. split; [reflexivity|]. cbn. lia.
    + cbn [length Nat.eqb]. unfold pay_one.
      run_read. run_read.
      erewrite bind_run by (apply winner_at_run; rewrite Ew; reflexivity). cbv beta zeta.
      erewrite bind_run
        by (apply safeTransfer_quiet; [exact Hbal | apply Hacc, list_elem_of_here]).
      cbv beta zeta. rewrite checked_add_run by lia. rewrite N.add_0_l. eauto.
Qed.

(** ** Distribution goes through *)

(** X14: in a reachable state, the organizer's [distributePrizes] for a
    funded, ended, undistributed record with winners succeeds as soon as
    the contract is not paused, [totalFunding * 70] fits in a [uint256]
    and each winner takes its payment without calling back into the
    contract: the balance check cannot fail.  It marks the record
    distributed, changes nothing else of the records and takes exactly
    [totalFunding] out of the balance. *)
Theorem distribute_succeeds accepts m id s
  (Hreach : reachable s)
  (Ho : msg_sender m = organizer (storage s))
  (Hv : msg_value m = 0)
  (Hp : _paused (storage s) = false)
  (Hf : isFunded (hackathons (storage s) !!! id) = true)
  (Hw : winners (hackathons (storage s) !!! id) <> [])
  (Hd : prizesDistributed (hackathons (storage s) !!! id) = false)
  (He : isEnded (hackathons (storage s) !!! id) = true)
  (Hmax : totalFunding (hackathons (storage s) !!! id) * 70 <= uint256_max)
  (Hacc : forall w,
     w ∈ winners (hackathons (storage s) !!! id) -> quiet accepts w) :
  exists s',
    run accepts m (DistributePrizes id) s = Ok s' /\
    hackathons (storage s') =
      <[id := set_prizesDistributed true (hackathons (storage s) !!! id)]>
        (hackathons (storage s)) /\
    balance s' = balance s - totalFunding (hackathons (storage s) !!! id).
Proof.
  pose proof (inv_status _ (reachable_invariant s Hreach)) as Hst.
  pose proof (life_exists _ (reachable_lifecycle s Hreach) id) as Hex.
  rewrite Hf in Hex.
  pose proof (proj2 (reachable_solvent_aux s Hreach) id Hf Hd) as Hbal.
  destruct (pay_winners_run accepts (Nat.pred call_depth) id
              (set_storage (set_status ENTERED) s))
    as (s1 & Hpay & Hs1 & Hb1); try assumption.
  cbn [storage set_storage set_status hackathons balance] in Hpay, Hb1.
  unfold run, execute. rewrite call_depth_S, Hv, credit_zero.
  cbn [payable orb dispatch].
  unfold distributePrizes, onlyOrganizer, whenNotPaused, nonReentrant, hackathonExists.
  remember (pay_winners (external_call accepts (S (Nat.pred call_depth)))) as P eqn:EP.
  unfold bind, require, get, read, write, modify, ret, _removeActiveHackathon.
  cbn. rewrite Ho, N.eqb_refl. cbn. rewrite Hp. cbn. rewrite Hst. cbn.
  rewrite Hex. cbn. rewrite Hf. cbn.
  destruct (winners (hackathons (storage s) !!! id)) eqn:Ew; [congruence|].
  cbn. rewrite Hd. cbn. rewrite He. cbn.
  apply N.leb_le in Hbal. rewrite Hbal. cbn.
  subst P. cbn [length] in Hpay. rewrite Hpay. cbn.
  rewrite Hs1. cbn. rewrite N.eqb_refl. cbn.
  eexists. split; [reflexivity|]. cbn. rewrite !Hs1. cbn.
  split; [reflexivity | exact Hb1].
Qed.

Lemma distribute_succeeds_witness :
  exists s',
    run accept_all by_alice (DistributePrizes 1) ended = Ok s' /\
    prizesDistributed (hackathons (storage s') !!! 1) = true /\
    balance s' = 0.
Proof.
  assert (Hw : winners (hackathons (storage ended) !!! 1) <> [])
    by (vm_compute; intros E; discriminate E).
  assert (Hmax : totalFunding (hackathons (storage ended) !!! 1) * 70 <= uint256_max)
    by (vm_compute; intros E; discriminate E).
  assert (Hacc : forall w,
            w ∈ winners (hackathons (storage ended) !!! 1) -> quiet accept_all w)
    by (intros w _ amt s; reflexivity).
  destruct (distribute_succeeds accept_all by_alice 1 ended reachable_ended
              eq_refl eq_refl eq_refl eq_refl Hw eq_refl eq_refl Hmax Hacc)
    as (s' & H1 & H2 & H3).
  exists s'. split; [exact H1|]. split.
  - rewrite H2, lookup_total_insert_eq. reflexivity.
  - rewrite H3. vm_compute. reflexivity.
Defined.

(** ** Funding goes through *)

(** X15: in a reachable state, the organizer's [fundHackathon] with a
    positive value for an id that is not funded succeeds when the contract
    is not paused; since an unfunded record does not exist yet, it always
    emits [HackathonCreated] and then [Funded], stores the value as
    [totalFunding], appends the id to the index and adds the value to the
    balance. *)
Theorem fund_succeeds accepts m id s
  (Hreach : reachable s)
  (Ho : msg_sender m = organizer (storage s))
  (Hp : _paused (storage s) = false)
  (Hf : isFunded (hackathons (storage s) !!! id) = false)
  (Hv : 0 < msg_value m) :
  exists s',
    run accepts m (FundHackathon id) s = Ok s' /\
    events s' = events s ++ [HackathonCreated id; Funded id (msg_value m)] /\
    totalFunding (hackathons (storage s') !!! id) = msg_value m /\
    activeHackathons (storage s') = activeHackathons (storage s) ++ [id] /\
    balance s' = balance s + msg_value m.
Proof.
  pose proof (inv_status _ (reachable_invariant s Hreach)) as Hst.
  pose proof (life_exists _ (reachable_lifecycle s Hreach) id) as Hex.
  rewrite Hf in Hex.
  assert (R : exists s', run accepts m (FundHackathon id) s = Ok s').
  { unfold run, execute. cbn [payable orb dispatch].
    unfold fundHackathon, onlyOrganizer, whenNotPaused, nonReentrant,
      bind, require, get, read, write, emit, modify, ret.
    cbn. rewrite Ho, N.eqb_refl. cbn. rewrite Hp. cbn. rewrite Hst. cbn.
    rewrite Hex. cbn. rewrite lookup_total_insert_eq. cbn. rewrite Hf. cbn.
    apply N.ltb_lt in Hv. rewrite Hv. cbn. eauto. }
  destruct R as [s' R]. exists s'. split; [exact R|].
  unfold run in R.
  apply fund_Ok in R. cbv zeta in R. destruct R as (_ & _ & _ & ->). cbn.
  rewrite Hex, lookup_total_insert_eq. cbn. auto.
Qed.

Lemma fund_succeeds_witness :
  exists s',
    run accept_all (mkMsg alice 40) (FundHackathon 2) ended = Ok s' /\
    events s' = events ended ++ [HackathonCreated 2; Funded 2 40] /\
    activeHackathons (storage s') = [1; 2].
Proof.
  assert (Hv : 0 < msg_value (mkMsg alice 40)) by (cbn; lia).
  destruct (fund_succeeds accept_all (mkMsg alice 40) 2 ended reachable_ended
              eq_refl eq_refl eq_refl Hv)
    as (s' & H1 & H2 & _ & H4 & _).
  exists s'. split; [exact H1|]. split; [exact H2|]. rewrite H4. vm_compute. reflexivity.
Defined.

(** ** The events of a distribution *)

(** X29: a successful distribution for a hackathon id other than 0, from a
    reachable state, makes one payment per winner it started with and
    logs exactly one [PrizeDistributed] per payment, in the order of the
    payments, each with the recipient and the amount of its payment.
    Events of the organizer's calls back ([WinnersSet], [HackathonEnded],
    [Paused], [Unpaused]) may come in between; with recipients that call
    nothing back the [PrizeDistributed] events are all there is. *)
Theorem distribute_events accepts m id s s'
  (Hreach : reachable s)
  (Hid : 0 < id)
  (Hrun : run accepts m (DistributePrizes id) s = Ok s') :
  let h := hackathons (storage s) !!! id in
  exists cs evs,
    calls s' = calls s ++ cs /\
    length cs = length (winners h) /\
    events s' = events s ++ evs /\
    List.filter is_prize evs =
      map (fun c => PrizeDistributed id (call_recipient c) (call_amount c)) cs /\
    (silent accepts -> List.filter is_prize evs = evs).
Proof.
  cbv zeta. pose proof Hrun as Hrun'. unfold run in Hrun.
  pose proof (distribute_Ok _ _ _ _ _ _ Hrun) as Pre. cbv zeta in Pre.
  destruct Pre as (_ & (_ & _ & Hne & _) & _).
  apply distribute_effect in Hrun. cbv zeta in Hrun.
  destruct Hrun as (cs & Hcs & Hamt & _ & _ & _ & _ & _ & (evs & Hev & Hf) & _).
  exists cs, evs. split; [exact Hcs|]. split.
  - rewrite <- (length_map call_amount), Hamt. apply prize_amounts_length.
    pose proof (inv_winners _ (reachable_invariant _ Hreach) id).
    destruct (winners _); [congruence | cbn in *; lia].
  - split; [exact Hev|].
    assert (Hp : prize_events id cs =
                 map (fun c => PrizeDistributed id (call_recipient c) (call_amount c)) cs).
    { unfold prize_events. apply N.ltb_lt in Hid. rewrite Hid. reflexivity. }
    split; [rewrite Hf; exact Hp|].
    intros Hq. destruct (distribute_silent _ _ _ _ _ Hq Hrun') as (cs' & Hcs' & Hev' & _).
    rewrite Hcs in Hcs'. apply app_inv_head in Hcs'. subst cs'.
    rewrite Hev in Hev'. apply app_inv_head in Hev'. rewrite Hev'.
    apply filter_prize_events.
Qed.

Lemma distribute_events_witness :
  reachable ended /\ 0 < 1 /\
  run accept_all by_alice (DistributePrizes 1) ended = Ok distributed /\
  exists cs evs,
    calls distributed = calls ended ++ cs /\
    length cs = 3%nat /\
    events distributed = events ended ++ evs /\
    List.filter is_prize evs =
      map (fun c => PrizeDistributed 1 (call_recipient c) (call_amount c)) cs.
Proof.
  assert (H : run accept_all by_alice (DistributePrizes 1) ended = Ok distributed)
    by (vm_compute; reflexivity).
  assert (Hid : 0 < 1) by lia.
  split; [exact reachable_ended|]. split; [exact Hid|]. split; [exact H|].
  destruct (distribute_events _ _ _ _ _ reachable_ended Hid H) as (cs & evs & H1 & H2 & H3 & H4 & _).
  exists cs, evs. split; [exact H1|]. split; [|split; [exact H3 | exact H4]].
  rewrite H2. vm_compute. reflexivity.
Defined.

(** X30: a hackathon that could be ended cannot be funded afterwards.  From
    a reachable state, a successful [endHackathon] means that the record
    exists, which it does through funding alone; so after it, whatever
    transactions come in between, every [fundHackathon] for the same id
    reverts and changes nothing. *)
Theorem ended_then_fund_reverts accepts m id s s1
  (Hreach : reachable s)
  (Hend : run accepts m (EndHackathon id) s = Ok s1) :
  isFunded (hackathons (storage s) !!! id) = true /\
  forall txs accepts' m',
    let s2 := transact_all txs s1 in
    (exists r, run accepts' m' (FundHackathon id) s2 = Revert r) /\
    transact accepts' m' (FundHackathon id) s2 = s2.
Proof.
  pose proof (life_exists _ (reachable_lifecycle s Hreach) id) as Le.
  assert (Hs1 : s1 = transact accepts m (EndHackathon id) s)
    by (unfold transact; rewrite Hend; reflexivity).
  unfold run in Hend. apply endHackathon_Ok in Hend. cbv zeta in Hend.
  destruct Hend as (_ & (E & _) & _).
  assert (Hf : isFunded (hackathons (storage s) !!! id) = true) by congruence.
  split; [exact Hf|]. intros txs accepts' m'. cbv zeta.
  destruct (step_keeps_funding accepts m (EndHackathon id) s id) as [S1 _].
  destruct (S1 Hf) as [Hf1 _]. rewrite <- Hs1 in Hf1.
  destruct (transact_all_keeps_funding txs s1 id) as [S2 _].
  destruct (S2 Hf1) as [Hf2 _].
  assert (R : exists r, run accepts' m' (FundHackathon id) (transact_all txs s1) = Revert r).
  { destruct (run_cases accepts' m' (FundHackathon id) (transact_all txs s1))
      as [[s' H]|H]; [exfalso | exact H].
    unfold run in H. apply fund_Ok in H. cbv zeta in H.
    destruct H as (_ & Hu & _). congruence. }
  split; [exact R|]. destruct R as [r R]. unfold transact. rewrite R. reflexivity.
Qed.

Lemma ended_then_fund_reverts_witness :
  reachable with_winners /\
  run accept_all by_alice (EndHackathon 1) with_winners = Ok ended /\
  run accept_all (mkMsg alice 5) (FundHackathon 1) ended
    = Revert "Hackathon already funded" /\
  exists r,
    run accept_all (mkMsg alice 5) (FundHackathon 1)
      (transact_all [mkTx accept_all by_alice (DistributePrizes 1)] ended) = Revert r.
Proof.
  assert (Hr : reachable with_winners).
  { unfold with_winners, funded. repeat apply reach_step. apply reach_deployed. }
  assert (H : run accept_all by_alice (EndHackathon 1) with_winners = Ok ended)
    by (vm_compute; reflexivity).
  split; [exact Hr|]. split; [exact H|]. split; [vm_compute; reflexivity|].
  exact (proj1 (proj2 (ended_then_fund_reverts _ _ _ _ _ Hr H)
                  [mkTx accept_all by_alice (DistributePrizes 1)]
                  accept_all (mkMsg alice 5))).
Defined.

End LedgerExtras.

(** * Further properties of the settlement orchestrator *)

Module OrchestratorExtras.

Import Orchestrator OrchestratorViews OrchestratorProofs OrchestratorExamples.

Section Gates.

Context {Number : Type}.
Variable gt0 le0 falsy : Number -> bool.
Variable parseFloat : string -> Number.
Variable parseEther : string -> option N.
Variable isAddress : string -> bool.
Variable env : Env.

Abbreviation handle' := (handler gt0 le0 falsy parseFloat parseEther isAddress env).

Ltac run_step :=
  cbv beta iota;
  lazymatch goal with
  | |- post (bind _ _) _ _ => apply post_bind
  | |- post (ret _) _ _ => apply post_ret
  | |- post (respond _) _ _ => apply post_respond
  | |- post (throw _) _ _ => apply post_throw
  | |- post (reject_if _ _ _) _ _ => apply post_reject_if; intros ?
  | |- post (select_hackathon _ (Some _)) _ _ =>
      apply post_select; [intros ? ? | intros ?]
  | |- post (select_hackathon _ None) _ _ => apply post_select_nan
  | |- post (select_hackathon _ ?x) _ _ => destruct x eqn:?
  | |- post (contract_call _ _) _ _ => apply post_contract_call; intros ? ?
  | |- post (tx_wait _ _) _ _ => apply post_tx_wait; [intros ? | intros ? ?]
  | |- post (update_hackathon _ _ _) _ _ =>
      apply post_update; [intros ? ? | intros ?]
  | |- post (check_addresses _ _) _ _ =>
      apply post_check_addresses; [| intros ?]
  | |- post (match ?x with _ => _ end) _ _ => destruct x eqn:?
  end.

(** Run a handler symbolically: one goal per path through it, about the
    response and the world that path ends in. *)
Ltac run_handler c :=
  destruct c; cbn [handler];
  unfold end_handler, fund_handler, set_winners_handler, distribute_handler;
  repeat match goal with
  | |- context [match params_id ?r with _ => _ end] =>
      destruct (params_id r) eqn:?
  | |- context [if negb (is_organizer ?r) then _ else _] =>
      destruct (negb (is_organizer r)) eqn:?
  | |- context [match body_winners ?r with _ => _ end] =>
      destruct (body_winners r) as [[|? ?]|] eqn:?
  end;
  try (match goal with
       | |- context [try_catch ?b ?h ?w] =>
           pattern (fst (try_catch b h w)), (snd (try_catch b h w));
           apply post_try_catch
       end; repeat run_step);
  cbv beta iota; cbn [fst snd response_of db trace].

Lemma not_organizer req :
  role (user req) <> "organizer" -> negb (is_organizer req) = true.
Proof.
  intros H. unfold is_organizer. apply negb_true_iff. apply String.eqb_neq. exact H.
Qed.

(** X16: a requester whose role is not organizer is turned away before
    anything is read or sent: the world is untouched, and the answer is
    403, or 400 for an id that is not a number where the handler checks
    the id first. *)
Theorem role_gate c req (w : @World Number)
  (Hrole : role (user req) <> "organizer") :
  snd (handle' c req w) = w /\
  ((exists e, fst (handle' c req w) = Error 403 e) \/
   (params_id req = None /\
    fst (handle' c req w) = Error 400 "Invalid hackathon ID")).
Proof.
  apply not_organizer in Hrole.
  destruct c; cbn [handler];
    unfold end_handler, fund_handler, set_winners_handler, distribute_handler;
    rewrite ?Hrole; destruct (params_id req); cbn; eauto.
Qed.

Ltac trace_eq :=
  cbn [trace]; rewrite <- ?app_assoc; cbn [app];
  first [ reflexivity | symmetry; apply app_nil_r ].

(** X17: one ledger operation at most, and none for a refused command.
    A run of a handler submits at most one ledger operation; when it
    answers with a status other than 500 (a refusal: 400, 403 or 404) it
    submitted nothing and wrote nothing. *)
Theorem refusal_sends_nothing c req (w : @World Number) :
  exists es,
    trace (snd (handle' c req w)) = trace w ++ es /\
    (length (List.filter is_submit es) <= 1)%nat /\
    (forall code e,
       fst (handle' c req w) = Error code e -> code <> 500%nat ->
       List.filter is_submit es = [] /\ List.filter is_update es = [] /\
       db (snd (handle' c req w)) = db w).
Proof.
  run_handler c.
  all: eexists; split; [trace_eq|]; split; [cbn; lia|].
  all: intros code0 e0 E0 Hc0; inversion E0; subst; try congruence; cbn; auto.
Qed.

(** X18: a handler writes one row and only its own columns.  After any run,
    the rows are the same ids as before; a row other than the addressed
    one is unchanged; and every row keeps its organizer, keeps the columns
    the command is not there to write, and keeps [manually_ended] and
    [prizes_distributed] once they are set. *)
Theorem handler_frame c req (w : @World Number) :
  let w' := snd (handle' c req w) in
  dom (db w') = dom (db w) /\
  (forall j, params_id req <> Some j -> db w' !! j = db w !! j) /\
  (forall j r', db w' !! j = Some r' ->
     exists r, db w !! j = Some r /\ kept_by c r r').
Proof.
  cbv zeta.
  assert (K : forall (c : Command) (r : Row Number), kept_by c r r).
  { intros c0 r. unfold kept_by. repeat split; auto. }
  run_handler c.
  all: try (split; [reflexivity|]; split; [reflexivity|]; intros j0 r0' E0; eauto).
  all: split; [apply dom_alter_L|]; split;
    [ intros j0 Hj0; apply lookup_alter_ne; cbn in *; congruence |].
  all: intros j0 r0' E0; rewrite lookup_alter in E0; case_decide;
    [ subst; apply fmap_Some in E0; destruct E0 as (r0 & Er0 & ->);
      exists r0; split; [exact Er0|];
      unfold kept_by; cbn; repeat split; auto; congruence
    | eauto ].
Qed.

(** X19: when the UPDATE itself rejects, the ledger operation has already
    been confirmed: the handler answers 500 and the projection stays
    behind the ledger. *)
Theorem update_failure_after_confirm c req (w : @World Number) es id
  (Htrace : trace (snd (handle' c req w)) = trace w ++ es)
  (Hfail : In (DbUpdate id false) es) :
  db (snd (handle' c req w)) = db w /\
  (exists e, fst (handle' c req w) = Error 500 e) /\
  exists op hash,
    es = [DbSelect id true; LedgerSubmit op true; LedgerWait hash true;
          DbUpdate id false] /\
    submit env op = inl hash /\ wait env hash = None.
Proof.
  revert Htrace Hfail. run_handler c.
  all: rewrite <- ?app_assoc; cbn [app]; intros Htrace Hfail.
  all: lazymatch type of Htrace with
       | trace ?w0 ++ _ = trace ?w0 ++ _ => apply app_inv_head in Htrace
       | trace ?w0 = trace ?w0 ++ ?es0 =>
           assert (es0 = []) by
             (apply (app_inv_head (trace w0)); rewrite app_nil_r; symmetry; exact Htrace);
           clear Htrace
       end.
  all: subst es; cbn in Hfail.
  all: repeat match goal with
       | H : _ \/ _ |- _ => destruct H as [H|H]
       | H : False |- _ => destruct H
       | H : _ = DbUpdate _ _ |- _ => inversion H; subst; clear H
       end.
  all: split; [reflexivity|]; split; [eexists; reflexivity|].
  all: eexists; eexists; split; [reflexivity|]; split; assumption.
Qed.

Lemma is_organizer_true req :
  role (user req) = "organizer" -> negb (is_organizer req) = false.
Proof. intros H. unfold is_organizer. rewrite H. reflexivity. Qed.

Lemma owner_true {A} (r : Row A) req :
  organizer_id r = user_id (user req) ->
  negb (organizer_id r =? user_id (user req))%Z = false.
Proof. intros ->. rewrite Z.eqb_refl. reflexivity. Qed.

Lemma owner_false {A} (r : Row A) req :
  organizer_id r <> user_id (user req) ->
  negb (organizer_id r =? user_id (user req))%Z = true.
Proof. intros H. apply negb_true_iff. apply Z.eqb_neq. exact H. Qed.

(** Run a handler along the path the given rewriting decides; [P] is the
    property of the response and the final world to establish. *)
Ltac run_with rw :=
  repeat (cbv beta iota; rw; cbn [negb]; run_step);
  cbv beta iota; rw; cbn [negb response_of].

Ltac enter_try P :=
  match goal with
  | |- context [try_catch ?b ?h ?w] =>
      change (P (fst (try_catch b h w)) (snd (try_catch b h w)));
      apply post_try_catch
  end.

(** X20: a command of an organizer who does not own the hackathon is
    refused with 403 after the row was read: nothing is submitted and
    nothing is written. *)
Theorem ownership_gate c req (w : @World Number) id r
  (Hrole : role (user req) = "organizer")
  (Hid : params_id req = Some id)
  (Hbody : c = SetWinners -> exists a ws, body_winners req = Some (a :: ws))
  (Hsel : select_error env = None)
  (Hrow : db w !! id = Some r)
  (Hother : organizer_id r <> user_id (user req)) :
  (exists e, fst (handle' c req w) = Error 403 e) /\
  snd (handle' c req w) = mkWorld (db w) (trace w ++ [DbSelect id true]).
Proof.
  apply is_organizer_true in Hrole. apply (owner_false r req) in Hother.
  pose (P := fun (resp : Response) (w' : @World Number) =>
          (exists e, resp = Error 403 e) /\
          w' = mkWorld (db w) (trace w ++ [DbSelect id true])).
  destruct c; cbn [handler];
    unfold end_handler, fund_handler, set_winners_handler, distribute_handler;
    rewrite ?Hid, ?Hrole.
  3:{ destruct Hbody as (a & ws & Hb); [reflexivity|]. rewrite Hb.
      enter_try P. run_with ltac:(rewrite ?Hrow, ?Hother);
        try congruence; subst P; cbn; eauto. }
  all: enter_try P; run_with ltac:(rewrite ?Hrow, ?Hother);
    try congruence; subst P; cbn; eauto.
Qed.

(** X21: the orchestrator's order.  For a hackathon that was not ended
    through the orchestrator, the owner's Fund, SetWinners and Distribute
    are refused with 400 after the row was read, and nothing is
    submitted to the ledger. *)
Theorem must_be_ended_first c req (w : @World Number) id r
  (Hcmd : c <> End_)
  (Hrole : role (user req) = "organizer")
  (Hid : params_id req = Some id)
  (Hbody : c = SetWinners -> exists a ws, body_winners req = Some (a :: ws))
  (Hsel : select_error env = None)
  (Hrow : db w !! id = Some r)
  (Howner : organizer_id r = user_id (user req))
  (Hopen : manually_ended r = false) :
  (exists e, fst (handle' c req w) = Error 400 e) /\
  snd (handle' c req w) = mkWorld (db w) (trace w ++ [DbSelect id true]).
Proof.
  apply is_organizer_true in Hrole. apply (owner_true r req) in Howner.
  pose (P := fun (resp : Response) (w' : @World Number) =>
          (exists e, resp = Error 400 e) /\
          w' = mkWorld (db w) (trace w ++ [DbSelect id true])).
  destruct c; [congruence| | |]; cbn [handler];
    unfold fund_handler, set_winners_handler, distribute_handler;
    rewrite ?Hid, ?Hrole.
  2:{ destruct Hbody as (a & ws & Hb); [reflexivity|]. rewrite Hb.
      enter_try P. run_with ltac:(rewrite ?Hrow, ?Howner, ?Hopen);
        try congruence; subst P; cbn; eauto. }
  all: enter_try P; run_with ltac:(rewrite ?Hrow, ?Howner, ?Hopen);
    try congruence; subst P; cbn; eauto.
Qed.

(** ** Commands that go through *)

Ltac unify_env :=
  repeat match goal with
  | H1 : ?x = ?a, H2 : ?x = ?b |- _ =>
      rewrite H1 in H2; first [discriminate H2 | inversion H2; subst; clear H2]
  end.

(** [check_addresses] stops at the first string that is not an address. *)
Lemma check_addresses_invalid pre bad rest (w : @World Number) :
  Forall (fun a => isAddress a = true) pre ->
  isAddress bad = false ->
  check_addresses isAddress (pre ++ bad :: rest) w
  = (Throw ("Invalid Ethereum address: " +:+ bad), w).
Proof.
  intros Hpre Hbad.
  induction Hpre as [|a pre Ha _ IH]; cbn [app check_addresses]; unfold bind, ret, throw.
  - rewrite Hbad. reflexivity.
  - rewrite Ha, IH. reflexivity.
Qed.

Lemma post_of_eq {A} (m : H A) (w : @World Number) o w' Q :
  m w = (o, w') -> Q o w' -> post m w Q.
Proof. unfold post. intros ->. auto. Qed.

Section Scenario.

Variables (req : Request) (id : Z).
Hypothesis Hrole : role (user req) = "organizer".
Hypothesis Hid : params_id req = Some id.
Hypothesis Hsel : select_error env = None.
Hypothesis Hupd : update_error env = None.

Lemma end_success (w : @World Number) r hash :
  db w !! id = Some r ->
  organizer_id r = user_id (user req) ->
  manually_ended r = false ->
  submit env (OpEnd id) = inl hash -> wait env hash = None ->
  handle' End_ req w =
  (Success "Hackathon ended successfully" hash,
   mkWorld (alter (ended_row (now env)) id (db w))
     (trace w ++ run_trace id (OpEnd id) hash)).
Proof.
  intros Hrow Howner Hopen Hsub Hwait.
  pose proof (is_organizer_true req Hrole) as Hrole'.
  apply (owner_true r req) in Howner.
  pose (P := fun (resp : Response) (w' : @World Number) =>
          (resp, w') =
          (Success "Hackathon ended successfully" hash,
           mkWorld (alter (ended_row (now env)) id (db w))
             (trace w ++ run_trace id (OpEnd id) hash))).
  cbn [handler]. unfold end_handler. rewrite Hid, Hrole'.
  match goal with |- ?t = _ => rewrite (surjective_pairing t) end.
  enter_try P.
  run_with ltac:(rewrite ?Hrow, ?Howner, ?Hopen; unify_env); try congruence.
  subst P. cbn. unfold run_trace. rewrite <- !app_assoc. reflexivity.
Qed.

(** X22: End through the orchestrator works once.  When the ledger
    confirms, the owner's End answers with the transaction hash and marks
    the row ended (status "ended", [manually_ended], its timestamp) and
    nothing else; the same command again is refused with 400 after the
    row was read, without a second ledger operation. *)
Theorem end_then_end (w : @World Number) r hash
  (Hrow : db w !! id = Some r)
  (Howner : organizer_id r = user_id (user req))
  (Hopen : manually_ended r = false)
  (Hsub : submit env (OpEnd id) = inl hash)
  (Hwait : wait env hash = None) :
  let w1 := snd (handle' End_ req w) in
  fst (handle' End_ req w) = Success "Hackathon ended successfully" hash /\
  db w1 !! id = Some (ended_row (now env) r) /\
  trace w1 = trace w ++ run_trace id (OpEnd id) hash /\
  fst (handle' End_ req w1) = Error 400 "Hackathon has already been ended" /\
  snd (handle' End_ req w1) = mkWorld (db w1) (trace w1 ++ [DbSelect id true]).
Proof using Hrole Hid Hsel Hupd.
  cbv zeta. rewrite (end_success w r hash Hrow Howner Hopen Hsub Hwait). cbn [fst snd].
  assert (Hrow1 : alter (ended_row (now env)) id (db w) !! id
                  = Some (ended_row (now env) r)).
  { rewrite lookup_alter_eq, Hrow. reflexivity. }
  split; [reflexivity|]. split; [exact Hrow1|]. split; [reflexivity|].
  set (w1 := mkWorld (alter (ended_row (now env)) id (db w))
               (trace w ++ run_trace id (OpEnd id) hash)) in *.
  pose proof (is_organizer_true req Hrole) as Hrole'.
  pose proof (owner_true (ended_row (now env) r) req Howner) as Howner1.
  pose (P := fun (resp : Response) (w' : @World Number) =>
          resp = Error 400 "Hackathon has already been ended" /\
          w' = mkWorld (db w1) (trace w1 ++ [DbSelect id true])).
  cbn [handler]. unfold end_handler. rewrite Hid, Hrole'.
  enter_try P.
  change (db w1 !! id = Some (ended_row (now env) r)) in Hrow1.
  run_with ltac:(rewrite ?Hrow1, ?Howner1; cbn [manually_ended ended_row]);
    try congruence; subst P; cbn; auto.
Qed.

(** X23: the settlement through the orchestrator stops at Fund when the
    ledger refuses it.  The owner's End is confirmed and marks the row
    ended; the owner's Fund then passes the orchestrator's checks and is
    submitted; when the ledger refuses it the answer is 500, nothing is
    written and the row stays ended and unfunded; and on that row
    SetWinners and Distribute are refused with 400 after the row was
    read, nothing being submitted. *)
Theorem settlement_stops_at_fund (w : @World Number) r amount wei h1 e
  (Hrow : db w !! id = Some r)
  (Howner : organizer_id r = user_id (user req))
  (Hopen : manually_ended r = false)
  (Hunfunded : funded_amount r = None)
  (Hamt : body_amount req = Some amount)
  (Hwei : parseEther amount = Some wei)
  (Hsub1 : submit env (OpEnd id) = inl h1) (Hwait1 : wait env h1 = None)
  (Hsub2 : submit env (OpFund id wei) = inr e) :
  let w1 := snd (handle' End_ req w) in
  let w2 := snd (handle' Fund req w1) in
  fst (handle' End_ req w) = Success "Hackathon ended successfully" h1 /\
  fst (handle' Fund req w1) = Error 500 ("Failed to fund hackathon: " +:+ e) /\
  db w2 = db w1 /\
  db w2 !! id = Some (ended_row (now env) r) /\
  trace w2 =
    trace w ++ run_trace id (OpEnd id) h1 ++
    [DbSelect id true; LedgerSubmit (OpFund id wei) false] /\
  (forall a ws, body_winners req = Some (a :: ws) ->
     handle' SetWinners req w2 =
     (Error 400 "Hackathon must be funded before setting winners",
      mkWorld (db w2) (trace w2 ++ [DbSelect id true]))) /\
  handle' Distribute req w2 =
    (Error 400 "Hackathon must be funded before distributing prizes",
     mkWorld (db w2) (trace w2 ++ [DbSelect id true])).
Proof using Hrole Hid Hsel Hupd.
  cbv zeta.
  rewrite (end_success w r h1 Hrow Howner Hopen Hsub1 Hwait1). cbn [fst snd].
  set (w1 := mkWorld (alter (ended_row (now env)) id (db w))
               (trace w ++ run_trace id (OpEnd id) h1)).
  assert (Hrow1 : db w1 !! id = Some (ended_row (now env) r)).
  { subst w1. cbn [db]. rewrite lookup_alter_eq, Hrow. reflexivity. }
  pose proof (is_organizer_true req Hrole) as Hrole'.
  pose proof (owner_true (ended_row (now env) r) req Howner) as Howner1.
  assert (Hfund : handle' Fund req w1 =
            (Error 500 ("Failed to fund hackathon: " +:+ e),
             mkWorld (db w1)
               (trace w1 ++ [DbSelect id true; LedgerSubmit (OpFund id wei) false]))).
  { pose (P := fun (resp : Response) (w' : @World Number) =>
          (resp, w') =
          (Error 500 ("Failed to fund hackathon: " +:+ e),
           mkWorld (db w1)
             (trace w1 ++ [DbSelect id true; LedgerSubmit (OpFund id wei) false]))).
    cbn [handler]. unfold fund_handler. rewrite Hid, Hrole'.
    match goal with |- ?t = _ => rewrite (surjective_pairing t) end.
    enter_try P.
    run_with ltac:(rewrite ?Hrow1, ?Howner1; cbn [manually_ended funded_amount ended_row];
                   rewrite ?Hunfunded, ?Hamt, ?Hwei;
                   cbn [the_id default from_option Datatypes.id]; unify_env);
      try congruence.
    subst P. cbn. rewrite <- !app_assoc. reflexivity. }
  rewrite Hfund. cbn [fst snd db trace].
  set (w2 := mkWorld (db w1)
               (trace w1 ++ [DbSelect id true; LedgerSubmit (OpFund id wei) false])).
  assert (Hrow2 : db w2 !! id = Some (ended_row (now env) r)) by exact Hrow1.
  split; [reflexivity|]. split; [reflexivity|]. split; [reflexivity|].
  split; [exact Hrow1|]. split.
  { subst w1. cbn [trace]. rewrite <- !app_assoc. reflexivity. }
  change (mkWorld (db w1)
            (trace w1 ++ [DbSelect id true; LedgerSubmit (OpFund id wei) false]))
    with w2.
  change (db w1) with (db w2).
  change (trace w1 ++ [DbSelect id true; LedgerSubmit (OpFund id wei) false])
    with (trace w2).
  split.
  - intros a ws Hws.
    pose (P := fun (resp : Response) (w' : @World Number) =>
          (resp, w') =
          (Error 400 "Hackathon must be funded before setting winners",
           mkWorld (db w2) (trace w2 ++ [DbSelect id true]))).
    cbn [handler]. unfold set_winners_handler. rewrite Hid, Hrole', Hws.
    match goal with |- ?t = _ => rewrite (surjective_pairing t) end.
    enter_try P.
    run_with ltac:(rewrite ?Hrow2, ?Howner1; cbn [manually_ended funded_amount ended_row];
                   rewrite ?Hunfunded; cbn [from_option default Datatypes.id]; unify_env);
      try congruence.
    all: subst P; cbn; reflexivity.
  - pose (P := fun (resp : Response) (w' : @World Number) =>
          (resp, w') =
          (Error 400 "Hackathon must be funded before distributing prizes",
           mkWorld (db w2) (trace w2 ++ [DbSelect id true]))).
    cbn [handler]. unfold distribute_handler. rewrite Hid, Hrole'.
    match goal with |- ?t = _ => rewrite (surjective_pairing t) end.
    enter_try P.
    run_with ltac:(rewrite ?Hrow2, ?Howner1; cbn [manually_ended funded_amount ended_row];
                   rewrite ?Hunfunded; cbn [from_option default Datatypes.id]; unify_env);
      try congruence.
    all: subst P; cbn; reflexivity.
Qed.

(** X24: winners are validated before anything is sent.  When one of the
    winners is not an address, the owner's SetWinners on an ended and
    funded row submits nothing to the ledger and writes nothing; the
    answer is status 500 and names the first string of the list that is
    not an address. *)
Theorem invalid_winner_fails_fast (w : @World Number) r pre bad rest
  (Hrow : db w !! id = Some r)
  (Howner : organizer_id r = user_id (user req))
  (Hended : manually_ended r = true)
  (Hfunded : from_option le0 true (funded_amount r) = false)
  (Hws : body_winners req = Some (pre ++ bad :: rest))
  (Hpre : Forall (fun x => isAddress x = true) pre)
  (Hbad : isAddress bad = false) :
  fst (handle' SetWinners req w) =
    Error 500 ("Failed to set winners: " +:+ ("Invalid Ethereum address: " +:+ bad)) /\
  snd (handle' SetWinners req w) = mkWorld (db w) (trace w ++ [DbSelect id true]).
Proof using Hrole Hid Hsel.
  clear Hupd.
  pose proof (is_organizer_true req Hrole) as Hrole'.
  apply (owner_true r req) in Howner.
  pose proof (check_addresses_invalid pre bad rest
                (mkWorld (db w) (trace w ++ [DbSelect id true])) Hpre Hbad) as Hcheck.
  pose (P := fun (resp : Response) (w' : @World Number) =>
          resp = Error 500
                   ("Failed to set winners: " +:+
                    ("Invalid Ethereum address: " +:+ bad)) /\
          w' = mkWorld (db w) (trace w ++ [DbSelect id true])).
  change (P (fst (handle' SetWinners req w)) (snd (handle' SetWinners req w))).
  cbn [handler]. unfold set_winners_handler. rewrite Hid, Hrole', Hws.
  destruct (pre ++ bad :: rest) as [|a0 ws0] eqn:Els.
  { destruct pre; discriminate Els. }
  enter_try P.
  repeat (cbv beta iota; rewrite ?Hrow, ?Howner, ?Hended, ?Hfunded; cbn [negb];
          first [ eapply post_of_eq; [exact Hcheck|] | run_step ]);
    try congruence.
  subst P. cbn. auto.
Qed.

(** X25: the orchestrator does not look at [prizes_distributed].  For a row
    that is ended, funded and has winners, the owner's Distribute is
    submitted to the ledger whether or not the row says the prizes were
    distributed; when the ledger refuses it the answer is 500 and the row
    is unchanged. *)
Theorem repeated_distribute_reaches_ledger (w : @World Number) r x a ws e
  (Hrow : db w !! id = Some r)
  (Howner : organizer_id r = user_id (user req))
  (Hended : manually_ended r = true)
  (Hfun : funded_amount r = Some x) (Hfalsy : falsy x = false) (Hle : le0 x = false)
  (Hws : winners r = Some (a :: ws))
  (Hdone : prizes_distributed r = true)
  (Hsub : submit env (OpDistribute id) = inr e) :
  fst (handle' Distribute req w) = Error 500 ("Failed to distribute prizes: " +:+ e) /\
  snd (handle' Distribute req w) =
    mkWorld (db w) (trace w ++ [DbSelect id true; LedgerSubmit (OpDistribute id) false]).
Proof using Hrole Hid Hsel.
  clear Hupd.
  pose proof (is_organizer_true req Hrole) as Hrole'.
  apply (owner_true r req) in Howner.
  pose (P := fun (resp : Response) (w' : @World Number) =>
          resp = Error 500 ("Failed to distribute prizes: " +:+ e) /\
          w' = mkWorld (db w)
                 (trace w ++ [DbSelect id true; LedgerSubmit (OpDistribute id) false])).
  cbn [handler]. unfold distribute_handler. rewrite Hid, Hrole'.
  enter_try P.
  run_with ltac:(rewrite ?Hrow, ?Howner, ?Hended, ?Hfun, ?Hws;
                 cbn [from_option the_id default Datatypes.id]; rewrite ?Hfalsy, ?Hle;
                 cbn [orb]; unify_env); try congruence.
  subst P. cbn. rewrite <- !app_assoc. auto.
Qed.

End Scenario.

End Gates.

(** ** Sample runs *)


Lemma role_gate_witness :
  run_sample env_ok Fund (request participant []) (world fresh_row)
  = (Error 403 "Only organizers can fund hackathons", world fresh_row).
Proof.
  assert (Hrole : role (user (request participant [])) <> "organizer")
    by (intros E; discriminate E).
  destruct (role_gate gt0 le0 falsy parseFloat parseEther isAddress env_ok Fund
              (request participant []) (world fresh_row) Hrole) as [H1 _].
  rewrite (surjective_pairing (run_sample env_ok Fund _ _)), H1.
  vm_compute. reflexivity.
Defined.

Lemma update_failure_after_confirm_witness :
  db (snd (run_sample env_update_down End_ (request owner []) (world fresh_row)))
    = db (world fresh_row) /\
  fst (run_sample env_update_down End_ (request owner []) (world fresh_row))
    = Error 500 "Failed to end hackathon: connection lost".
Proof.
  destruct (update_failure_after_confirm gt0 le0 falsy parseFloat parseEther isAddress
              env_update_down End_ (request owner []) (world fresh_row)
              [DbSelect 5 true; LedgerSubmit (OpEnd 5) true; LedgerWait "0xabc" true;
               DbUpdate 5 false] 5%Z) as (H1 & _ & _).
  - vm_compute. reflexivity.
  - cbn. auto.
  - split; [exact H1|]. vm_compute. reflexivity.
Defined.

Lemma ownership_gate_witness :
  exists e,
    fst (run_sample env_ok Distribute (request stranger []) (world settled_row))
      = Error 403 e.
Proof.
  destruct (ownership_gate gt0 le0 falsy parseFloat parseEther isAddress env_ok Distribute
              (request stranger []) (world settled_row) 5%Z settled_row) as [H _];
    try reflexivity.
  - intros E. discriminate E.
  - cbn. intros E. discriminate E.
  - exact H.
Defined.

Lemma must_be_ended_first_witness :
  (exists e,
     fst (run_sample env_ok Fund (request owner []) (world fresh_row)) = Error 400 e) /\
  trace (snd (run_sample env_ok Fund (request owner []) (world fresh_row)))
    = [DbSelect 5 true].
Proof.
  destruct (must_be_ended_first gt0 le0 falsy parseFloat parseEther isAddress env_ok Fund
              (request owner []) (world fresh_row) 5%Z fresh_row) as [H1 H2];
    try reflexivity.
  - intros E. discriminate E.
  - intros E. discriminate E.
  - split; [exact H1|]. rewrite H2. reflexivity.
Defined.

Lemma end_then_end_witness :
  fst (run_sample env_ok End_ (request owner []) (world fresh_row))
    = Success "Hackathon ended successfully" "0xabc" /\
  fst (run_sample env_ok End_ (request owner [])
         (snd (run_sample env_ok End_ (request owner []) (world fresh_row))))
    = Error 400 "Hackathon has already been ended".
Proof.
  destruct (end_then_end gt0 le0 falsy parseFloat parseEther isAddress env_ok
              (request owner []) 5%Z eq_refl eq_refl eq_refl eq_refl
              (world fresh_row) fresh_row "0xabc" eq_refl eq_refl eq_refl eq_refl eq_refl)
    as (H1 & _ & _ & H4 & _).
  split; [exact H1 | exact H4].
Defined.

Lemma settlement_stops_at_fund_witness :
  fst (run_sample env_fund_refused End_ (request owner [address_a; address_b])
         (world fresh_row))
    = Success "Hackathon ended successfully" "0xabc" /\
  run_sample env_fund_refused Fund (request owner [address_a; address_b])
    (snd (run_sample env_fund_refused End_ (request owner [address_a; address_b])
            (world fresh_row)))
    = (Error 500 "Failed to fund hackathon: execution reverted",
       mkWorld {[ 5%Z := mkRow 1 "ended" true (Some clock) None None None false None ]}
         [DbSelect 5 true; LedgerSubmit (OpEnd 5) true; LedgerWait "0xabc" true;
          DbUpdate 5 true; DbSelect 5 true;
          LedgerSubmit (OpFund 5 (2 * 10 ^ 18)) false]).
Proof.
  destruct (settlement_stops_at_fund gt0 le0 falsy parseFloat parseEther isAddress
              env_fund_refused (request owner [address_a; address_b]) 5%Z
              eq_refl eq_refl eq_refl eq_refl
              (world fresh_row) fresh_row "2" (2 * 10 ^ 18) "0xabc" "execution reverted"
              eq_refl eq_refl eq_refl eq_refl eq_refl eq_refl eq_refl eq_refl eq_refl)
    as (H1 & H2 & _).
  split; [exact H1|].
  rewrite (surjective_pairing (run_sample env_fund_refused Fund _ _)), H2.
  vm_compute. reflexivity.
Defined.

Lemma invalid_winner_fails_fast_witness :
  run_sample env_ok SetWinners (request owner [address_a; "0xA1"; "B2"])
    (world settled_row)
  = (Error 500 "Failed to set winners: Invalid Ethereum address: 0xA1",
     mkWorld {[ 5%Z := settled_row ]} [DbSelect 5 true]).
Proof.
  assert (Hpre : Forall (fun x => isAddress x = true) [address_a])
    by (repeat constructor).
  destruct (invalid_winner_fails_fast gt0 le0 falsy parseFloat parseEther isAddress env_ok
              (request owner [address_a; "0xA1"; "B2"]) 5%Z eq_refl eq_refl eq_refl
              (world settled_row) settled_row [address_a] "0xA1" ["B2"]
              eq_refl eq_refl eq_refl eq_refl eq_refl Hpre eq_refl)
    as (H1 & H2).
  rewrite (surjective_pairing (run_sample env_ok SetWinners _ _)), H1, H2.
  reflexivity.
Defined.

Lemma repeated_distribute_reaches_ledger_witness :
  run_sample env_refusing Distribute (request owner []) (world settled_row)
  = (Error 500 "Failed to distribute prizes: execution reverted",
     mkWorld {[ 5%Z := settled_row ]}
       [DbSelect 5 true; LedgerSubmit (OpDistribute 5) false]).
Proof.
  destruct (repeated_distribute_reaches_ledger gt0 le0 falsy parseFloat parseEther
              isAddress env_refusing (request owner []) 5%Z eq_refl eq_refl eq_refl
              (world settled_row) settled_row 2%Z address_a [address_b] "execution reverted"
              eq_refl eq_refl eq_refl eq_refl eq_refl eq_refl eq_refl eq_refl eq_refl)
    as (H1 & H2).
  rewrite (surjective_pairing (run_sample env_refusing Distribute _ _)), H1, H2.
  reflexivity.
Defined.


End OrchestratorExtras.

(** * Properties of listing and participation *)

Module ApiProofs.

Import Api.

(** ** The status shown *)

(** X26: the status shown moves forward only.  As time passes the status
    computed for a row goes from upcoming to active to ended and never
    back; a row ended by hand shows ended at any time; and the stored
    [status] column has no influence on what is shown. *)
Theorem status_moves_forward (h : Hackathon) (t t' : Z)
  (Hlater : (t <= t')%Z) :
  (phase (shown_status h t) <= phase (shown_status h t'))%nat /\
  (manually_ended h = true -> shown_status h t = "ended") /\
  (forall stored,
     shown_status (mkHackathon stored (start_date h) (end_date h) (manually_ended h)) t
     = shown_status h t).
Proof.
  unfold shown_status. cbn [status start_date end_date manually_ended].
  split; [|split].
  - destruct (manually_ended h); [cbn; lia|].
    set (s := new_Date (start_date h)). set (e := new_Date (end_date h)).
    destruct (t <? s)%Z eqn:E1; destruct (t' <? s)%Z eqn:E2;
      destruct ((s <=? t)%Z && (t <=? e)%Z) eqn:E3;
      destruct ((s <=? t')%Z && (t' <=? e)%Z) eqn:E4; cbn; try lia.
    all: rewrite ?andb_true_iff, ?andb_false_iff in *;
      rewrite ?Z.ltb_lt, ?Z.ltb_ge, ?Z.leb_le, ?Z.leb_gt in *; lia.
  - intros ->. reflexivity.
  - reflexivity.
Qed.

Lemma status_moves_forward_witness :
  shown_status (mkHackathon "active" (Some 10%Z) (Some 20%Z) false) 5 = "upcoming" /\
  shown_status (mkHackathon "active" (Some 10%Z) (Some 20%Z) false) 15 = "active" /\
  shown_status (mkHackathon "active" (Some 10%Z) (Some 20%Z) false) 25 = "ended" /\
  (phase (shown_status (mkHackathon "active" (Some 10%Z) (Some 20%Z) false) 15)
   <= phase (shown_status (mkHackathon "active" (Some 10%Z) (Some 20%Z) false) 25))%nat.
Proof.
  split; [reflexivity|]. split; [reflexivity|]. split; [reflexivity|].
  apply (status_moves_forward (mkHackathon "active" (Some 10%Z) (Some 20%Z) false) 15 25).
  lia.
Defined.

(** ** Participation *)

Lemma matches_set_withdrawn flag u h u' h' p :
  matches u' h' (set_withdrawn flag u h p) = matches u' h' p.
Proof. unfold set_withdrawn. destruct (matches u h p); reflexivity. Qed.

Lemma filter_set_withdrawn flag u h u' h' ps :
  List.filter (matches u' h') (map (set_withdrawn flag u h) ps) =
  map (set_withdrawn flag u h) (List.filter (matches u' h') ps).
Proof.
  induction ps as [|p ps IH]; [reflexivity|].
  cbn [map List.filter]. rewrite matches_set_withdrawn.
  destruct (matches u' h' p); cbn [map]; rewrite IH; reflexivity.
Qed.

Lemma set_withdrawn_absent flag u h ps :
  List.filter (matches u h) ps = [] -> map (set_withdrawn flag u h) ps = ps.
Proof.
  induction ps as [|p ps IH]; [reflexivity|].
  cbn [map List.filter]. unfold set_withdrawn at 1.
  destruct (matches u h p) eqn:E; [discriminate|].
  intros H. rewrite IH by exact H. reflexivity.
Qed.

Ltac crunch :=
  repeat (cbn;
          match goal with
          | |- context [match ?x with _ => _ end] =>
              lazymatch x with
              | context [match _ with _ => _ end] => fail
              | _ => destruct x eqn:?
              end
          end).

(** Write the id of the goal as the handlers do, from the request. *)
Ltac fold_id :=
  match goal with
  | H : params_id ?req = Some ?z |- _ =>
      change z with (the_id (Some z)); rewrite <- H
  end.

Lemma join_written failure req d :
  written req d (snd (join_handler failure req d)) /\
  (forall c e, fst (join_handler failure req d) = Error c e ->
     snd (join_handler failure req d) = d).
Proof.
  unfold join_handler, try_catch, bind, select_hackathon, select_participant,
    update_withdrawn, insert_participant, query, reject_if, respond, ret.
  crunch; cbn; (split; [|intros c0 e0 E0; first [reflexivity | discriminate E0]]);
    try apply written_nothing; fold_id.
  - apply written_row. rewrite Heqo. assumption.
  - apply (written_flag req d false).
Qed.

Lemma withdraw_written failure req d :
  written req d (snd (withdraw_handler failure req d)) /\
  (forall c e, fst (withdraw_handler failure req d) = Error c e ->
     snd (withdraw_handler failure req d) = d).
Proof.
  unfold withdraw_handler, try_catch, bind, select_hackathon, select_participant,
    update_withdrawn, insert_participant, query, reject_if, respond, ret.
  crunch; cbn; (split; [|intros c0 e0 E0; first [reflexivity | discriminate E0]]);
    try apply written_nothing; fold_id.
  apply (written_flag req d true).
Qed.

Lemma written_one_row req d d' :
  written req d d' -> one_row_each d -> one_row_each d'.
Proof.
  intros W Hone u h. destruct W as [|flag|Hnew]; cbn [participants].
  - apply Hone.
  - rewrite filter_set_withdrawn, length_map. apply Hone.
  - rewrite List.filter_app, length_app. cbn [List.filter].
    destruct (matches u h _) eqn:E; cbn [length]; [|specialize (Hone u h); lia].
    unfold matches in E. cbn in E. apply andb_prop in E. destruct E as [E1 E2].
    apply Z.eqb_eq in E1, E2. subst. rewrite Hnew. cbn. lia.
Qed.

(** X27: one run of join or of withdraw, its queries not interleaved with
    those of another request, keeps one row per user and hackathon, never
    touches the table of hackathons, and changes nothing when it answers
    with an error, whatever queries reject.  The table itself has no
    uniqueness constraint: the property rests on the handler's own SELECT
    before its INSERT. *)
Theorem participation_invariant failure req d (Hone : one_row_each d) :
  let dj := snd (join_handler failure req d) in
  let dw := snd (withdraw_handler failure req d) in
  (one_row_each dj /\ one_row_each dw) /\
  (hackathons dj = hackathons d /\ hackathons dw = hackathons d) /\
  (forall c e, fst (join_handler failure req d) = Error c e -> dj = d) /\
  (forall c e, fst (withdraw_handler failure req d) = Error c e -> dw = d).
Proof.
  cbv zeta.
  destruct (join_written failure req d) as [Wj Ej].
  destruct (withdraw_written failure req d) as [Ww Ew].
  split; [split; eapply written_one_row; eauto|].
  split; [|auto].
  split; [destruct Wj | destruct Ww]; reflexivity.
Qed.

(** ** Joining, withdrawing and joining again *)

Section Cycle.

Variables (req : Request) (id : Z) (h : Hackathon) (d : Db).
Hypothesis Hrole : role req = "user".
Hypothesis Hid : params_id req = Some id.
Hypothesis Hrow : hackathons d !! id = Some h.
Hypothesis Hopen : (now req <= new_Date (end_date h))%Z.
Hypothesis Hnew : List.filter (matches (requester req) id) (participants d) = [].

Lemma matches_me flag :
  matches (requester req) id (mkParticipant id (requester req) flag) = true.
Proof. unfold matches. cbn. rewrite !Z.eqb_refl. reflexivity. Qed.

Lemma filter_joined flag :
  List.filter (matches (requester req) id)
    (participants d ++ [mkParticipant id (requester req) flag])
  = [mkParticipant id (requester req) flag].
Proof.
  rewrite List.filter_app, Hnew. cbn [List.filter]. rewrite matches_me. reflexivity.
Qed.

Lemma set_joined flag flag' :
  map (fun p => if matches (requester req) id p
                then mkParticipant (hackathon_id p) (user_id p) flag'
                else p)
    (participants d ++ [mkParticipant id (requester req) flag])
  = participants d ++ [mkParticipant id (requester req) flag'].
Proof.
  rewrite map_app. cbn [map]. rewrite matches_me. cbn.
  f_equal. apply (set_withdrawn_absent flag' _ _ _ Hnew).
Qed.

Ltac run_api :=
  unfold join_handler, withdraw_handler, try_catch, bind, select_hackathon,
    select_participant, update_withdrawn, insert_participant, query, reject_if,
    respond, ret, healthy;
  rewrite ?Hrole, ?Hid; cbn [String.eqb negb the_id default from_option Datatypes.id];
  cbn.

(** X28: the cycle of a participation, all queries going through.  A user
    without a row joins a hackathon that is not past its end date (ended
    by hand or not): a row is inserted.  Joining again is refused with
    400.  Withdrawing sets the flag of that row; withdrawing again is
    refused with 400.  Joining once more clears the flag again instead of
    inserting, which gives back the table the first join left. *)
Theorem participation_cycle :
  let joined := with_row d id (requester req) false in
  let left := with_row d id (requester req) true in
  join_handler healthy req d = (Message "Joined hackathon successfully", joined) /\
  join_handler healthy req joined
    = (Error 400 "You have already joined this hackathon", joined) /\
  withdraw_handler healthy req joined
    = (Message "Withdrawn from hackathon successfully", left) /\
  withdraw_handler healthy req left
    = (Error 400 "You have already withdrawn from this hackathon", left) /\
  join_handler healthy req left = (Message "Rejoined hackathon successfully", joined) /\
  (requester req ∈ active_in joined id /\ requester req ∉ active_in left id).
Proof using Hrole Hid Hrow Hopen Hnew.
  assert (Hlt : (new_Date (end_date h) <? now req)%Z = false)
    by (apply Z.ltb_ge; exact Hopen).
  unfold with_row. cbv zeta.
  repeat split.
  - run_api. rewrite Hrow. cbn. rewrite Hlt. cbn. rewrite Hnew. reflexivity.
  - run_api. rewrite Hrow. cbn. rewrite Hlt. cbn. rewrite filter_joined. reflexivity.
  - run_api. rewrite Hrow. cbn. rewrite Hlt. cbn. rewrite filter_joined. cbn.
    rewrite set_joined. reflexivity.
  - run_api. rewrite Hrow. cbn. rewrite Hlt. cbn. rewrite filter_joined. reflexivity.
  - run_api. rewrite Hrow. cbn. rewrite Hlt. cbn. rewrite filter_joined. cbn.
    rewrite set_joined. reflexivity.
  - unfold active_in. cbn [participants]. rewrite List.filter_app, map_app.
    apply elem_of_app. right. cbn. rewrite Z.eqb_refl. cbn. apply list_elem_of_here.
  - unfold active_in. cbn [participants]. rewrite List.filter_app, map_app.
    cbn. rewrite Z.eqb_refl. cbn. rewrite app_nil_r.
    intros Hin. apply list_elem_of_fmap in Hin. destruct Hin as (p & Hu & Hp).
    apply list_elem_of_In, List.filter_In in Hp. destruct Hp as [Hp Hc].
    apply andb_prop in Hc. destruct Hc as [Hc _]. apply Z.eqb_eq in Hc.
    assert (Hm : matches (requester req) id p = true).
    { unfold matches. rewrite <- Hu, Hc, !Z.eqb_refl. reflexivity. }
    assert (Hf : In p (List.filter (matches (requester req) id) (participants d))).
    { apply List.filter_In. auto. }
    rewrite Hnew in Hf. destruct Hf.
Qed.

End Cycle.

Lemma participation_cycle_witness :
  let req := mkRequest (Some 5%Z) 42 "user" 100 in
  let d := mkDb {[ 5%Z := mkHackathon "ended" (Some 50%Z) (Some 200%Z) true ]}
             [mkParticipant 5 41 false] in
  fst (join_handler healthy req d) = Message "Joined hackathon successfully" /\
  participants (snd (join_handler healthy req d))
    = [mkParticipant 5 41 false; mkParticipant 5 42 false].
Proof.
  cbv zeta.
  assert (Hrow : hackathons
            (mkDb {[ 5%Z := mkHackathon "ended" (Some 50%Z) (Some 200%Z) true ]}
               [mkParticipant 5 41 false]) !! 5%Z
          = Some (mkHackathon "ended" (Some 50%Z) (Some 200%Z) true))
    by (vm_compute; reflexivity).
  assert (Hopen : (100 <= new_Date (Some 200))%Z) by (cbn; lia).
  destruct (participation_cycle
              (mkRequest (Some 5%Z) 42 "user" 100) 5%Z
              (mkHackathon "ended" (Some 50%Z) (Some 200%Z) true)
              (mkDb {[ 5%Z := mkHackathon "ended" (Some 50%Z) (Some 200%Z) true ]}
                 [mkParticipant 5 41 false])
              eq_refl eq_refl Hrow Hopen eq_refl) as (H1 & _).
  rewrite H1. split; reflexivity.
Defined.

Lemma participation_invariant_witness :
  let req := mkRequest (Some 5%Z) 42 "user" 100 in
  let d := mkDb {[ 5%Z := mkHackathon "ended" (Some 50%Z) (Some 200%Z) true ]}
             [mkParticipant 5 41 false] in
  one_row_each d /\
  participants (snd (join_handler healthy req d))
    = [mkParticipant 5 41 false; mkParticipant 5 42 false] /\
  one_row_each (snd (join_handler healthy req d)) /\
  hackathons (snd (join_handler healthy req d)) = hackathons d.
Proof.
  cbv zeta.
  assert (H : one_row_each
                (mkDb {[ 5%Z := mkHackathon "ended" (Some 50%Z) (Some 200%Z) true ]}
                   [mkParticipant 5 41 false])).
  { intros u hk. cbn. destruct (matches u hk _); cbn; lia. }
  destruct (participation_invariant healthy (mkRequest (Some 5%Z) 42 "user" 100) _ H)
    as ((H1 & _) & (H2 & _) & _).
  split; [exact H|]. split; [vm_compute; reflexivity|]. split; [exact H1 | exact H2].
Defined.

End ApiProofs.
